(** * SupplyGenie chat page: a model of [components/chat-page-backup.tsx]

    The component is a React function component.  The development models

    - JavaScript strings as sequences of UTF-16 code units, with the string
      methods the component calls ([trim], [includes], [startsWith],
      [replace] with the phone-number character class, [split], [join]);
    - the [ContactButton] helper with its link computation and its click
      handler, including the [try]/[catch] around [window.open];
    - the element tree returned by [ChatPage], element by element;
    - event handlers as first-order closures and their effects;
    - the [useEffect] hooks and the commit that runs them;
    - a click from its target up to the listener on the document. *)

From Stdlib Require Import List NArith Bool Arith Lia.
From Stdlib Require Import Strings.String Strings.Ascii Numbers.DecimalString.
From Stdlib Require Numbers.DecimalNat.
Import ListNotations.

Set Implicit Arguments.
#[local] Set Warnings "-register-all".

(* [length] and [concat] are the list functions throughout. *)
#[local] Abbreviation length := List.length.

(* ================================================================== *)
(** ** JavaScript strings *)

Module JS.

(** A JavaScript string is a finite sequence of UTF-16 code units. *)
Abbreviation char16 := N.
Abbreviation jsstring := (list N).

(** String literals of the source are ASCII; [lit] reads one. *)
Definition lit (s : string) : jsstring :=
  map N_of_ascii (list_ascii_of_string s).

(** [a === b] on strings. *)
Fixpoint str_eqb (a b : jsstring) : bool :=
  match a, b with
  | [], [] => true
  | x :: a', y :: b' => N.eqb x y && str_eqb a' b'
  | _, _ => false
  end.

(** A string is truthy when it is not empty. *)
Definition truthy (s : jsstring) : bool :=
  match s with [] => false | _ :: _ => true end.

(** [a || b] on strings. *)
Definition or_else (a b : jsstring) : jsstring :=
  if truthy a then a else b.

(** ECMAScript WhiteSpace and LineTerminator code points, the characters
    [String.prototype.trim] strips.  All of them are in the BMP. *)
Definition isWhiteSpace (c : char16) : bool :=
  (c =? 9)%N || (c =? 10)%N || (c =? 11)%N || (c =? 12)%N || (c =? 13)%N ||
  (c =? 32)%N || (c =? 160)%N || (c =? 5760)%N ||
  ((8192 <=? c)%N && (c <=? 8202)%N) ||
  (c =? 8232)%N || (c =? 8233)%N || (c =? 8239)%N || (c =? 8287)%N ||
  (c =? 12288)%N || (c =? 65279)%N.

Fixpoint trimStart (s : jsstring) : jsstring :=
  match s with
  | [] => []
  | c :: r => if isWhiteSpace c then trimStart r else s
  end.

Definition trimEnd (s : jsstring) : jsstring := rev (trimStart (rev s)).

Definition trim (s : jsstring) : jsstring := trimEnd (trimStart s).

Fixpoint startsWith (s p : jsstring) {struct p} : bool :=
  match p, s with
  | [], _ => true
  | c :: p', d :: s' => N.eqb c d && startsWith s' p'
  | _ :: _, [] => false
  end.

Fixpoint includes (s sub : jsstring) : bool :=
  startsWith s sub ||
  match s with
  | [] => false
  | _ :: s' => includes s' sub
  end.

(** [\d] without the unicode flag: the ten ASCII digits. *)
Definition isDigit (c : char16) : bool := (48 <=? c)%N && (c <=? 57)%N.

(** [s.split(sep)] for a separator of one code unit. *)
Fixpoint split_aux (sep : char16) (cur : jsstring) (s : jsstring)
  : list jsstring :=
  match s with
  | [] => [rev cur]
  | c :: r => if N.eqb c sep then rev cur :: split_aux sep [] r
              else split_aux sep (c :: cur) r
  end.

Definition split (s : jsstring) (sep : char16) : list jsstring :=
  split_aux sep [] s.

(** [parts.join('')]. *)
Definition join (parts : list jsstring) : jsstring := List.concat parts.

(** [String(n)] for an array length or an array index. *)
Definition Number_toString (n : nat) : jsstring :=
  lit (NilZero.string_of_uint (Nat.to_uint n)).

End JS.

Import JS.

(* ================================================================== *)
(** ** Data model: the display records passed in as props *)

Record UserType := {
  user_name : jsstring;
  user_email : jsstring;
  user_avatar : option jsstring;
  user_uid : jsstring
}.

Inductive FieldType := text | badge | rating | price | location | time.

Record SupplierField := {
  field_label : jsstring;
  field_value : jsstring;
  field_type : FieldType
}.

Record Supplier := {
  supplier_id : jsstring;
  supplier_name : jsstring;
  supplier_fields : list SupplierField
}.

(** A [Date] is its time value; [suppliers?] and the optional chaining on
    [timestamp] make both fields optional. *)
Definition Date := N.

Record Message := {
  message_id : jsstring;
  message_type : jsstring;
  message_content : jsstring;
  message_timestamp : option Date;
  message_suppliers : option (list Supplier)
}.

Record Chat := {
  chat_id : jsstring;
  chat_title : jsstring;
  chat_messages : list Message
}.

(** A function value is known to the component only by its identity, which
    is what a dependency array compares. *)
Definition FunRef := N.

Record ChatPageProps := {
  user : UserType;
  chats : list Chat;
  activeChat : option jsstring;
  messages : list Message;
  currentMessage : jsstring;
  search : jsstring;
  isAssistantTyping : bool;
  renamingChatId : option jsstring;
  renameValue : jsstring;
  onViewChange : FunRef;
  onLogout : FunRef;
  onChatSelect : FunRef;
  onCreateNewChat : FunRef;
  onSendMessage : FunRef;
  onMessageChange : FunRef;
  onSearchChange : FunRef;
  onStartRename : FunRef;
  onRenameChange : FunRef;
  onRenameSave : FunRef;
  onRenameKeyDown : FunRef;
  setRenamingChatId : FunRef
}.

(** What [useSpeechToText] returns. *)
Record SpeechToText := {
  isSupported : bool;
  isRecording : bool;
  transcript : jsstring;
  error : option jsstring;
  startListening : FunRef;
  stopListening : FunRef;
  setTranscript : FunRef
}.

(** Everything one execution of the function body reads: the props, the
    values its hooks return, and the identity of the [messages] array (a
    dependency array compares arrays by identity). *)
Record Ctx := {
  props : ChatPageProps;
  isMobile : bool;
  sidebarOpen : bool;
  speech : SpeechToText;
  messages_identity : N
}.

(** [activeChat === chat.id] where the left side may be [null]. *)
Definition null_eqb (o : option jsstring) (s : jsstring) : bool :=
  match o with
  | Some a => str_eqb a s
  | None => false
  end.

(** Truthiness of a [string | null]. *)
Definition null_truthy (o : option jsstring) : bool :=
  match o with
  | Some a => truthy a
  | None => false
  end.

(** [x?.title || fallback]. *)
Definition null_or_else (o : option jsstring) (d : jsstring) : jsstring :=
  match o with
  | Some a => or_else a d
  | None => d
  end.

(* ================================================================== *)
(** ** Effects, exceptions and the browser *)

Inductive ViewName := view_landing | view_login | view_signup | view_chat.

Inductive RefName := renameInputRef | inputRef | messagesEndRef.

(** The part of a DOM event the handlers read. *)
Record DomEvent := {
  key : jsstring;
  target_value : jsstring
}.

Definition Exn := jsstring.

(** What a handler or an effect does to the outside: calls of the callback
    props, of the state setter, of the speech hook's functions and of
    browser APIs, in program order. *)
Inductive Effect :=
| Call_onViewChange (v : ViewName)
| Call_onLogout
| Call_onChatSelect (chatId : jsstring)
| Call_onCreateNewChat
| Call_onSendMessage
| Call_onMessageChange (message : jsstring)
| Call_onSearchChange (s : jsstring)
| Call_onStartRename (c : Chat)
| Call_onRenameChange (v : jsstring)
| Call_onRenameSave (chatId : jsstring)
| Call_onRenameKeyDown (e : DomEvent) (chatId : jsstring)
| Call_setSidebarOpen (b : bool)
| Call_startListening
| Call_stopListening
| Call_setTranscript (s : jsstring)
| StopPropagation
| WindowOpen (href target : jsstring)
| ConsoleError (msg : jsstring) (err : Exn)
| Focus (r : RefName)
| ScrollIntoView (r : RefName)
| AddDocumentClickListener
| RemoveDocumentClickListener.

(** A statement completes normally or throws. *)
Inductive Completion (A : Type) :=
| Normal (a : A)
| Throw (e : Exn).
Arguments Throw {A} e.

(** Effectful code: the effects performed so far and how it completed. *)
Definition Eff (A : Type) : Type := list Effect * Completion A.

Definition ret {A} (a : A) : Eff A := ([], Normal a).

Definition bind {A B} (m : Eff A) (k : A -> Eff B) : Eff B :=
  match m with
  | (l, Normal a) => let (l', r) := k a in (l ++ l', r)
  | (l, Throw e) => (l, Throw e)
  end.

Definition perform (e : Effect) : Eff unit := ([e], Normal tt).

(** [try { body } catch (error) { handler }]. *)
Definition try_catch {A} (body : Eff A) (handler : Exn -> Eff A) : Eff A :=
  match body with
  | (l, Normal a) => (l, Normal a)
  | (l, Throw e) => let (l', r) := handler e in (l ++ l', r)
  end.

Notation "x <- m ;; k" := (bind m (fun x => k))
  (at level 61, m at next level, right associativity).
Notation "m ;;; k" := (bind m (fun _ => k))
  (at level 61, right associativity).

Definition effects {A} (m : Eff A) : list Effect := fst m.
Definition completion {A} (m : Eff A) : Completion A := snd m.

(* ================================================================== *)
(** ** ContactButton *)

Section ContactButton.

(** The browser: whether [window.open(href, target)] throws, and what. *)
Variable window_open_throws : jsstring -> jsstring -> option Exn.

Definition window_open (href target : jsstring) : Eff unit :=
  ([WindowOpen href target],
   match window_open_throws href target with
   | None => Normal tt
   | Some e => Throw e
   end).

Definition console_error (msg : jsstring) (err : Exn) : Eff unit :=
  perform (ConsoleError msg err).

(** The character class [[^\d+()-]]: everything but a digit, [+], [(], [)]
    and [-]. *)
Definition phone_regex_matches (c : char16) : bool :=
  negb (isDigit c || (c =? 43)%N || (c =? 40)%N || (c =? 41)%N || (c =? 45)%N).

(** [s.replace(/[^\d+()-]/g, '')]: every match is deleted. *)
Definition replace_phone_regex (s : jsstring) : jsstring :=
  filter (fun c => negb (phone_regex_matches c)) s.

Definition getHref (type value : jsstring) : jsstring :=
  let cleanValue := trim value in
  if str_eqb type (lit "email") then
    if includes cleanValue (lit "@") then lit "mailto:" ++ cleanValue
    else lit "#"
  else if str_eqb type (lit "phone") then
    let phoneNumber := replace_phone_regex cleanValue in
    if truthy phoneNumber then lit "tel:" ++ phoneNumber
    else lit "#"
  else if str_eqb type (lit "website") then
    if startsWith cleanValue (lit "http://")
       || startsWith cleanValue (lit "https://") then cleanValue
    else if includes cleanValue (lit ".") then lit "https://" ++ cleanValue
    else lit "#"
  else lit "#".

Definition getTitle (type value : jsstring) : jsstring :=
  let cleanValue := trim value in
  if str_eqb type (lit "email") then lit "Send email to " ++ cleanValue
  else if str_eqb type (lit "phone") then lit "Call " ++ cleanValue
  else if str_eqb type (lit "website") then
    lit "Visit website: " ++ cleanValue
  else [].

Definition getIcon (type : jsstring) : string :=
  if str_eqb type (lit "email") then "Mail"
  else if str_eqb type (lit "phone") then "Phone"
  else if str_eqb type (lit "website") then "Globe"
  else "Mail".

Definition handleClick (type value : jsstring) : Eff unit :=
  try_catch
    (let href := getHref type value in
     if truthy href && negb (str_eqb href (lit "#"))
     then window_open href (lit "_blank")
     else ret tt)
    (fun error => console_error (lit "Error opening contact link:") error).

End ContactButton.

(* ================================================================== *)
(** ** Element trees *)

(** An event handler is a closure; the component has finitely many of them,
    listed here with the values they capture besides the [Ctx] of the render
    that created them.  [run_handler] below gives each its body. *)
Inductive Handler :=
| toggleSidebar
| goLanding
| closeSidebar
| logout
| createNewChat
| mobileNewChat
| searchChange
| mobileChatSelect (chatId : jsstring)
| renameChange
| renameSave (chatId : jsstring)
| renameKeyDown (chatId : jsstring)
| stopPropagation
| startRename (c : Chat)
| messageChange
| inputKeyDown
| startListeningH
| stopListeningH
| sendMessage
| contactClick (type value : jsstring).

Inductive Attr :=
| key_ (k : jsstring)
| ref (r : RefName)
| onClick (h : Handler)
| onChange (h : Handler)
| onKeyDown (h : Handler)
| onBlur (h : Handler)
| disabled (b : bool)
| value_ (v : jsstring)
| placeholder (v : jsstring)
| title_ (v : jsstring)
| prop (name val : string)
| flag (name : string).

(** What JSX evaluates to: [Null] stands for the values React renders as
    nothing ([false], [null], [undefined], the empty string), [Frag] for
    [<>...</>].  Components of the UI library and icons are elements whose
    tag is the component's name; the vector paths inside an inline [<svg>]
    carry no data and are left out. *)
Inductive Node :=
| Null
| Text (s : jsstring)
| Frag (children : list Node)
| El (tag : string) (className : string) (attrs : list Attr)
     (children : list Node).

(** [l.map((x, index) => f x index)]. *)
Fixpoint mapi_from {A B} (i : nat) (f : A -> nat -> B) (l : list A)
  : list B :=
  match l with
  | [] => []
  | x :: r => f x i :: mapi_from (S i) f r
  end.

Definition mapi {A B} (f : A -> nat -> B) (l : list A) : list B :=
  mapi_from 0 f l.

(** All nodes of a tree, in document order, the root first. *)
Fixpoint nodes (n : Node) : list Node :=
  n :: match n with
       | Null | Text _ => []
       | Frag ch | El _ _ _ ch =>
           (fix go (l : list Node) : list Node :=
              match l with
              | [] => []
              | x :: r => nodes x ++ go r
              end) ch
       end.

(** [node.textContent]. *)
Fixpoint textContent (n : Node) : jsstring :=
  match n with
  | Null => []
  | Text s => s
  | Frag ch | El _ _ _ ch =>
      (fix go (l : list Node) : jsstring :=
         match l with
         | [] => []
         | x :: r => textContent x ++ go r
         end) ch
  end.

Definition children_of (n : Node) : list Node :=
  match n with
  | Null | Text _ => []
  | Frag ch | El _ _ _ ch => ch
  end.

Definition attrs_of (n : Node) : list Attr :=
  match n with
  | El _ _ a _ => a
  | _ => []
  end.

Definition is_disabled (n : Node) : bool :=
  existsb (fun a => match a with disabled true => true | _ => false end)
          (attrs_of n).

Definition onClick_of (n : Node) : list Handler :=
  flat_map (fun a => match a with onClick h => [h] | _ => [] end) (attrs_of n).

Definition has_ref (r : RefName) (n : Node) : bool :=
  existsb (fun a => match a, r with
                    | ref renameInputRef, renameInputRef
                    | ref inputRef, inputRef
                    | ref messagesEndRef, messagesEndRef => true
                    | _, _ => false
                    end) (attrs_of n).

(** Whether a class list contains a class name. *)
Fixpoint str_prefix (p s : string) {struct p} : bool :=
  match p, s with
  | EmptyString, _ => true
  | String a p', String b s' => Ascii.eqb a b && str_prefix p' s'
  | String _ _, EmptyString => false
  end.

Fixpoint str_contains (s p : string) : bool :=
  str_prefix p s ||
  match s with
  | EmptyString => false
  | String _ s' => str_contains s' p
  end.

Definition has_tag (tag : string) (n : Node) : bool :=
  match n with
  | El t _ _ _ => String.eqb t tag
  | _ => false
  end.

Definition has_class (cls : string) (n : Node) : bool :=
  match n with
  | El _ c _ _ => str_contains c cls
  | _ => false
  end.

(* ================================================================== *)
(** ** The component *)

Section Component.

(** The JavaScript engine and the browser: [String.prototype.toLowerCase],
    [Date.prototype.toString] (which depends on the time zone) and whether
    [window.open] throws. *)
Variable toLowerCase : jsstring -> jsstring.
Variable Date_toString : Date -> jsstring.
Variable window_open_throws : jsstring -> jsstring -> option Exn.

Definition avatarBase : string := "w-10 h-10 bg-zinc-800 border border-zinc-700".
Definition dropdownBase : string := "bg-zinc-900 border-zinc-800".

Definition TypingIndicator : Node :=
  El "div" "flex items-center space-x-1 px-2 py-1" [] [
    El "div" "flex space-x-1" [] [
      El "div" "w-2 h-2 bg-zinc-400 rounded-full animate-bounce"
         [prop "style.animationDelay" "0ms"] [];
      El "div" "w-2 h-2 bg-zinc-400 rounded-full animate-bounce"
         [prop "style.animationDelay" "150ms"] [];
      El "div" "w-2 h-2 bg-zinc-400 rounded-full animate-bounce"
         [prop "style.animationDelay" "300ms"] []]].

Definition LogoImage (className : string) : Node :=
  El "svg" className [prop "viewBox" "0 0 32 32"; prop "fill" "none"] [].

(** [user?.name?.split(' ').map(n => n[0]).join('') || 'U']. *)
Definition initials (u : UserType) : jsstring :=
  or_else
    (join (map (fun n => match n with c :: _ => [c] | [] => [] end)
               (split (user_name u) 32%N)))
    (lit "U").

Definition UserAvatarDropdown (u : UserType) : Node :=
  El "DropdownMenu" "" [] [
    El "DropdownMenuTrigger" "" [flag "asChild"] [
      El "Button" "relative h-8 w-8 rounded-full" [prop "variant" "ghost"] [
        El "Avatar" avatarBase [] [
          El "AvatarFallback"
             "bg-gradient-to-br from-blue-500 to-indigo-600 text-white" []
             [Text (initials u)]]]];
    El "DropdownMenuContent" dropdownBase
       [prop "align" "end"; flag "forceMount"] [
      El "div" "flex flex-col space-y-1 p-2" [] [
        El "p" "text-sm font-medium leading-none text-white" []
           [Text (user_name u)];
        El "p" "text-xs leading-none text-zinc-400" [] [Text (user_email u)]];
      El "DropdownMenuSeparator" "bg-zinc-800" [] [];
      El "DropdownMenuItem" "text-white hover:bg-zinc-800 cursor-pointer"
         [onClick logout] [
        El "LogOut" "mr-2 h-4 w-4" [] [];
        El "span" "" [] [Text (lit "Log out")]]]].

Definition ContactButton (type value : jsstring) : Node :=
  El "Button" "p-1 h-6 w-6 text-zinc-400 hover:text-white"
     [prop "size" "sm"; prop "variant" "ghost";
      onClick (contactClick type value); title_ (getTitle type value)]
     [El (getIcon type) "w-3 h-3" [] []].

Definition renderFieldValue (field : SupplierField) : Node :=
  match field_type field with
  | badge =>
      if str_eqb (field_value field) (lit "N/A")
      then El "span" "text-sm text-zinc-400" [] [Text (lit "N/A")]
      else
        El "div" "flex flex-wrap gap-1" []
           (mapi (fun item index =>
                    El "Badge"
                       "text-xs bg-zinc-800 text-zinc-300 border-zinc-700"
                       [key_ (Number_toString index);
                        prop "variant" "secondary"]
                       [Text (trim item)])
                 (split (field_value field) 44%N))
  | rating =>
      if str_eqb (field_value field) (lit "N/A")
      then El "span" "text-sm text-zinc-400" [] [Text (lit "N/A")]
      else
        El "div" "flex items-center space-x-1" [] [
          El "Star" "w-3 h-3 fill-yellow-500 text-yellow-500" [] [];
          El "span" "text-sm font-medium" [] [Text (field_value field)]]
  | location =>
      El "div" "flex items-center space-x-1" [] [
        El "MapPin" "w-3 h-3 text-zinc-400" [] [];
        El "span" "text-sm" [] [Text (field_value field)]]
  | time =>
      El "div" "flex items-center space-x-1" [] [
        El "Clock" "w-3 h-3 text-zinc-400" [] [];
        El "span" "text-sm" [] [Text (field_value field)]]
  | price =>
      El "span" "text-sm font-medium text-green-400" []
         [Text (field_value field)]
  | text => El "span" "text-sm" [] [Text (field_value field)]
  end.

(** [fields.find((f) => f.label === name)]. *)
Definition find_field (name : string) (fields : list SupplierField)
  : option SupplierField :=
  find (fun f => str_eqb (field_label f) (lit name)) fields.

Definition is_contact_field (f : SupplierField) : bool :=
  str_eqb (field_label f) (lit "Email")
  || str_eqb (field_label f) (lit "Phone")
  || str_eqb (field_label f) (lit "Website").

Definition named_labels : list string :=
  ["Location"; "Rating"; "Price Range"; "Lead Time"; "Response Time";
   "Email"; "Phone"; "Website"]%string.

Definition is_other_field (f : SupplierField) : bool :=
  negb (existsb (fun l => str_eqb (lit l) (field_label f)) named_labels).

(** A row of a card with a clock: Lead Time and Response Time. *)
Definition timed_row (name : string) (fields : list SupplierField) : Node :=
  match find_field name fields with
  | Some f =>
      El "div" "flex items-center justify-between" [] [
        El "span" "text-xs md:text-sm text-zinc-400" [] [Text (lit name)];
        El "div" "flex items-center gap-1" [] [
          El "Clock" "w-3 h-3 text-zinc-400" [] [];
          El "span" "text-xs md:text-sm text-white" []
             [Text (field_value f)]]]
  | None => Null
  end.

Definition SupplierCard (supplier : Supplier) : Node :=
  let fields := supplier_fields supplier in
  El "Card"
     "bg-zinc-900 border-zinc-700 hover:border-zinc-600 transition-all duration-200 hover:shadow-lg"
     [key_ (supplier_id supplier)] [
    El "CardHeader" "pb-2 md:pb-3" [] [
      El "div" "flex items-start justify-between" [] [
        El "div" "flex-1" [] [
          El "CardTitle"
             "text-sm md:text-base font-semibold text-white mb-1 leading-tight"
             [] [Text (supplier_name supplier)];
          match find_field "Location" fields with
          | Some f =>
              El "div" "flex items-center gap-1 text-xs md:text-sm text-zinc-400"
                 [] [
                El "MapPin" "w-3 h-3" [] [];
                El "span" "truncate" [] [Text (field_value f)]]
          | None => Null
          end];
        match find_field "Rating" fields with
        | Some f =>
            El "div" "flex items-center gap-1 bg-zinc-800 px-2 py-1 rounded-lg ml-2"
               [] [
              El "Star" "w-3 h-3 fill-yellow-500 text-yellow-500" [] [];
              El "span" "text-xs md:text-sm font-medium text-white" []
                 [Text (field_value f)]]
        | None => Null
        end]];
    El "CardContent" "space-y-2 md:space-y-3 pt-0" []
       ([match find_field "Price Range" fields with
         | Some f =>
             El "div" "flex items-center justify-between" [] [
               El "span" "text-xs md:text-sm text-zinc-400" []
                  [Text (lit "Price Range")];
               El "span"
                  "text-xs md:text-sm font-medium text-green-400 truncate ml-2"
                  [] [Text (field_value f)]]
         | None => Null
         end;
         timed_row "Lead Time" fields;
         timed_row "Response Time" fields;
         El "div" "grid grid-cols-1 gap-2 pt-2 border-t border-zinc-800" []
            (mapi (fun field index =>
                     El "div" "flex items-center justify-between text-xs"
                        [key_ (Number_toString index)] [
                       El "span" "text-zinc-400 capitalize" []
                          [Text (field_label field); Text (lit ":")];
                       El "div" "flex items-center gap-1" [] [
                         El "span" "text-white truncate max-w-20" []
                            [Text (field_value field)];
                         ContactButton (toLowerCase (field_label field))
                                       (field_value field)]])
                  (filter is_contact_field fields))]
        ++ mapi (fun field index =>
                   El "div" "space-y-1" [key_ (Number_toString index)] [
                     El "div" "flex items-center justify-between" [] [
                       El "span" "text-xs md:text-sm font-medium text-zinc-300"
                          [] [Text (field_label field); Text (lit ":")]];
                     El "div" "pl-0" [] [renderFieldValue field]])
                (filter is_other_field fields))].

(** The block under [{/* Supplier Results Section */}]. *)
Definition SupplierSection (message : Message) : Node :=
  match message_suppliers message with
  | Some suppliers =>
      if 0 <? length suppliers then
        El "div" "mt-4 w-full max-w-full" [] [
          El "div" "flex items-center gap-3 mb-4 md:mb-6" [] [
            El "div" "p-2 bg-zinc-800 rounded-lg" [] [
              El "Building" "w-4 h-4 md:w-5 md:h-5 text-white" [] []];
            El "div" "" [] [
              El "h3" "text-lg md:text-xl font-semibold text-white" []
                 [Text (lit "Top Supplier Matches")];
              El "p" "text-xs md:text-sm text-zinc-400" []
                 [Text (lit "Found ");
                  Text (Number_toString (length suppliers));
                  Text (lit " suppliers matching your criteria")]]];
          El "div"
             "grid grid-cols-1 md:grid-cols-2 lg:grid-cols-3 xl:grid-cols-4 gap-3 md:gap-4"
             [] (map SupplierCard suppliers)]
      else Null
  | None => Null
  end.

(** [const filteredChats = chats.filter(chat =>
      chat.title.toLowerCase().includes(search.toLowerCase()))]. *)
Definition filteredChats (p : ChatPageProps) : list Chat :=
  filter (fun chat =>
            includes (toLowerCase (chat_title chat)) (toLowerCase (search p)))
         (chats p).

(** [chats.find(c => c.id === activeChat)?.title]. *)
Definition activeChatTitle (p : ChatPageProps) : option jsstring :=
  option_map chat_title
             (find (fun c => null_eqb (activeChat p) (chat_id c)) (chats p)).

Definition Header (c : Ctx) : Node :=
  let p := props c in
  El "header"
     "flex items-center justify-between px-4 md:px-8 py-4 bg-zinc-900 border-b border-zinc-800"
     [] [
    El "div" "flex items-center space-x-3" [] [
      if isMobile c then
        El "Button" "md:hidden"
           [prop "size" "icon"; prop "variant" "ghost"; onClick toggleSidebar]
           [El "Menu" "h-5 w-5" [] []]
      else Null;
      El "button" "focus:outline-none"
         [onClick goLanding; prop "aria-label" "Go to home page";
          prop "type" "button"]
         [LogoImage "h-6 md:h-8 w-auto cursor-pointer"]];
    El "div" "flex items-center space-x-2 md:space-x-4" [] [
      if isMobile c && null_truthy (activeChat p) then
        El "h1" "text-sm md:text-xl font-semibold truncate max-w-32" []
           [Text (null_or_else (activeChatTitle p) (lit "Chat"))]
      else Null;
      UserAvatarDropdown (user p)]].

(** The text field a row shows in place of the title of the chat being
    renamed. *)
Definition RenameInput (c : Ctx) (chat : Chat) : Node :=
  El "input"
     "font-medium text-sm truncate text-white bg-zinc-800 border border-zinc-700 rounded px-2 py-1 w-32 outline-none"
     [ref renameInputRef; value_ (renameValue (props c));
      onChange renameChange; onBlur (renameSave (chat_id chat));
      onKeyDown (renameKeyDown (chat_id chat)); flag "autoFocus";
      onClick stopPropagation] [].

(** One row of the chat list. *)
Definition ChatRow (c : Ctx) (chat : Chat) : Node :=
  let p := props c in
  El "div"
     ("mb-2 rounded-xl px-3 py-3 cursor-pointer transition-colors "
      ++ (if null_eqb (activeChat p) (chat_id chat) then "bg-zinc-800"
          else "hover:bg-zinc-800/70"))
     [key_ (chat_id chat); onClick (mobileChatSelect (chat_id chat))] [
    El "div" "flex items-center justify-between" [] [
      El "div" "flex items-center space-x-2" [] [
        if null_eqb (renamingChatId p) (chat_id chat) then RenameInput c chat
        else
          El "div" "flex items-center group/chat-title" [] [
            El "span"
               "font-medium text-sm truncate text-white group-hover:text-white cursor-pointer"
               [onClick (startRename chat); title_ (lit "Click to rename")]
               [Text (chat_title chat)];
            El "button"
               "ml-1 opacity-0 group-hover/chat-title:opacity-100 text-zinc-400 hover:text-white transition"
               [onClick (startRename chat); prop "tabIndex" "-1";
                title_ (lit "Rename")]
               [El "svg" "h-3 w-3" [] []]]];
      El "span" "text-xs text-zinc-400" []
         [Text (Number_toString (length (chat_messages chat)));
          Text (lit " messages")]]].

(** The [CHATS] tab with its count badge. *)
Definition ChatsTab (c : Ctx) : Node :=
  El "div" "flex items-center px-4 md:px-6 space-x-2 mb-3" [] [
    El "Button"
       "bg-zinc-800 text-white rounded-full px-4 py-1 text-xs font-semibold"
       [prop "size" "sm"] [
      Text (lit "CHATS ");
      El "span" "ml-2 bg-zinc-800 rounded px-2" []
         [Text (Number_toString (length (chats (props c))))]]].

(** The block under [{/* Chat List */}]. *)
Definition ChatList (c : Ctx) : Node :=
  El "div" "flex-1 overflow-y-auto px-3 pb-4" []
     (map (ChatRow c) (filteredChats (props c))).

Definition Sidebar (c : Ctx) : Node :=
  let p := props c in
  El "aside"
     (String "010"%char "          "
      ++ (if isMobile c then
            "fixed left-0 top-0 h-full w-80 bg-zinc-900 border-r border-zinc-800 z-50 transform transition-transform duration-300 ease-in-out "
            ++ (if sidebarOpen c then "translate-x-0" else "-translate-x-full")
          else "w-[340px] bg-zinc-900 border-r border-zinc-800")
      ++ " flex flex-col"
      ++ String "010"%char "        ")
     [] [
    if isMobile c then
      El "div" "flex items-center justify-between px-4 py-4 border-b border-zinc-800"
         [] [
        El "h2" "text-lg font-semibold" [] [Text (lit "My Chats")];
        El "Button" "" [prop "size" "icon"; prop "variant" "ghost";
                        onClick closeSidebar]
           [El "X" "h-5 w-5" [] []]]
    else Null;
    if negb (isMobile c) then
      El "div" "flex items-center justify-between px-6 py-5" [] [
        El "h2" "text-lg font-semibold" [] [Text (lit "My Chats")];
        El "div" "flex items-center space-x-2" [] [
          El "Button"
             "bg-zinc-800 rounded-full p-0 w-8 h-8 flex items-center justify-center text-white"
             [prop "size" "icon"; onClick createNewChat]
             [El "Plus" "w-4 h-4 text-white" [] []]]]
    else Null;
    if isMobile c then
      El "div" "px-4 py-2" [] [
        El "Button"
           "w-full bg-zinc-800 text-white rounded-lg flex items-center justify-center space-x-2"
           [onClick mobileNewChat] [
          El "Plus" "w-4 h-4" [] [];
          El "span" "" [] [Text (lit "New Chat")]]]
    else Null;
    ChatsTab c;
    El "div" "flex items-center px-4 md:px-6 mb-3 space-x-2" [] [
      El "div" "flex-1 relative" [] [
        El "input"
           "w-full bg-zinc-800 text-white rounded-lg px-3 py-2 text-sm border-none outline-none placeholder-zinc-400"
           [placeholder (lit "Search..."); value_ (search p);
            onChange searchChange] []];
      El "Button"
         "bg-zinc-800 rounded-lg p-0 w-8 h-8 flex items-center justify-center text-white"
         [prop "size" "icon"]
         [El "svg" "h-4 w-4 text-white" [] []]];
    ChatList c].

(** The round avatar with the robot icon, before an assistant message and
    before the typing indicator. *)
Definition AssistantAvatar : Node :=
  El "div" "flex-shrink-0 mr-2 md:mr-3 flex items-start" [] [
    El "div"
       "w-8 h-8 md:w-10 md:h-10 rounded-full bg-gradient-to-br from-emerald-500 to-teal-600 flex items-center justify-center border border-zinc-700 shadow-md"
       [] [El "svg" "w-4 h-4 md:w-6 md:h-6 text-white" [] []]].

Definition is_user (message : Message) : bool :=
  str_eqb (message_type message) (lit "user").

Definition message_key (message : Message) (idx : nat) : jsstring :=
  message_id message ++ lit "_" ++ message_type message ++ lit "_"
  ++ null_or_else (option_map Date_toString (message_timestamp message)) []
  ++ lit "_" ++ Number_toString idx.

Definition MessageRow (c : Ctx) (message : Message) (idx : nat) : Node :=
  El "div"
     ("mb-4 md:mb-6 flex "
      ++ (if is_user message then "justify-end" else "justify-start"))
     [key_ (message_key message idx)] [
    if negb (is_user message) then AssistantAvatar else Null;
    El "div"
       ("flex flex-col "
        ++ (if is_user message then "items-end max-w-xs md:max-w-xl"
            else "items-start max-w-full"))
       [] [
      El "div"
         ("rounded-2xl px-3 md:px-5 py-3 md:py-4 text-sm md:text-base shadow-lg transition-colors duration-150 "
          ++ (if is_user message then
                "bg-gradient-to-br from-blue-500 to-indigo-600 text-white self-end border border-blue-700 hover:shadow-blue-700/30"
              else
                "bg-gradient-to-br from-zinc-800 to-zinc-900 text-white self-start border border-zinc-700 hover:shadow-black/20")
          ++ " hover:brightness-105")
         [] [Text (message_content message)];
      SupplierSection message];
    if is_user message then
      El "div" "flex-shrink-0 ml-2 md:ml-3 flex items-start" [] [
        El "div"
           "w-8 h-8 md:w-10 md:h-10 rounded-full bg-gradient-to-br from-blue-500 to-indigo-600 flex items-center justify-center border border-blue-700 shadow-md"
           [] [Text (initials (user (props c)))]]
    else Null].

Definition TypingRow : Node :=
  El "div" "mb-4 md:mb-6 flex justify-start" [] [
    AssistantAvatar;
    El "div" "flex flex-col items-start max-w-full" [] [
      El "div"
         "rounded-2xl px-3 md:px-5 py-3 md:py-4 text-sm md:text-base shadow-lg transition-colors duration-150 bg-gradient-to-br from-zinc-800 to-zinc-900 text-white self-start border border-zinc-700 hover:shadow-black/20 hover:brightness-105"
         [] [TypingIndicator]]].

(** The block under [{/* Messages Area */}]. *)
Definition MessagesArea (c : Ctx) : Node :=
  let p := props c in
  El "div" "flex-1 flex flex-col px-4 md:px-8 py-4 md:py-6 overflow-y-auto" [] [
    if length (messages p) =? 0 then
      El "div"
         "flex flex-col items-center justify-center h-full text-center text-zinc-400"
         [] [Text (lit "No messages yet.")]
    else
      Frag (mapi (MessageRow c) (messages p)
            ++ [if isAssistantTyping p then TypingRow else Null;
                El "div" "" [ref messagesEndRef] []])].

Definition MessageInput (c : Ctx) : Node :=
  let p := props c in
  El "input"
     ("flex-1 h-10 md:h-12 bg-zinc-800 border-none rounded-lg px-3 md:px-4 text-sm md:text-base text-white placeholder-zinc-400 outline-none "
      ++ (if isAssistantTyping p then "opacity-50 cursor-not-allowed" else ""))
     [ref inputRef;
      placeholder (if isAssistantTyping p then lit "Assistant is typing..."
                   else lit "Ask questions, or type '/' for commands");
      value_ (currentMessage p);
      onChange messageChange;
      onKeyDown inputKeyDown;
      disabled (isAssistantTyping p)] [].

Definition MicButton (c : Ctx) : Node :=
  let p := props c in
  let sp := speech c in
  El "Button"
     ("bg-zinc-800 rounded-lg p-0 w-10 h-10 md:w-12 md:h-12 flex items-center justify-center text-white "
      ++ (if isRecording sp then "animate-pulse bg-blue-700" else "")
      ++ " "
      ++ (if isAssistantTyping p then "opacity-50 cursor-not-allowed" else ""))
     [prop "size" "icon";
      onClick (if isRecording sp then stopListeningH else startListeningH);
      prop "type" "button";
      title_ (if isRecording sp then lit "Stop recording"
              else lit "Start voice input");
      disabled (negb (isSupported sp) || isAssistantTyping p)]
     [El "Mic"
         ("w-4 h-4 md:w-5 md:h-5 "
          ++ (if isRecording sp then "text-blue-400" else "text-white"))
         [] []].

Definition SendButton (c : Ctx) : Node :=
  let p := props c in
  El "Button"
     ("bg-zinc-800 rounded-lg p-0 w-10 h-10 md:w-12 md:h-12 flex items-center justify-center text-white "
      ++ (if isAssistantTyping p then "opacity-50 cursor-not-allowed" else ""))
     [prop "size" "icon";
      onClick sendMessage;
      disabled (isAssistantTyping p || negb (truthy (trim (currentMessage p))))]
     [El "Send" "w-4 h-4 md:w-5 md:h-5 text-white" [] []].

(** The two conditional lines under the input controls. *)
Definition UnsupportedNotice (c : Ctx) : Node :=
  if negb (isSupported (speech c)) then
    El "div" "text-xs text-red-400 mt-2" []
       [Text (lit "Voice input is not supported in this browser.")]
  else Null.

Definition SpeechErrorNotice (c : Ctx) : Node :=
  match error (speech c) with
  | Some speechError =>
      if truthy speechError then
        El "div" "text-xs text-red-400 mt-2" [] [Text speechError]
      else Null
  | None => Null
  end.

Definition InputControls (c : Ctx) : Node :=
  El "div" "flex items-center space-x-2 md:space-x-3" [] [
    MessageInput c; MicButton c; SendButton c].

(** The block under [{/* Input Bar */}]. *)
Definition InputBar (c : Ctx) : Node :=
  El "div" "px-4 md:px-8 py-4 md:py-6 border-t border-zinc-800 bg-zinc-900" [] [
    InputControls c;
    UnsupportedNotice c;
    SpeechErrorNotice c].

Definition MainArea (c : Ctx) : Node :=
  let p := props c in
  El "main" "flex-1 flex flex-col bg-zinc-950" [] [
    if negb (isMobile c) then
      El "div" "flex items-center justify-between px-8 py-6 border-b border-zinc-800"
         [] [
        El "h1" "text-xl font-semibold" []
           [Text (null_or_else (activeChatTitle p) (lit "Select a chat"))]]
    else Null;
    MessagesArea c;
    InputBar c].

(** The mobile overlay, the sidebar and the main area, under the header. *)
Definition Body (c : Ctx) : Node :=
  El "div" "flex flex-1 min-h-0 relative" [] [
    if isMobile c && sidebarOpen c then
      El "div" "fixed inset-0 bg-black bg-opacity-50 z-40"
         [onClick closeSidebar] []
    else Null;
    Sidebar c;
    MainArea c].

(** What [ChatPage] returns. *)
Definition ChatPage (c : Ctx) : Node :=
  El "div" "flex flex-col h-screen bg-zinc-950 text-white" [] [
    Header c; Body c].

(* ------------------------------------------------------------------ *)
(** *** Event handlers *)

Definition handleMobileChatSelect (c : Ctx) (chatId : jsstring) : Eff unit :=
  perform (Call_onChatSelect chatId) ;;;
  if isMobile c then perform (Call_setSidebarOpen false) else ret tt.

(** The body of each handler, run in the [Ctx] of the render that created
    it.  The callback props are the parent's functions: a call is recorded
    and returns. *)
Definition run_handler (c : Ctx) (h : Handler) (e : DomEvent) : Eff unit :=
  match h with
  | toggleSidebar => perform (Call_setSidebarOpen (negb (sidebarOpen c)))
  | goLanding => perform (Call_onViewChange view_landing)
  | closeSidebar => perform (Call_setSidebarOpen false)
  | logout => perform Call_onLogout
  | createNewChat => perform Call_onCreateNewChat
  | mobileNewChat =>
      perform Call_onCreateNewChat ;;; perform (Call_setSidebarOpen false)
  | searchChange => perform (Call_onSearchChange (target_value e))
  | mobileChatSelect chatId => handleMobileChatSelect c chatId
  | renameChange => perform (Call_onRenameChange (target_value e))
  | renameSave chatId => perform (Call_onRenameSave chatId)
  | renameKeyDown chatId => perform (Call_onRenameKeyDown e chatId)
  | stopPropagation => perform StopPropagation
  | startRename chat =>
      perform StopPropagation ;;; perform (Call_onStartRename chat)
  | messageChange => perform (Call_onMessageChange (target_value e))
  | inputKeyDown =>
      if str_eqb (key e) (lit "Enter") && negb (isAssistantTyping (props c))
      then perform Call_onSendMessage
      else ret tt
  | startListeningH => perform Call_startListening
  | stopListeningH => perform Call_stopListening
  | sendMessage => perform Call_onSendMessage
  | contactClick type value => handleClick window_open_throws type value
  end.

Inductive EventKind := click | change | keydown | blur.

Definition handlers_of (k : EventKind) (n : Node) : list Handler :=
  flat_map (fun a =>
              match k, a with
              | click, onClick h
              | change, onChange h
              | keydown, onKeyDown h
              | blur, onBlur h => [h]
              | _, _ => []
              end) (attrs_of n).

(** A user event of kind [k] on the element [n].  A disabled control
    receives no events. *)
Definition fire (c : Ctx) (n : Node) (k : EventKind) (e : DomEvent)
  : list Effect :=
  if is_disabled n then []
  else flat_map (fun h => effects (run_handler c h e)) (handlers_of k n).

(* ------------------------------------------------------------------ *)
(** *** The [useEffect] hooks *)

(** The six effects, in source order. *)
Inductive EffectId :=
| effect_transcript      (* lines 354-358 *)
| effect_clearTranscript (* lines 361-365 *)
| effect_recordingEnded  (* lines 368-375 *)
| effect_scroll          (* lines 377-381 *)
| effect_renameFocus     (* lines 383-387 *)
| effect_outsideClick.   (* lines 401-407 *)

Definition all_effects : list EffectId :=
  [effect_transcript; effect_clearTranscript; effect_recordingEnded;
   effect_scroll; effect_renameFocus; effect_outsideClick].

(** A value in a dependency array. *)
Inductive DepVal :=
| dep_string (s : jsstring)
| dep_bool (b : bool)
| dep_null
| dep_object (identity : N).

Definition dep_of_null (o : option jsstring) : DepVal :=
  match o with
  | Some s => dep_string s
  | None => dep_null
  end.

Definition Object_is (a b : DepVal) : bool :=
  match a, b with
  | dep_string s, dep_string t => str_eqb s t
  | dep_bool x, dep_bool y => Bool.eqb x y
  | dep_null, dep_null => true
  | dep_object i, dep_object j => N.eqb i j
  | _, _ => false
  end.

Definition deps (i : EffectId) (c : Ctx) : list DepVal :=
  let p := props c in
  let sp := speech c in
  match i with
  | effect_transcript =>
      [dep_string (transcript sp); dep_bool (isRecording sp);
       dep_bool (isAssistantTyping p); dep_object (onMessageChange p)]
  | effect_clearTranscript =>
      [dep_string (currentMessage p); dep_bool (isRecording sp);
       dep_object (setTranscript sp)]
  | effect_recordingEnded =>
      [dep_bool (isRecording sp); dep_string (transcript sp);
       dep_bool (isAssistantTyping p); dep_object (onMessageChange p)]
  | effect_scroll =>
      [dep_object (messages_identity c); dep_of_null (activeChat p);
       dep_bool (isAssistantTyping p)]
  | effect_renameFocus => [dep_of_null (renamingChatId p)]
  | effect_outsideClick => [dep_bool (isMobile c); dep_bool (sidebarOpen c)]
  end.

Fixpoint same_deps (a b : list DepVal) : bool :=
  match a, b with
  | [], [] => true
  | x :: a', y :: b' => Object_is x y && same_deps a' b'
  | _, _ => false
  end.

(** An effect runs after the first render, and after a later render when
    some dependency differs from the previous render's. *)
Definition scheduled (prev : option Ctx) (cur : Ctx) (i : EffectId) : bool :=
  match prev with
  | None => true
  | Some c0 => negb (same_deps (deps i c0) (deps i cur))
  end.

(** [r.current] is set once an element carrying [ref={r}] is committed. *)
Definition ref_current (r : RefName) (c : Ctx) : bool :=
  existsb (has_ref r) (nodes (ChatPage c)).

Definition effect_body (i : EffectId) (c : Ctx) : Eff unit :=
  let p := props c in
  let sp := speech c in
  match i with
  | effect_transcript =>
      if isRecording sp && negb (isAssistantTyping p)
      then perform (Call_onMessageChange (transcript sp))
      else ret tt
  | effect_clearTranscript =>
      if negb (truthy (currentMessage p)) && negb (isRecording sp)
      then perform (Call_setTranscript [])
      else ret tt
  | effect_recordingEnded =>
      if negb (isRecording sp) && truthy (transcript sp)
         && negb (isAssistantTyping p)
      then
        perform (Call_onMessageChange (transcript sp)) ;;;
        if ref_current inputRef c then perform (Focus inputRef) else ret tt
      else ret tt
  | effect_scroll =>
      if ref_current messagesEndRef c
      then perform (ScrollIntoView messagesEndRef)
      else ret tt
  | effect_renameFocus =>
      if null_truthy (renamingChatId p) && ref_current renameInputRef c
      then perform (Focus renameInputRef)
      else ret tt
  | effect_outsideClick =>
      if isMobile c && sidebarOpen c
      then perform AddDocumentClickListener
      else ret tt
  end.

(** The clean-up function the previous run of an effect returned. *)
Definition effect_cleanup (i : EffectId) (c0 : Ctx) : list Effect :=
  match i with
  | effect_outsideClick =>
      if isMobile c0 && sidebarOpen c0 then [RemoveDocumentClickListener]
      else []
  | _ => []
  end.

(** The commit after a render: clean-ups of the effects that run again, then
    the effects, in source order. *)
Definition commit_effects (prev : option Ctx) (cur : Ctx) : list Effect :=
  let run := filter (scheduled prev cur) all_effects in
  match prev with
  | Some c0 => flat_map (fun i => effect_cleanup i c0) run
  | None => []
  end
  ++ flat_map (fun i => effects (effect_body i cur)) run.

(* ------------------------------------------------------------------ *)
(** *** A click, from its target to the document *)

Definition is_StopPropagation (x : Effect) : bool :=
  match x with StopPropagation => true | _ => false end.

(** The state of the [sidebarOpen] cell after the setter calls in [l]. *)
Fixpoint apply_setSidebarOpen (l : list Effect) (b : bool) : bool :=
  match l with
  | [] => b
  | Call_setSidebarOpen b' :: r => apply_setSidebarOpen r b'
  | _ :: r => apply_setSidebarOpen r b
  end.

(** The handlers React calls for an event of kind [k] whose target is the
    head of [path], the rest of [path] being the ancestors of the target up
    to the root: those of each element in turn, until one of them stops
    the propagation. *)
Fixpoint handlers_run (c : Ctx) (path : list Node) (k : EventKind)
         (e : DomEvent) : list Effect :=
  match path with
  | [] => []
  | n :: up =>
      let l := fire c n k e in
      if existsb is_StopPropagation l then l else l ++ handlers_run c up k e
  end.

(** What the component leaves to the page that mounts it and to React:
    whether the container React listens on is the document itself, and
    whether the state updates made by a click's handlers are rendered and
    committed, effects and clean-ups included, before the click gets to the
    listeners of the document. *)
Record Host := {
  root_is_document : bool;
  flushes_in_event : bool
}.

(** [handleOutsideClick], line 403. *)
Definition handleOutsideClick : list Effect := [Call_setSidebarOpen false].

(** The listener [effect_outsideClick] puts on the document, for a click
    whose handlers performed [l] on the committed render [c].  The commit of
    [c] registered it when [isMobile && sidebarOpen]; a commit within the
    event removes it when [sidebarOpen] changed, and registers a new one
    when the sidebar is then open on a mobile view.  The component is taken
    to stay mounted and [isMobile] to keep its value during the click.
    - Container below the document: the click gets to the document unless
      a handler stopped it, and the listener registered at that moment
      runs.
    - Container on the document: the listener is on the same node as
      React's, which a stopped propagation does not hide; it runs when it
      was registered as the click arrived and has not been removed
      since. *)
Definition document_click (h : Host) (c : Ctx) (l : list Effect)
  : list Effect :=
  let was_open := sidebarOpen c in
  let is_open := apply_setSidebarOpen l was_open in
  let heard :=
    if root_is_document h
    then isMobile c && was_open
         && negb (flushes_in_event h && negb (Bool.eqb is_open was_open))
    else negb (existsb is_StopPropagation l)
         && isMobile c
         && (if flushes_in_event h then is_open else was_open) in
  if heard then handleOutsideClick else [].

(** All that an event does: React's handlers, then, for a click, the
    document listener. *)
Definition bubble (h : Host) (c : Ctx) (path : list Node) (k : EventKind)
           (e : DomEvent) : list Effect :=
  let l := handlers_run c path k e in
  l ++ match k with
       | click => document_click h c l
       | _ => []
       end.

(* ------------------------------------------------------------------ *)
(** *** The store, passed explicitly *)

(** The store: what the parent owns ([st_props], [st_messages_identity]),
    what the hooks hold for this instance, and a log of the calls made. *)
Record Store := {
  st_props : ChatPageProps;
  st_messages_identity : N;
  st_isMobile : bool;
  st_speech : SpeechToText;
  st_sidebarOpen : bool;          (* the [useState(false)] cell *)
  st_committed : option Ctx;      (* the previous committed render *)
  st_log : list Effect
}.

Definition ctx_of (s : Store) : Ctx :=
  {| props := st_props s;
     isMobile := st_isMobile s;
     sidebarOpen := st_sidebarOpen s;
     speech := st_speech s;
     messages_identity := st_messages_identity s |}.

Definition performed (l : list Effect) (s : Store) : Store :=
  {| st_props := st_props s;
     st_messages_identity := st_messages_identity s;
     st_isMobile := st_isMobile s;
     st_speech := st_speech s;
     st_sidebarOpen := apply_setSidebarOpen l (st_sidebarOpen s);
     st_committed := st_committed s;
     st_log := st_log s ++ l |}.

(** The commit that follows a render: the scheduled effects run. *)
Definition commit_phase (s : Store) : Store :=
  let c := ctx_of s in
  let s' := performed (commit_effects (st_committed s) c) s in
  {| st_props := st_props s';
     st_messages_identity := st_messages_identity s';
     st_isMobile := st_isMobile s';
     st_speech := st_speech s';
     st_sidebarOpen := st_sidebarOpen s';
     st_committed := Some c;
     st_log := st_log s' |}.

(** Each element of the list is a child of the next one. *)
Fixpoint is_path (path : list Node) : Prop :=
  match path with
  | [] => True
  | n :: up =>
      match up with
      | [] => True
      | parent :: _ => In n (children_of parent)
      end /\ is_path up
  end.

(** From the row of a listed chat up to the root. *)
Definition chat_row_path (c : Ctx) (chat : Chat) : list Node :=
  [ChatRow c chat; ChatList c; Sidebar c; Body c; ChatPage c].

(** From a control of the input bar up to the root. *)
Definition input_control_path (c : Ctx) (control : Node) : list Node :=
  [control; InputControls c; InputBar c; MainArea c; Body c; ChatPage c].

(** The three controls of the input bar. *)
Definition input_controls (c : Ctx) : list Node :=
  [MessageInput c; MicButton c; SendButton c].

End Component.

(* ================================================================== *)
(** ** Vocabulary of the properties *)

(** No node of the tree satisfies [P]. *)
Definition clean (P : Node -> bool) (n : Node) : Prop :=
  forall m, In m (nodes n) -> P m = false.

(** The nodes of a tree that satisfy [P], in document order. *)
Definition select (P : Node -> bool) (n : Node) : list Node :=
  filter P (nodes n).

(** An element styled as an error message: the component's only use of the
    red text class. *)
Definition is_error_notice (n : Node) : bool := has_class "text-red-400" n.

(** The supplier cards a message calls for: one per supplier, in order. *)
Definition cards_of_message (card : Supplier -> Node) (message : Message)
  : list Node :=
  match message_suppliers message with
  | Some suppliers => map card suppliers
  | None => []
  end.

(** A row of the chat list: the element whose click selects a chat. *)
Definition is_chat_row (n : Node) : bool :=
  existsb (fun h => match h with mobileChatSelect _ => true | _ => false end)
          (onClick_of n).

(** An element whose click handler stops the propagation of the click. *)
Definition stops_click (n : Node) : bool :=
  existsb (fun h => match h with
                    | stopPropagation | startRename _ => true
                    | _ => false
                    end) (onClick_of n).

Definition tag_of (n : Node) : string :=
  match n with
  | El t _ _ _ => t
  | _ => EmptyString
  end.

(** [l1] is [l2] with some elements left out, the order kept. *)
Inductive subsequence {A : Type} : list A -> list A -> Prop :=
| subsequence_nil : subsequence [] []
| subsequence_keep x l1 l2 : subsequence l1 l2 -> subsequence (x :: l1) (x :: l2)
| subsequence_skip x l1 l2 : subsequence l1 l2 -> subsequence l1 (x :: l2).

(** The props [p] with other values in the two rename fields. *)
Definition with_rename (p : ChatPageProps) (id : option jsstring)
           (v : jsstring) : ChatPageProps :=
  {| user := user p; chats := chats p; activeChat := activeChat p;
     messages := messages p; currentMessage := currentMessage p;
     search := search p; isAssistantTyping := isAssistantTyping p;
     renamingChatId := id; renameValue := v;
     onViewChange := onViewChange p; onLogout := onLogout p;
     onChatSelect := onChatSelect p; onCreateNewChat := onCreateNewChat p;
     onSendMessage := onSendMessage p; onMessageChange := onMessageChange p;
     onSearchChange := onSearchChange p; onStartRename := onStartRename p;
     onRenameChange := onRenameChange p; onRenameSave := onRenameSave p;
     onRenameKeyDown := onRenameKeyDown p;
     setRenamingChatId := setRenamingChatId p |}.

(** The render context [c] with other props and all hook values kept. *)
Definition with_props (c : Ctx) (p : ChatPageProps) : Ctx :=
  {| props := p; isMobile := isMobile c; sidebarOpen := sidebarOpen c;
     speech := speech c; messages_identity := messages_identity c |}.

(** [toLowerCase] on strings of ASCII characters, for concrete examples. *)
Definition ascii_toLowerCase (s : jsstring) : jsstring :=
  map (fun ch => if (65 <=? ch)%N && (ch <=? 90)%N then (ch + 32)%N else ch) s.

(** A [Date.prototype.toString] for concrete examples. *)
Definition sample_Date_toString (d : Date) : jsstring :=
  lit "t" ++ Number_toString (N.to_nat d).

(** Sample data: one user, two chats, one answer with two suppliers. *)
Definition sample_user : UserType :=
  {| user_name := lit "Ada Lovelace"; user_email := lit "ada@example.com";
     user_avatar := None; user_uid := lit "u1" |}.

Definition sample_suppliers : list Supplier :=
  [{| supplier_id := lit "s1"; supplier_name := lit "TechSource";
      supplier_fields :=
        [{| field_label := lit "Location"; field_value := lit "Shenzhen";
            field_type := location |};
         {| field_label := lit "Website";
            field_value := lit "http://example.com";
            field_type := text |}] |};
   {| supplier_id := lit "s2"; supplier_name := lit "Pacific";
      supplier_fields :=
        [{| field_label := lit "Email"; field_value := lit "a@b.tw";
            field_type := text |}] |}].

Definition sample_messages : list Message :=
  [{| message_id := lit "m1"; message_type := lit "user";
      message_content := lit "I need electronics manufacturers";
      message_timestamp := Some 0%N; message_suppliers := None |};
   {| message_id := lit "m2"; message_type := lit "assistant";
      message_content := lit "Here they are";
      message_timestamp := None;
      message_suppliers := Some sample_suppliers |}].

Definition sample_chats : list Chat :=
  [{| chat_id := lit "c1"; chat_title := lit "Electronics";
      chat_messages := sample_messages |};
   {| chat_id := lit "c2"; chat_title := lit "Textiles";
      chat_messages := [] |}].

(** Props over the sample data; the callbacks are twelve distinct
    functions. *)
Definition sample_props_with (current search : jsstring) (typing : bool)
  : ChatPageProps :=
  {| user := sample_user; chats := sample_chats;
     activeChat := Some (lit "c1"); messages := sample_messages;
     currentMessage := current; search := search;
     isAssistantTyping := typing;
     renamingChatId := None; renameValue := [];
     onViewChange := 1%N; onLogout := 2%N; onChatSelect := 3%N;
     onCreateNewChat := 4%N; onSendMessage := 5%N; onMessageChange := 6%N;
     onSearchChange := 7%N; onStartRename := 8%N; onRenameChange := 9%N;
     onRenameSave := 10%N; onRenameKeyDown := 11%N;
     setRenamingChatId := 12%N |}.

Definition sample_props : ChatPageProps := sample_props_with [] (lit "e") false.

Definition sample_speech_with (recording : bool) (heard : jsstring)
  : SpeechToText :=
  {| isSupported := true; isRecording := recording; transcript := heard;
     error := None; startListening := 20%N; stopListening := 21%N;
     setTranscript := 22%N |}.

Definition sample_ctx_with (p : ChatPageProps) (mobile : bool)
           (sp : SpeechToText) : Ctx :=
  {| props := p; isMobile := mobile; sidebarOpen := false;
     speech := sp; messages_identity := 30%N |}.

Definition sample_ctx : Ctx :=
  sample_ctx_with sample_props false (sample_speech_with false []).

Definition sample_store : Store :=
  {| st_props := sample_props; st_messages_identity := 30%N;
     st_isMobile := true; st_speech := sample_speech_with false [];
     st_sidebarOpen := true; st_committed := None; st_log := [] |}.

(** A host for the concrete runs: React listens on the document and
    commits within the event, as with the Next.js 15 and React 18 of the
    repository's README. *)
Definition sample_host : Host :=
  {| root_is_document := true; flushes_in_event := true |}.

(** The rename field of a row, if the row shows one. *)
Definition rename_field_of (c : Ctx) (chat : Chat) : list Node :=
  if null_eqb (renamingChatId (props c)) (chat_id chat)
  then [RenameInput c chat] else [].

(** The three contact types of [ContactButtonProps]. *)
Inductive ContactType := email | phone | website.

Definition type_name (t : ContactType) : jsstring :=
  match t with
  | email => lit "email"
  | phone => lit "phone"
  | website => lit "website"
  end.

(** The characters a phone link keeps: digits, [+], [(], [)] and [-]. *)
Definition phone_char (c : char16) : bool :=
  existsb (N.eqb c) (lit "0123456789+()-").

(* ================================================================== *)
(** ** Vocabulary of the further properties *)

(** A string of white space only, the empty string included. *)
Definition is_blank (s : jsstring) : bool := forallb isWhiteSpace s.

(** [parts.join(sep)] for a separator of one code unit. *)
Fixpoint join_with (sep : char16) (parts : list jsstring) : jsstring :=
  match parts with
  | [] => []
  | [p] => p
  | p :: rest => p ++ sep :: join_with sep rest
  end.

(** The path from [n] down through the children at the given positions,
    [n] first; it stops where a position is out of range. *)
Fixpoint path_down (n : Node) (idxs : list nat) : list Node :=
  n :: match idxs with
       | [] => []
       | i :: rest =>
           match nth_error (children_of n) i with
           | Some child => path_down child rest
           | None => []
           end
       end.

(** From an element inside the row of a chat, given by positions below the
    row, up to the root. *)
Definition within_row_path (toLowerCase : jsstring -> jsstring)
           (Date_toString : Date -> jsstring) (c : Ctx) (chat : Chat)
           (idxs : list nat) : list Node :=
  rev (path_down (ChatRow c chat) idxs)
  ++ tl (chat_row_path toLowerCase Date_toString c chat).

(** Registrations and removals of the document click listener in a log. *)
Definition listeners_added (l : list Effect) : nat :=
  length (filter (fun x => match x with
                           | AddDocumentClickListener => true
                           | _ => false
                           end) l).

Definition listeners_removed (l : list Effect) : nat :=
  length (filter (fun x => match x with
                           | RemoveDocumentClickListener => true
                           | _ => false
                           end) l).

(** Whether the render [c] asks for the document click listener. *)
Definition wants_listener (c : option Ctx) : bool :=
  match c with
  | Some c0 => isMobile c0 && sidebarOpen c0
  | None => false
  end.

(** The effects of the commits of successive renders, the first one after
    the render [prev] (or the mount when there is none). *)
Fixpoint commit_trace (toLowerCase : jsstring -> jsstring)
         (Date_toString : Date -> jsstring) (prev : option Ctx)
         (renders : list Ctx) : list Effect :=
  match renders with
  | [] => []
  | c :: rest =>
      commit_effects toLowerCase Date_toString prev c
      ++ commit_trace toLowerCase Date_toString (Some c) rest
  end.

(** The last render of a sequence, or [prev] when it is empty. *)
Definition last_render (prev : option Ctx) (renders : list Ctx)
  : option Ctx :=
  match rev renders with
  | c :: _ => Some c
  | [] => prev
  end.

(** The first code unit of each word, as [n => n[0]] then [join('')] give
    it. *)
Definition first_letters (words : list jsstring) : jsstring :=
  List.concat (map (firstn 1) words).

(** The labels a card shows in fixed places, at most once each. *)
Definition header_labels : list string :=
  ["Location"; "Rating"; "Price Range"; "Lead Time"; "Response Time"]%string.

(** Calls of [onMessageChange], resp. of [setTranscript], in a log. *)
Definition is_onMessageChange (x : Effect) : bool :=
  match x with Call_onMessageChange _ => true | _ => false end.

Definition is_setTranscript (x : Effect) : bool :=
  match x with Call_setTranscript _ => true | _ => false end.

(** Whether some listed chat is the one being renamed. *)
Definition renaming_is_listed (toLowerCase : jsstring -> jsstring)
           (p : ChatPageProps) : bool :=
  existsb (fun chat => null_eqb (renamingChatId p) (chat_id chat))
          (filteredChats toLowerCase p).

(** An element whose click creates a chat. *)
Definition offers_new_chat (n : Node) : bool :=
  existsb (fun h => match h with
                    | createNewChat | mobileNewChat => true
                    | _ => false
                    end) (onClick_of n).

(* ================================================================== *)
(** * Properties *)

(** ** Facts about the string methods *)

Section StringFacts.

Lemma str_eqb_eq (a b : jsstring) : str_eqb a b = true <-> a = b.
Proof.
  revert b; induction a as [|x a IH]; intros [|y b]; simpl;
    try (split; [discriminate | discriminate]); try tauto.
  rewrite andb_true_iff, N.eqb_eq, IH.
  split; [intros [-> ->]; reflexivity | intros [= -> ->]; auto].
Qed.

Lemma str_eqb_refl (a : jsstring) : str_eqb a a = true.
Proof. apply str_eqb_eq; reflexivity. Qed.

Lemma str_eqb_neq (a b : jsstring) : str_eqb a b = false <-> a <> b.
Proof.
  rewrite <- str_eqb_eq. destruct (str_eqb a b); split; congruence.
Qed.

Lemma startsWith_spec (s p : jsstring) :
  startsWith s p = true <-> exists r, s = p ++ r.
Proof.
  revert s; induction p as [|c p IH]; intros s; simpl.
  - split; [intros _; exists s; reflexivity | reflexivity].
  - destruct s as [|d s].
    + split; [discriminate | intros [r Hr]; discriminate].
    + rewrite andb_true_iff, N.eqb_eq, IH. split.
      * intros [-> [r ->]]. exists r; reflexivity.
      * intros [r [= -> ->]]. split; [reflexivity | exists r; reflexivity].
Qed.

Lemma includes_spec (s sub : jsstring) :
  includes s sub = true <-> exists a b, s = a ++ sub ++ b.
Proof.
  induction s as [|c s IH].
  - simpl. rewrite orb_false_r, startsWith_spec. split.
    + intros [r Hr]. exists [], r. exact Hr.
    + intros [a [b H]]. destruct a; [exists b; exact H | discriminate].
  - cbn [includes]. rewrite orb_true_iff, startsWith_spec, IH. split.
    + intros [[r Hr] | [a [b Hab]]].
      * exists [], r. exact Hr.
      * exists (c :: a), b. simpl. now rewrite Hab.
    + intros [[|x a] [b H]].
      * left. exists b. exact H.
      * right. injection H as _ H. exists a, b. exact H.
Qed.

(** Searching for a one-character string is searching for the character. *)
Lemma includes_char (s : jsstring) (c : char16) :
  includes s [c] = true <-> In c s.
Proof.
  rewrite includes_spec. split.
  - intros [a [b ->]]. apply in_or_app. right. left. reflexivity.
  - intros H. apply in_split in H. destruct H as [a [b ->]].
    exists a, b. reflexivity.
Qed.

Lemma trimStart_spec (s : jsstring) :
  exists l, s = l ++ trimStart s /\ forallb isWhiteSpace l = true /\
            match trimStart s with
            | [] => True
            | c :: _ => isWhiteSpace c = false
            end.
Proof.
  induction s as [|c s [l [H1 [H2 H3]]]]; simpl.
  - exists []. auto.
  - destruct (isWhiteSpace c) eqn:E.
    + exists (c :: l). simpl. rewrite E, H2. repeat split; auto. congruence.
    + exists []. simpl. rewrite E. auto.
Qed.

(** [trim] removes a run of white space at each end, and nothing else. *)
Lemma trim_spec (s : jsstring) :
  exists l r,
    s = l ++ trim s ++ r /\
    forallb isWhiteSpace l = true /\ forallb isWhiteSpace r = true /\
    (forall c t, trim s = c :: t -> isWhiteSpace c = false) /\
    (forall c t, trim s = t ++ [c] -> isWhiteSpace c = false).
Proof.
  unfold trim, trimEnd.
  destruct (trimStart_spec s) as [l [Hl [Wl Hfirst]]].
  destruct (trimStart_spec (rev (trimStart s))) as [r [Hr [Wr Hlast]]].
  set (m := trimStart (rev (trimStart s))) in *.
  assert (Hm : trimStart s = rev m ++ rev r).
  { rewrite <- rev_app_distr, <- Hr, rev_involutive. reflexivity. }
  exists l, (rev r). repeat split.
  - rewrite <- Hm. exact Hl.
  - exact Wl.
  - rewrite forallb_forall in *. intros x Hx. apply Wr, in_rev. exact Hx.
  - intros c t Ht. rewrite Ht in Hm. simpl in Hm. rewrite Hm in Hfirst.
    exact Hfirst.
  - intros c t Ht. apply (f_equal (@rev _)) in Ht.
    rewrite rev_involutive, rev_app_distr in Ht. simpl in Ht.
    rewrite Ht in Hlast. exact Hlast.
Qed.

End StringFacts.

(* ================================================================== *)
(** ** ContactButton: the link and the click handler *)

Section ContactButtonFacts.

Variable window_open_throws : jsstring -> jsstring -> option Exn.

Lemma replace_phone_regex_keeps (s : jsstring) :
  replace_phone_regex s = filter phone_char s.
Proof.
  unfold replace_phone_regex. apply filter_ext. intros c.
  unfold phone_regex_matches, phone_char, isDigit. rewrite negb_involutive.
  cbn [lit list_ascii_of_string map existsb N_of_ascii N_of_digits].
  cbn.
  destruct (N.leb_spec 48 c), (N.leb_spec c 57); cbn;
    repeat match goal with
      | |- context [N.eqb ?a ?b] => destruct (N.eqb_spec a b); cbn; try lia
      end; try reflexivity.
Qed.

Lemma truthy_nonempty (s : jsstring) : truthy s = true <-> s <> [].
Proof. destruct s; simpl; split; congruence. Qed.

Lemma getHref_email (value : jsstring) :
  getHref (lit "email") value =
  if includes (trim value) (lit "@") then lit "mailto:" ++ trim value
  else lit "#".
Proof. reflexivity. Qed.

Lemma getHref_phone (value : jsstring) :
  getHref (lit "phone") value =
  if truthy (replace_phone_regex (trim value))
  then lit "tel:" ++ replace_phone_regex (trim value)
  else lit "#".
Proof. reflexivity. Qed.

Lemma getHref_website (value : jsstring) :
  getHref (lit "website") value =
  if startsWith (trim value) (lit "http://")
     || startsWith (trim value) (lit "https://") then trim value
  else if includes (trim value) (lit ".") then lit "https://" ++ trim value
  else lit "#".
Proof. reflexivity. Qed.

(** Every link [getHref] computes is [#] or carries one of four schemes;
    this holds for any [type] string, the [default] branch included. *)
Lemma getHref_shape (type value : jsstring) :
  getHref type value = lit "#" \/
  (exists r, getHref type value = lit "mailto:" ++ r) \/
  (exists r, getHref type value = lit "tel:" ++ r) \/
  (exists r, getHref type value = lit "http://" ++ r) \/
  (exists r, getHref type value = lit "https://" ++ r).
Proof.
  unfold getHref.
  destruct (str_eqb type (lit "email")).
  { destruct (includes _ _); [right; left; eauto | left; reflexivity]. }
  destruct (str_eqb type (lit "phone")).
  { destruct (truthy _); [right; right; left; eauto | left; reflexivity]. }
  destruct (str_eqb type (lit "website")); [|left; reflexivity].
  destruct (startsWith (trim value) (lit "http://")) eqn:E1.
  { apply startsWith_spec in E1. right; right; right; left. exact E1. }
  destruct (startsWith (trim value) (lit "https://")) eqn:E2.
  { apply startsWith_spec in E2. right; right; right; right. exact E2. }
  cbn [orb].
  destruct (includes _ _); [right; right; right; right; eauto | left; reflexivity].
Qed.

(** C9.  [getHref] on the trimmed value [v]: for [email], [mailto:v] when
    [v] contains an at sign and [#] otherwise; for [phone], [tel:r] when [r],
    which is [v] without the characters that are not digits, [+], [(], [)]
    or [-], is not empty, and [#] otherwise; for [website], [v] itself when
    it starts with [http://] or [https://], else [https://v] when [v]
    contains a dot, else [#].  The function is total: each case names its
    result. *)
Theorem getHref_cases (value : jsstring) :
  let v := trim value in
  let r := filter phone_char v in
  let with_scheme :=
    (exists t, v = lit "http://" ++ t) \/ (exists t, v = lit "https://" ++ t) in
  (getHref (type_name email) value =
     if in_dec N.eq_dec 64%N v then lit "mailto:" ++ v else lit "#")
  /\ (getHref (type_name phone) value =
        match r with [] => lit "#" | _ :: _ => lit "tel:" ++ r end)
  /\ (with_scheme -> getHref (type_name website) value = v)
  /\ (~ with_scheme -> In 46%N v ->
      getHref (type_name website) value = lit "https://" ++ v)
  /\ (~ with_scheme -> ~ In 46%N v ->
      getHref (type_name website) value = lit "#").
Proof.
  intros v r with_scheme. subst v r with_scheme. cbn [type_name].
  rewrite getHref_email, getHref_phone, getHref_website.
  rewrite replace_phone_regex_keeps.
  change (lit "@") with [64%N]. change (lit ".") with [46%N].
  split; [|split; [|repeat split]].
  - destruct (in_dec N.eq_dec 64%N (trim value)) as [H|H];
      destruct (includes _ _) eqn:E; try reflexivity.
    + apply includes_char in H. congruence.
    + apply includes_char in E. contradiction.
  - destruct (filter phone_char (trim value)); reflexivity.
  - intros [H|H]; apply startsWith_spec in H; rewrite H;
      [reflexivity | rewrite orb_true_r; reflexivity].
  - intros Hn Hdot.
    destruct (startsWith (trim value) (lit "http://")) eqn:E1.
    { exfalso. apply Hn. left. apply startsWith_spec. exact E1. }
    destruct (startsWith (trim value) (lit "https://")) eqn:E2.
    { exfalso. apply Hn. right. apply startsWith_spec. exact E2. }
    apply includes_char in Hdot. cbn [orb].
    destruct (includes _ _) eqn:E; [reflexivity | congruence].
  - intros Hn Hdot.
    destruct (startsWith (trim value) (lit "http://")) eqn:E1.
    { exfalso. apply Hn. left. apply startsWith_spec. exact E1. }
    destruct (startsWith (trim value) (lit "https://")) eqn:E2.
    { exfalso. apply Hn. right. apply startsWith_spec. exact E2. }
    cbn [orb].
    destruct (includes _ _) eqn:E; [|reflexivity].
    apply includes_char in E. contradiction.
Qed.

(** C1, as the code has it.  For every [type] and [value] the click handler
    completes normally whatever [window.open] does; it calls [window.open]
    at most with the link [getHref] computed and the target [_blank]; it
    opens nothing when that link is [#]; and a link it opens starts with
    [mailto:], [tel:], [http://] or [https://]. *)
Theorem handleClick_opens_only_links (type value : jsstring) :
  completion (handleClick window_open_throws type value) = Normal tt
  /\ (getHref type value = lit "#" ->
      forall href target,
        ~ In (WindowOpen href target)
             (effects (handleClick window_open_throws type value)))
  /\ (forall href target,
        In (WindowOpen href target)
           (effects (handleClick window_open_throws type value)) ->
        href = getHref type value /\ target = lit "_blank" /\
        ((exists r, href = lit "mailto:" ++ r) \/
         (exists r, href = lit "tel:" ++ r) \/
         (exists r, href = lit "http://" ++ r) \/
         (exists r, href = lit "https://" ++ r))).
Proof.
  unfold handleClick, try_catch, window_open, console_error, perform, ret,
    effects, completion.
  destruct (truthy (getHref type value)
            && negb (str_eqb (getHref type value) (lit "#"))) eqn:G.
  - apply andb_true_iff in G. destruct G as [_ G].
    apply negb_true_iff, str_eqb_neq in G.
    destruct (window_open_throws (getHref type value) (lit "_blank")); cbn.
    + split; [reflexivity|]. split; [intros E; contradiction|].
      intros href target [H|[H|[]]]; [|discriminate].
      injection H as <- <-. repeat split.
      destruct (getHref_shape type value) as [E|E]; [contradiction | exact E].
    + split; [reflexivity|]. split; [intros E; contradiction|].
      intros href target [H|[]].
      injection H as <- <-. repeat split.
      destruct (getHref_shape type value) as [E|E]; [contradiction | exact E].
  - cbn. split; [reflexivity|]. split; intros; tauto.
Qed.

End ContactButtonFacts.

(* ================================================================== *)
(** ** Facts about element trees *)

Section TreeFacts.

Lemma nodes_children (n : Node) :
  nodes n = n :: flat_map nodes (children_of n).
Proof.
  destruct n as [| s | ch | t cl a ch]; cbn [nodes children_of flat_map];
    try reflexivity; f_equal; induction ch as [|x r IH]; cbn;
    try reflexivity; f_equal; exact IH.
Qed.

Lemma in_nodes_self (n : Node) : In n (nodes n).
Proof. rewrite nodes_children. left. reflexivity. Qed.

Lemma in_nodes_child (n m x : Node) :
  In m (children_of n) -> In x (nodes m) -> In x (nodes n).
Proof.
  intros Hm Hx. rewrite nodes_children. right.
  apply in_flat_map. exists m. split; assumption.
Qed.

Lemma clean_node (P : Node -> bool) (n : Node) :
  P n = false -> Forall (clean P) (children_of n) -> clean P n.
Proof.
  intros Hn Hch m Hm. rewrite nodes_children in Hm.
  destruct Hm as [<- | Hm]; [exact Hn|].
  apply in_flat_map in Hm. destruct Hm as [x [Hx Hm]].
  rewrite Forall_forall in Hch. exact (Hch x Hx m Hm).
Qed.

Lemma clean_filter (P : Node -> bool) (n : Node) :
  clean P n -> filter P (nodes n) = [].
Proof.
  unfold clean. generalize (nodes n) as l.
  induction l as [|x l IH]; intros H; [reflexivity|].
  cbn. rewrite (H x (or_introl eq_refl)). apply IH.
  intros m Hm. apply H. right. exact Hm.
Qed.

Lemma Forall_mapi_from {A B} (Q : B -> Prop) (f : A -> nat -> B)
      (l : list A) (i : nat) :
  (forall x j, Q (f x j)) -> Forall Q (mapi_from i f l).
Proof.
  intros H. revert i. induction l as [|x l IH]; intros i; cbn; constructor;
    auto.
Qed.

Lemma Forall_map_all {A B} (Q : B -> Prop) (f : A -> B) (l : list A) :
  (forall x, Q (f x)) -> Forall Q (map f l).
Proof. intros H. induction l; cbn; constructor; auto. Qed.

Lemma filter_nodes (P : Node -> bool) (n : Node) :
  filter P (nodes n) =
  (if P n then [n] else []) ++
  flat_map (fun m => filter P (nodes m)) (children_of n).
Proof.
  rewrite nodes_children. cbn [filter].
  assert (E : filter P (flat_map nodes (children_of n)) =
              flat_map (fun m => filter P (nodes m)) (children_of n)).
  { induction (children_of n) as [|x l IH]; cbn; [reflexivity|].
    rewrite filter_app, IH. reflexivity. }
  rewrite E. destruct (P n); reflexivity.
Qed.

Lemma in_mapi_from {A B} (f : A -> nat -> B) (l : list A) (i k : nat)
      (x : A) :
  nth_error l k = Some x -> In (f x (i + k)) (mapi_from i f l).
Proof.
  revert i k. induction l as [|y l IH]; intros i [|k]; cbn; try discriminate.
  - intros [= ->]. left. f_equal. lia.
  - intros H. right. replace (i + S k) with (S i + k) by lia.
    apply IH. exact H.
Qed.

Lemma select_clean (P : Node -> bool) (n : Node) :
  clean P n -> select P n = [].
Proof. apply clean_filter. Qed.

Lemma select_node (P : Node -> bool) (n : Node) :
  select P n =
  (if P n then [n] else []) ++ flat_map (select P) (children_of n).
Proof. apply filter_nodes. Qed.

Lemma flat_map_select_clean (P : Node -> bool) (l : list Node) :
  Forall (clean P) l -> flat_map (select P) l = [].
Proof.
  induction 1 as [|x l Hx _ IH]; cbn; [reflexivity|].
  rewrite (select_clean Hx), IH. reflexivity.
Qed.

(** A node that satisfies [P] over a clean interior is the only match. *)
Lemma select_root_only (P : Node -> bool) (n : Node) :
  P n = true -> Forall (clean P) (children_of n) -> select P n = [n].
Proof.
  intros Hn Hch. rewrite select_node, Hn, (flat_map_select_clean Hch).
  reflexivity.
Qed.

Lemma flat_map_select_map {A} (P : Node -> bool) (f : A -> Node)
      (g : A -> list Node) (l : list A) :
  (forall x, select P (f x) = g x) ->
  flat_map (select P) (map f l) = flat_map g l.
Proof.
  intros H. induction l as [|x l IH]; cbn; [reflexivity|].
  rewrite H, IH. reflexivity.
Qed.

Lemma flat_map_select_mapi_from {A} (P : Node -> bool)
      (f : A -> nat -> Node) (g : A -> list Node) (l : list A) (i : nat) :
  (forall x j, select P (f x j) = g x) ->
  flat_map (select P) (mapi_from i f l) = flat_map g l.
Proof.
  intros H. revert i. induction l as [|x l IH]; intros i; cbn;
    [reflexivity|].
  rewrite H, IH. reflexivity.
Qed.

Lemma flat_map_singleton {A B} (f : A -> B) (l : list A) :
  flat_map (fun x => [f x]) l = map f l.
Proof. induction l as [|x l IH]; cbn; [reflexivity | now rewrite IH]. Qed.

End TreeFacts.

(* ================================================================== *)
(** ** Where error notices can occur *)

Create HintDb clean_db.

(** Decides a tag or class test on an element whose tag and class list
    are literals with conditional parts. *)
Ltac class_leaf :=
  cbn [is_error_notice has_class has_tag is_chat_row onClick_of attrs_of
       has_ref];
  unfold getIcon;
  repeat match goal with
    | |- context [if ?b then _ else _] => destruct b
    end;
  vm_compute; reflexivity.

(** Unfolds the component at the head of a [clean] goal. *)
Ltac unfold_component :=
  progress unfold ContactButton, renderFieldValue, SupplierCard, timed_row,
    SupplierSection, Header, UserAvatarDropdown, LogoImage, ChatRow, ChatsTab,
    ChatList, Sidebar, AssistantAvatar, TypingRow, TypingIndicator,
    MessageRow, MessagesArea, MessageInput, MicButton, SendButton,
    UnsupportedNotice, SpeechErrorNotice, InputControls, InputBar, MainArea,
    RenameInput, Body.

Ltac clean_step :=
  match goal with
  | |- Forall _ [] => apply Forall_nil
  | |- Forall _ (_ :: _) => apply Forall_cons
  | |- Forall _ (_ ++ _) => apply Forall_app; split
  | |- Forall _ (map _ _) => apply Forall_map_all; intros
  | |- Forall _ (mapi _ _) => apply Forall_mapi_from; intros
  | |- clean _ (if ?b then _ else _) => destruct b
  | |- clean _ (match ?o with _ => _ end) => destruct o
  | |- clean _ (El _ _ _ _) =>
      apply clean_node; [class_leaf | cbn [children_of]]
  | |- clean _ (Frag _) =>
      apply clean_node; [reflexivity | cbn [children_of]]
  | |- clean _ Null => apply clean_node; [reflexivity | apply Forall_nil]
  | |- clean _ (Text _) => apply clean_node; [reflexivity | apply Forall_nil]
  | |- clean _ _ => solve [auto with clean_db]
  | |- clean _ _ => unfold_component
  end.

Ltac clean_tac := repeat clean_step.

Section ErrorNotices.

Variable toLowerCase : jsstring -> jsstring.
Variable Date_toString : Date -> jsstring.

Lemma ContactButton_clean (type value : jsstring) :
  clean is_error_notice (ContactButton type value).
Proof. unfold ContactButton. clean_tac. Qed.
Hint Resolve ContactButton_clean : clean_db.

Lemma renderFieldValue_clean (field : SupplierField) :
  clean is_error_notice (renderFieldValue field).
Proof.
  unfold renderFieldValue. destruct (field_type field); clean_tac.
Qed.
Hint Resolve renderFieldValue_clean : clean_db.

Lemma SupplierCard_clean (supplier : Supplier) :
  clean is_error_notice (SupplierCard toLowerCase supplier).
Proof. unfold SupplierCard, timed_row. clean_tac. Qed.
Hint Resolve SupplierCard_clean : clean_db.

Lemma SupplierSection_clean (message : Message) :
  clean is_error_notice (SupplierSection toLowerCase message).
Proof. unfold SupplierSection. clean_tac. Qed.
Hint Resolve SupplierSection_clean : clean_db.

Variable c : Ctx.

Lemma Header_clean : clean is_error_notice (Header c).
Proof.
  unfold Header, UserAvatarDropdown, LogoImage, avatarBase, dropdownBase.
  clean_tac.
Qed.

Lemma ChatRow_clean (chat : Chat) : clean is_error_notice (ChatRow c chat).
Proof. unfold ChatRow. clean_tac. Qed.
Hint Resolve ChatRow_clean : clean_db.

Lemma Sidebar_clean : clean is_error_notice (Sidebar toLowerCase c).
Proof. unfold Sidebar, ChatsTab, ChatList. clean_tac. Qed.

Lemma MessageRow_clean (message : Message) (idx : nat) :
  clean is_error_notice (MessageRow toLowerCase Date_toString c message idx).
Proof. unfold MessageRow, AssistantAvatar. clean_tac. Qed.
Hint Resolve MessageRow_clean : clean_db.

Lemma MessagesArea_clean :
  clean is_error_notice (MessagesArea toLowerCase Date_toString c).
Proof.
  unfold MessagesArea, TypingRow, AssistantAvatar, TypingIndicator. clean_tac.
Qed.

(** The error notices of the page are those of the input bar. *)
Lemma select_error_ChatPage :
  select is_error_notice (ChatPage toLowerCase Date_toString c) =
  select is_error_notice (UnsupportedNotice c)
  ++ select is_error_notice (SpeechErrorNotice c).
Proof.
  unfold ChatPage. rewrite select_node. cbn [children_of flat_map].
  rewrite (select_clean Header_clean).
  unfold Body. rewrite (select_node _ (El _ _ _ _)).
  cbn [children_of flat_map].
  rewrite (select_clean Sidebar_clean).
  rewrite (select_clean (n := if isMobile c && sidebarOpen c then _ else _))
    by clean_tac.
  unfold MainArea. rewrite (select_node _ (El "main" _ _ _)).
  cbn [children_of flat_map].
  rewrite (select_clean MessagesArea_clean).
  rewrite (select_clean (n := if negb (isMobile c) then _ else _))
    by clean_tac.
  unfold InputBar. rewrite (select_node _ (El "div" _ _ _)).
  cbn [children_of flat_map].
  rewrite (select_clean (n := InputControls c)) by clean_tac.
  cbn. rewrite !app_nil_r. reflexivity.
Qed.

End ErrorNotices.

Section SpeechNotices.

Variable toLowerCase : jsstring -> jsstring.
Variable Date_toString : Date -> jsstring.
Variable window_open_throws : jsstring -> jsstring -> option Exn.

Lemma effect_body_no_console (i : EffectId) (c : Ctx) (m : jsstring)
      (err : Exn) :
  ~ In (ConsoleError m err)
       (effects (effect_body toLowerCase Date_toString i c)).
Proof.
  unfold effect_body, effects, perform, ret, bind.
  destruct i;
    repeat match goal with
      | |- context [if ?b then _ else _] => destruct b
      end; cbn; intuition discriminate.
Qed.

Lemma commit_no_console (prev : option Ctx) (c : Ctx) (m : jsstring)
      (err : Exn) :
  ~ In (ConsoleError m err)
       (commit_effects toLowerCase Date_toString prev c).
Proof.
  unfold commit_effects. intros H. apply in_app_or in H. destruct H as [H|H].
  - destruct prev as [c0|]; [|exact H].
    apply in_flat_map in H. destruct H as [i [_ H]].
    unfold effect_cleanup in H.
    destruct i; try exact H.
    destruct (isMobile c0 && sidebarOpen c0); cbn in H;
      intuition discriminate.
  - apply in_flat_map in H. destruct H as [i [_ H]].
    exact (effect_body_no_console _ _ _ _ H).
Qed.

(** C4.  The elements carrying the error style, over the whole page, are
    the notice that voice input is unsupported, present exactly when the
    speech hook reports [isSupported] false, followed by the speech error
    text, present exactly when the hook's [error] is a non-empty string.
    Apart from these, the only error report is the [console.error] in the
    catch of the contact link handler: no other handler and no effect
    issues one. *)
Theorem speech_notices_are_the_only_errors (c : Ctx) :
  select is_error_notice (ChatPage toLowerCase Date_toString c) =
    (if isSupported (speech c) then []
     else [El "div" "text-xs text-red-400 mt-2" []
              [Text (lit "Voice input is not supported in this browser.")]])
    ++ match error (speech c) with
       | Some ((_ :: _) as e) => [El "div" "text-xs text-red-400 mt-2" [] [Text e]]
       | _ => []
       end
  /\ (UnsupportedNotice c <> Null <-> isSupported (speech c) = false)
  /\ (SpeechErrorNotice c <> Null <->
      exists e, error (speech c) = Some e /\ e <> [])
  /\ (forall h ev m err,
         In (ConsoleError m err)
            (effects (run_handler window_open_throws c h ev)) ->
         exists type value, h = contactClick type value)
  /\ (forall prev m err,
         ~ In (ConsoleError m err)
              (commit_effects toLowerCase Date_toString prev c)).
Proof.
  split; [|split; [|split; [|split]]].
  - rewrite select_error_ChatPage.
    unfold UnsupportedNotice, SpeechErrorNotice.
    destruct (isSupported (speech c)); destruct (error (speech c)) as [[|x e]|];
      reflexivity.
  - unfold UnsupportedNotice. destruct (isSupported (speech c)); cbn;
      split; congruence.
  - unfold SpeechErrorNotice. destruct (error (speech c)) as [[|x e]|]; cbn.
    + split; [congruence | intros [e [[= <-] He]]; congruence].
    + split; [intros _; exists (x :: e); split; congruence | congruence].
    + split; [congruence | intros [e [He _]]; discriminate].
  - intros h ev m err H.
    destruct h; try (exists type, value; reflexivity); exfalso;
      revert H; unfold run_handler, handleMobileChatSelect, effects, perform,
        ret, bind;
      repeat match goal with
        | |- context [if ?b then _ else _] => destruct b
        end; cbn; intuition discriminate.
  - intros prev m err. apply commit_no_console.
Qed.

End SpeechNotices.

(* ================================================================== *)
(** ** Supplier results *)

Section SupplierResults.

Variable toLowerCase : jsstring -> jsstring.
Variable Date_toString : Date -> jsstring.

Let Card := SupplierCard toLowerCase.
Let Section_ := SupplierSection toLowerCase.

Lemma SupplierCard_select (supplier : Supplier) :
  select (has_tag "Card") (Card supplier) = [Card supplier].
Proof.
  apply select_root_only; [reflexivity|].
  unfold Card, SupplierCard, timed_row. cbn [children_of]. clean_tac.
Qed.

Lemma SupplierCard_no_paragraph (supplier : Supplier) :
  clean (has_tag "p") (Card supplier).
Proof. unfold Card. clean_tac. Qed.

Lemma SupplierSection_empty (message : Message) :
  message_suppliers message = None \/ message_suppliers message = Some [] ->
  Section_ message = Null.
Proof.
  unfold Section_, SupplierSection. intros [-> | ->]; reflexivity.
Qed.

Lemma SupplierSection_cards (message : Message) :
  select (has_tag "Card") (Section_ message) = cards_of_message Card message.
Proof.
  unfold Section_, SupplierSection, cards_of_message.
  destruct (message_suppliers message) as [[|s l]|]; try reflexivity.
  change (0 <? length (s :: l)) with true. cbv iota.
  rewrite select_node. cbn [children_of flat_map].
  rewrite (select_clean (n := El "div" "flex items-center gap-3 mb-4 md:mb-6" _ _))
    by clean_tac.
  rewrite select_node. cbn [children_of].
  rewrite flat_map_select_map with (g := fun x => [Card x])
    by apply SupplierCard_select.
  rewrite flat_map_singleton, app_nil_r. reflexivity.
Qed.

Lemma SupplierSection_found (message : Message) (suppliers : list Supplier) :
  message_suppliers message = Some suppliers -> suppliers <> [] ->
  map textContent (select (has_tag "p") (Section_ message)) =
  [lit "Found " ++ Number_toString (length suppliers)
   ++ lit " suppliers matching your criteria"].
Proof.
  intros E Hne. unfold Section_, SupplierSection. rewrite E.
  destruct suppliers as [|s l]; [congruence|].
  change (0 <? length (s :: l)) with true. cbv iota.
  generalize (Number_toString (length (s :: l))) as count. intros count.
  rewrite select_node. cbn [children_of flat_map].
  rewrite (select_clean (n := El "div" "grid grid-cols-1 md:grid-cols-2 lg:grid-cols-3 xl:grid-cols-4 gap-3 md:gap-4" _ _)).
  2:{ apply clean_node; [reflexivity|]. cbn [children_of].
      apply Forall_map_all. apply SupplierCard_no_paragraph. }
  cbn. rewrite ?app_nil_r. reflexivity.
Qed.

Variable c : Ctx.

Let Page := ChatPage toLowerCase Date_toString c.
Let Row := MessageRow toLowerCase Date_toString c.

Lemma MessageRow_cards (message : Message) (idx : nat) :
  select (has_tag "Card") (Row message idx) = cards_of_message Card message.
Proof.
  unfold Row, MessageRow. rewrite select_node. cbn [children_of flat_map].
  rewrite (select_clean (n := if negb (is_user message) then _ else _))
    by clean_tac.
  rewrite (select_clean (n := if is_user message then _ else _)) by clean_tac.
  rewrite (select_node _ (El "div" _ _ _)). cbn [children_of flat_map].
  rewrite (select_clean (n := El "div" _ _ [Text _])) by clean_tac.
  fold Section_. rewrite SupplierSection_cards.
  destruct (is_user message); cbn; rewrite ?app_nil_r; reflexivity.
Qed.

Lemma MessageRow_has_section (message : Message) (idx : nat) :
  In (Section_ message) (nodes (Row message idx)).
Proof.
  unfold Row, MessageRow.
  eapply in_nodes_child; [cbn [children_of]; right; left; reflexivity|].
  eapply in_nodes_child; [cbn [children_of]; right; left; reflexivity|].
  apply in_nodes_self.
Qed.

Lemma MessagesArea_cards :
  select (has_tag "Card") (MessagesArea toLowerCase Date_toString c) =
  flat_map (cards_of_message Card) (messages (props c)).
Proof.
  unfold MessagesArea. rewrite select_node. cbn [children_of flat_map].
  destruct (messages (props c)) as [|m l] eqn:E; [reflexivity|].
  change (length (m :: l) =? 0) with false. cbv iota.
  rewrite select_node. cbn [children_of]. rewrite flat_map_app.
  unfold mapi.
  rewrite flat_map_select_mapi_from with (g := cards_of_message Card)
    by apply MessageRow_cards.
  rewrite flat_map_select_clean by clean_tac.
  cbn. rewrite ?app_nil_r. reflexivity.
Qed.

Lemma ChatPage_cards :
  select (has_tag "Card") Page =
  flat_map (cards_of_message Card) (messages (props c)).
Proof.
  unfold Page, ChatPage. rewrite select_node. cbn [children_of flat_map].
  rewrite (select_clean (n := Header c)) by clean_tac.
  unfold Body. rewrite (select_node _ (El _ _ _ _)).
  cbn [children_of flat_map].
  rewrite (select_clean (n := Sidebar toLowerCase c)) by clean_tac.
  rewrite (select_clean (n := if isMobile c && sidebarOpen c then _ else _))
    by clean_tac.
  unfold MainArea. rewrite (select_node _ (El "main" _ _ _)).
  cbn [children_of flat_map].
  rewrite (select_clean (n := if negb (isMobile c) then _ else _))
    by clean_tac.
  rewrite (select_clean (n := InputBar c)) by clean_tac.
  rewrite MessagesArea_cards. cbn. rewrite ?app_nil_r. reflexivity.
Qed.

(** Every message has its row on the page. *)
Lemma ChatPage_has_row (k : nat) (message : Message) :
  nth_error (messages (props c)) k = Some message ->
  In (Row message k) (nodes Page).
Proof.
  intros H. unfold Page, ChatPage.
  eapply in_nodes_child; [cbn [children_of]; right; left; reflexivity|].
  unfold Body.
  eapply in_nodes_child;
    [cbn [children_of]; right; right; left; reflexivity|].
  unfold MainArea.
  eapply in_nodes_child; [cbn [children_of]; right; left; reflexivity|].
  unfold MessagesArea.
  destruct (messages (props c)) as [|m l] eqn:E.
  { destruct k; discriminate. }
  change (length (m :: l) =? 0) with false. cbv iota.
  eapply in_nodes_child; [cbn [children_of]; left; reflexivity|].
  eapply in_nodes_child; [|apply in_nodes_self].
  cbn [children_of]. apply in_or_app. left.
  apply (in_mapi_from Row (m :: l) 0 k). exact H.
Qed.

(** C3.  A message whose suppliers list is present and not empty gets the
    supplier section: its cards are one per supplier, in list order, and its
    one paragraph reads [Found N suppliers matching your criteria] with [N]
    the length of the list.  A message without suppliers, or with an empty
    list, gets no section.  The section sits in the row of its message, the
    row is on the page, and the cards of the page are those of its messages,
    in order. *)
Theorem supplier_section_per_message (message : Message) :
  (forall suppliers,
      message_suppliers message = Some suppliers -> suppliers <> [] ->
      select (has_tag "Card") (Section_ message) = map Card suppliers /\
      map textContent (select (has_tag "p") (Section_ message)) =
        [lit "Found " ++ Number_toString (length suppliers)
         ++ lit " suppliers matching your criteria"])
  /\ (message_suppliers message = None \/ message_suppliers message = Some [] ->
      Section_ message = Null)
  /\ (forall k, In (Section_ message) (nodes (Row message k)))
  /\ (forall k, nth_error (messages (props c)) k = Some message ->
                In (Row message k) (nodes Page))
  /\ select (has_tag "Card") Page =
     flat_map (cards_of_message Card) (messages (props c)).
Proof.
  split; [|split; [|split; [|split]]].
  - intros suppliers E Hne. split.
    + rewrite SupplierSection_cards. unfold cards_of_message. rewrite E.
      reflexivity.
    + apply SupplierSection_found; assumption.
  - apply SupplierSection_empty.
  - apply MessageRow_has_section.
  - intros k. apply ChatPage_has_row.
  - apply ChatPage_cards.
Qed.

End SupplierResults.

(* ================================================================== *)
(** ** The chat list of the sidebar *)

Section ChatListFacts.

Variable toLowerCase : jsstring -> jsstring.
Variable Date_toString : Date -> jsstring.
Variable c : Ctx.

Let Page := ChatPage toLowerCase Date_toString c.
Let shown := filteredChats toLowerCase (props c).

Lemma filter_subsequence {A} (f : A -> bool) (l : list A) :
  subsequence (filter f l) l.
Proof.
  induction l as [|x l IH]; cbn; [constructor|].
  destruct (f x); constructor; exact IH.
Qed.

Lemma ChatRow_select (chat : Chat) :
  select is_chat_row (ChatRow c chat) = [ChatRow c chat].
Proof.
  apply select_root_only; [reflexivity|].
  unfold ChatRow. cbn [children_of]. clean_tac.
Qed.

Lemma ChatPage_rows :
  select is_chat_row Page = map (ChatRow c) shown.
Proof.
  unfold Page, ChatPage. rewrite select_node. cbn [children_of flat_map].
  rewrite (select_clean (n := Header c)) by clean_tac.
  unfold Body. rewrite (select_node _ (El _ _ _ _)).
  cbn [children_of flat_map].
  rewrite (select_clean (n := MainArea toLowerCase Date_toString c))
    by clean_tac.
  rewrite (select_clean (n := if isMobile c && sidebarOpen c then _ else _))
    by clean_tac.
  unfold Sidebar. rewrite (select_node _ (El "aside" _ _ _)).
  cbn [children_of flat_map].
  rewrite (select_clean (n := if isMobile c then El _ _ _ [El "h2" _ _ _; _]
                               else _)) by clean_tac.
  rewrite (select_clean (n := if negb (isMobile c) then _ else _))
    by clean_tac.
  rewrite (select_clean (n := if isMobile c then El "div" "px-4 py-2" _ _
                               else _)) by clean_tac.
  rewrite (select_clean (n := ChatsTab c)) by clean_tac.
  rewrite (select_clean (n := El "div" _ _ [El "div" "flex-1 relative" _ _; _]))
    by clean_tac.
  unfold ChatList. rewrite (select_node _ (El "div" _ _ (map _ _))).
  cbn [children_of].
  rewrite flat_map_select_map with (g := fun x => [ChatRow c x])
    by apply ChatRow_select.
  rewrite flat_map_singleton.
  destruct (isMobile c); cbn; rewrite ?app_nil_r; reflexivity.
Qed.

Lemma ChatPage_has_tab : In (ChatsTab c) (nodes Page).
Proof.
  unfold Page, ChatPage.
  eapply in_nodes_child; [cbn [children_of]; right; left; reflexivity|].
  unfold Body.
  eapply in_nodes_child; [cbn [children_of]; right; left; reflexivity|].
  unfold Sidebar.
  eapply in_nodes_child; [|apply in_nodes_self].
  cbn [children_of]. do 3 right. left. reflexivity.
Qed.

(** C8.  The rows of the chat list, over the whole page, are the rows of
    the chats whose lower-cased title contains the lower-cased search
    string: a chat is listed exactly when it is in [chats] and its title
    matches, and the listed chats keep the order of [chats].  The badge of
    the [CHATS] tab shows the length of [chats] itself. *)
Theorem chat_list_filtered_badge_total :
  select is_chat_row Page = map (ChatRow c) shown
  /\ (forall chat,
         In chat shown <->
         In chat (chats (props c)) /\
         exists a b, toLowerCase (chat_title chat)
                     = a ++ toLowerCase (search (props c)) ++ b)
  /\ subsequence shown (chats (props c))
  /\ In (ChatsTab c) (nodes Page)
  /\ textContent (ChatsTab c) =
     lit "CHATS " ++ Number_toString (length (chats (props c))).
Proof.
  split; [apply ChatPage_rows|]. split; [|split; [|split]].
  - intros chat. unfold shown, filteredChats.
    rewrite filter_In, includes_spec. reflexivity.
  - apply filter_subsequence.
  - apply ChatPage_has_tab.
  - unfold ChatsTab. cbn. rewrite !app_nil_r. reflexivity.
Qed.

End ChatListFacts.

(* ================================================================== *)
(** ** Events *)

Section EventFacts.

Variable toLowerCase : jsstring -> jsstring.
Variable Date_toString : Date -> jsstring.
Variable env : jsstring -> jsstring -> option Exn.
Variable host : Host.

Let Page := ChatPage toLowerCase Date_toString.

Lemma fire_no_attrs (c : Ctx) (n : Node) (k : EventKind) (e : DomEvent) :
  attrs_of n = [] -> fire env c n k e = [].
Proof.
  intros H. unfold fire, handlers_of, is_disabled.
  rewrite H. reflexivity.
Qed.

Lemma handlers_run_cons (c : Ctx) (n : Node) (up : list Node) (k : EventKind)
      (e : DomEvent) :
  handlers_run env c (n :: up) k e =
  if existsb is_StopPropagation (fire env c n k e) then fire env c n k e
  else fire env c n k e ++ handlers_run env c up k e.
Proof. reflexivity. Qed.

(** An element without attributes lets the event through. *)
Lemma handlers_run_skip (c : Ctx) (n : Node) (up : list Node) (k : EventKind)
      (e : DomEvent) :
  attrs_of n = [] ->
  handlers_run env c (n :: up) k e = handlers_run env c up k e.
Proof.
  intros H. rewrite handlers_run_cons, (@fire_no_attrs c n k e H).
  reflexivity.
Qed.

(** The document listener does one thing, and only on a mobile view. *)
Lemma document_click_closes (c : Ctx) (l : list Effect) (x : Effect) :
  In x (document_click host c l) ->
  x = Call_setSidebarOpen false /\ isMobile c = true.
Proof.
  unfold document_click, handleOutsideClick.
  destruct (isMobile c).
  - destruct (if root_is_document host then _ else _); cbn;
      [intros [<-|[]]; split; reflexivity | intros []].
  - rewrite andb_false_r. cbn [andb].
    destruct (root_is_document host); intros [].
Qed.

Lemma document_click_desktop (c : Ctx) (l : list Effect) :
  isMobile c = false -> document_click host c l = [].
Proof.
  intros M. destruct (document_click host c l) as [|x r] eqn:E;
    [reflexivity|].
  destruct (@document_click_closes c l x) as [_ M'];
    [rewrite E; left; reflexivity | congruence].
Qed.

Lemma apply_setSidebarOpen_app (l1 l2 : list Effect) (b : bool) :
  apply_setSidebarOpen (l1 ++ l2) b =
  apply_setSidebarOpen l2 (apply_setSidebarOpen l1 b).
Proof.
  revert b. induction l1 as [|x l1 IH]; intros b; cbn; [reflexivity|].
  destruct x; apply IH.
Qed.

(** A setter call fixes the cell whatever it held; without one the cell
    keeps its value. *)
Lemma apply_setSidebarOpen_fixes (l : list Effect) :
  (forall b, apply_setSidebarOpen l b = b)
  \/ exists v, forall b, apply_setSidebarOpen l b = v.
Proof.
  induction l as [|x l IH]; [left; reflexivity|].
  destruct x; try exact IH.
  right. eexists. intros b'. cbn. reflexivity.
Qed.

(** The elements below the row of a chat either have no click handler or
    stop the click without selecting the chat. *)
Lemma row_inner_clicks (c : Ctx) (chat : Chat) (e : DomEvent) :
  Forall (fun m =>
            fire env c m click e = [] /\ stops_click m = false
            \/ stops_click m = true
               /\ existsb is_StopPropagation (fire env c m click e) = true
               /\ forall id, ~ In (Call_onChatSelect id)
                                  (fire env c m click e))
         (flat_map nodes (children_of (ChatRow c chat))).
Proof.
  unfold ChatRow, RenameInput. cbn [children_of flat_map].
  destruct (null_eqb (renamingChatId (props c)) (chat_id chat));
    cbn [nodes app];
    repeat (apply Forall_cons || apply Forall_nil);
    first [ left; split; reflexivity
          | right; split; [reflexivity|]; split; [reflexivity|];
            intros id H; cbn in H; intuition discriminate ].
Qed.

Lemma path_down_tail (n m : Node) (idxs : list nat) :
  In m (tl (path_down n idxs)) -> In m (flat_map nodes (children_of n)).
Proof.
  revert n. induction idxs as [|i rest IH]; intros n; cbn [path_down tl];
    [intros []|].
  destruct (nth_error (children_of n) i) as [child|] eqn:E; [|intros []].
  intros H. apply in_flat_map. exists child.
  split; [apply (nth_error_In _ _ E)|].
  destruct rest as [|j rest']; cbn [path_down] in H.
  - destruct H as [<-|[]]. apply in_nodes_self.
  - destruct H as [<-|H]; [apply in_nodes_self|].
    rewrite nodes_children. right. apply (IH child). exact H.
Qed.

Lemma existsb_reversed (A : Type) (f : A -> bool) (l : list A) :
  existsb f (rev l) = existsb f l.
Proof.
  induction l as [|x l IH]; [reflexivity|].
  cbn [rev existsb]. rewrite existsb_app, IH. cbn [existsb].
  rewrite orb_false_r. apply orb_comm.
Qed.

Lemma path_down_head (n : Node) (idxs : list nat) :
  path_down n idxs = n :: tl (path_down n idxs).
Proof. destruct idxs; reflexivity. Qed.

(** A click that comes up through elements of that kind is either stopped
    by one of them or arrives unchanged. *)
Lemma handlers_run_through (c : Ctx) (e : DomEvent) (inner up : list Node) :
  Forall (fun m =>
            fire env c m click e = [] /\ stops_click m = false
            \/ stops_click m = true
               /\ existsb is_StopPropagation (fire env c m click e) = true
               /\ forall id, ~ In (Call_onChatSelect id)
                                  (fire env c m click e)) inner ->
  (existsb stops_click inner = false ->
   handlers_run env c (inner ++ up) click e = handlers_run env c up click e)
  /\ (existsb stops_click inner = true ->
      forall id, ~ In (Call_onChatSelect id)
                      (handlers_run env c (inner ++ up) click e)).
Proof.
  induction 1 as [|m inner Hm _ [IH1 IH2]]; cbn [existsb app];
    [split; [reflexivity | discriminate]|].
  rewrite handlers_run_cons.
  destruct Hm as [[F S]|[S [St No]]]; rewrite S; cbn [orb].
  - rewrite F. cbn [existsb app]. split; assumption.
  - rewrite St. split; [discriminate | intros _; exact No].
Qed.

Lemma row_is_path (c : Ctx) (chat : Chat) :
  In chat (filteredChats toLowerCase (props c)) ->
  is_path (chat_row_path toLowerCase Date_toString c chat).
Proof.
  intros Hin. unfold chat_row_path. cbn [is_path].
  repeat split.
  - unfold ChatList. cbn [children_of]. apply in_map. exact Hin.
  - unfold Sidebar. cbn [children_of]. do 5 right. left. reflexivity.
  - unfold Body. cbn [children_of]. right. left. reflexivity.
  - unfold ChatPage. cbn [children_of]. right. left. reflexivity.
Qed.

(** Going down through children and reading the result upwards gives a
    path, whatever the positions. *)
Lemma path_down_is_path (n : Node) (idxs : list nat) (up : list Node) :
  is_path (n :: up) -> is_path (rev (path_down n idxs) ++ up).
Proof.
  revert n up. induction idxs as [|i rest IH]; intros n up H;
    [exact H|].
  cbn [path_down].
  destruct (nth_error (children_of n) i) as [child|] eqn:E; [|exact H].
  cbn [rev]. rewrite <- app_assoc. apply IH.
  split; [|exact H]. apply (nth_error_In _ _ E).
Qed.

(** The handlers of a click that arrives at the row of a chat. *)
Lemma handlers_run_from_row (c : Ctx) (chat : Chat) (k : EventKind)
      (e : DomEvent) :
  handlers_run env c (chat_row_path toLowerCase Date_toString c chat) k e =
  match k with
  | click =>
      Call_onChatSelect (chat_id chat)
      :: (if isMobile c then [Call_setSidebarOpen false] else [])
  | _ => []
  end.
Proof.
  unfold chat_row_path. rewrite handlers_run_cons.
  rewrite !handlers_run_skip by reflexivity.
  destruct k; try reflexivity.
  unfold fire, ChatRow. cbn.
  unfold handleMobileChatSelect, effects, perform, ret, bind.
  destruct (isMobile c); cbn; reflexivity.
Qed.

(** C5.  A click inside the row of a chat gets to the row unless it lands
    on one of the elements of the row that stop it: the title and the
    pencil, or the rename field when the chat is being renamed.  When it
    gets there it calls [onChatSelect] with the id of that chat and nothing
    else of the parent's; it sets the sidebar state to closed when the view
    is mobile and does not call the setter when it is not; the props, the
    chat list among them, are as before.  When it is stopped,
    [onChatSelect] is not called. *)
Theorem chat_row_click_selects (c : Ctx) (chat : Chat) (idxs : list nat)
        (e : DomEvent) (s : Store) :
  let row := ChatRow c chat in
  let path := within_row_path toLowerCase Date_toString c chat idxs in
  let l := bubble env host c path click e in
  let selected := Call_onChatSelect (chat_id chat)
                  :: (if isMobile c then [Call_setSidebarOpen false] else []) in
  (In chat (filteredChats toLowerCase (props c)) -> is_path path)
  /\ map tag_of (select stops_click row) =
     (if null_eqb (renamingChatId (props c)) (chat_id chat)
      then ["input"%string] else ["span"%string; "button"%string])
  /\ (existsb stops_click (path_down row idxs) = false ->
      l = selected ++ document_click host c selected
      /\ (forall x, In x l ->
                    x = Call_onChatSelect (chat_id chat) \/
                    x = Call_setSidebarOpen false /\ isMobile c = true)
      /\ (isMobile c = true -> In (Call_setSidebarOpen false) l)
      /\ st_sidebarOpen (performed l s) =
         if isMobile c then false else st_sidebarOpen s)
  /\ (existsb stops_click (path_down row idxs) = true ->
      forall id, ~ In (Call_onChatSelect id) l)
  /\ st_props (performed l s) = st_props s.
Proof.
  intros row path l selected.
  assert (Epath : path = rev (tl (path_down row idxs))
                         ++ chat_row_path toLowerCase Date_toString c chat).
  { subst path. unfold within_row_path. fold row.
    rewrite (path_down_head row idxs) at 1. cbn [rev].
    rewrite <- app_assoc. reflexivity. }
  assert (Estop : existsb stops_click (path_down row idxs)
                  = existsb stops_click (rev (tl (path_down row idxs)))).
  { rewrite (path_down_head row idxs) at 1. cbn [existsb].
    rewrite existsb_reversed. reflexivity. }
  assert (Inner : Forall (fun m =>
            fire env c m click e = [] /\ stops_click m = false
            \/ stops_click m = true
               /\ existsb is_StopPropagation (fire env c m click e) = true
               /\ forall id, ~ In (Call_onChatSelect id)
                                  (fire env c m click e))
                         (rev (tl (path_down row idxs)))).
  { apply Forall_rev, Forall_forall. intros m Hm.
    apply path_down_tail in Hm.
    exact (proj1 (Forall_forall _ _) (row_inner_clicks c chat e) m Hm). }
  destruct (handlers_run_through c e
              (chat_row_path toLowerCase Date_toString c chat) Inner)
    as [Through Stopped].
  rewrite handlers_run_from_row in Through. fold selected in Through.
  split; [|split; [|split; [|split]]].
  - intros Hin. subst path. unfold within_row_path.
    apply path_down_is_path. apply (row_is_path c chat Hin).
  - subst row. unfold ChatRow, RenameInput, select.
    destruct (null_eqb (renamingChatId (props c)) (chat_id chat));
      reflexivity.
  - intros U. rewrite Estop in U. specialize (Through U).
    assert (El : l = selected ++ document_click host c selected).
    { subst l. unfold bubble. rewrite Epath, Through. reflexivity. }
    split; [exact El|]. rewrite El.
    split; [|split].
    + intros x Hx. apply in_app_or in Hx. destruct Hx as [Hx|Hx].
      * subst selected. destruct (isMobile c); cbn in Hx; intuition.
      * right. exact (document_click_closes _ _ _ Hx).
    + intros M. apply in_or_app. left. subst selected. rewrite M.
      right. left. reflexivity.
    + cbn [performed st_sidebarOpen]. rewrite apply_setSidebarOpen_app.
      destruct (isMobile c) eqn:M.
      * subst selected. cbn [apply_setSidebarOpen].
        destruct (document_click host c _) as [|x r] eqn:D; [reflexivity|].
        unfold document_click, handleOutsideClick in D.
        destruct (if root_is_document host then _ else _);
          [|discriminate].
        injection D as <- <-. reflexivity.
      * rewrite (document_click_desktop c _ M). reflexivity.
  - intros U. rewrite Estop in U. intros id Hin.
    subst l. unfold bubble in Hin. rewrite Epath in Hin.
    apply in_app_or in Hin. destruct Hin as [Hin|Hin].
    + exact (Stopped U id Hin).
    + apply document_click_closes in Hin. destruct Hin as [Hin _].
      discriminate.
  - reflexivity.
Qed.

Lemma fire_disabled (c : Ctx) (n : Node) (k : EventKind) (e : DomEvent) :
  is_disabled n = true -> fire env c n k e = [].
Proof. intros H. unfold fire. rewrite H. reflexivity. Qed.

Lemma handlers_run_from_control (c : Ctx) (control : Node) (k : EventKind)
      (e : DomEvent) :
  handlers_run env c (input_control_path toLowerCase Date_toString c control)
               k e
  = fire env c control k e.
Proof.
  unfold input_control_path. rewrite handlers_run_cons.
  rewrite !handlers_run_skip by reflexivity. cbn [handlers_run].
  rewrite app_nil_r. destruct (existsb _ _); reflexivity.
Qed.

Lemma bubble_from_control (c : Ctx) (control : Node) (k : EventKind)
      (e : DomEvent) :
  bubble env host c (input_control_path toLowerCase Date_toString c control)
         k e =
  fire env c control k e
  ++ match k with
     | click => document_click host c (fire env c control k e)
     | _ => []
     end.
Proof. unfold bubble. rewrite handlers_run_from_control. reflexivity. Qed.

Lemma controls_disabled (c : Ctx) :
  is_disabled (MessageInput c) = isAssistantTyping (props c)
  /\ is_disabled (MicButton c) =
     negb (isSupported (speech c)) || isAssistantTyping (props c)
  /\ is_disabled (SendButton c) =
     isAssistantTyping (props c)
     || negb (truthy (trim (currentMessage (props c)))).
Proof.
  unfold is_disabled, MessageInput, MicButton, SendButton.
  cbn [attrs_of existsb orb].
  repeat split.
  - destruct (isAssistantTyping (props c)); reflexivity.
  - destruct (negb (isSupported (speech c)) || isAssistantTyping (props c));
      reflexivity.
  - destruct (isAssistantTyping (props c)
              || negb (truthy (trim (currentMessage (props c)))));
      reflexivity.
Qed.

Lemma input_control_is_path (c : Ctx) (control : Node) :
  In control (input_controls c) ->
  is_path (input_control_path toLowerCase Date_toString c control).
Proof.
  intros H. unfold input_control_path. cbn [is_path]. repeat split.
  - exact H.
  - left. reflexivity.
  - unfold MainArea. cbn [children_of]. do 2 right. left. reflexivity.
  - unfold Body. cbn [children_of]. do 2 right. left. reflexivity.
  - unfold ChatPage. cbn [children_of]. right. left. reflexivity.
Qed.

(** C10.  While the assistant is typing no event on a control of the input
    bar calls [onSendMessage]: the text field and the send button are
    disabled and the Enter handler checks the flag itself.  When the
    assistant is not typing, Enter in the text field calls [onSendMessage]
    whatever the current message is, an empty or blank one included, while
    the send button is disabled as soon as the trimmed message is empty. *)
Theorem send_only_when_not_typing (c : Ctx) :
  let path := input_control_path toLowerCase Date_toString c in
  (forall control, In control (input_controls c) -> is_path (path control))
  /\ (isAssistantTyping (props c) = true ->
      (forall control k e,
          In control (input_controls c) ->
          ~ In Call_onSendMessage (bubble env host c (path control) k e))
      /\ is_disabled (MessageInput c) = true
      /\ is_disabled (SendButton c) = true
      /\ (forall e, effects (run_handler env c inputKeyDown e) = []))
  /\ (isAssistantTyping (props c) = false ->
      forall e, key e = lit "Enter" ->
                bubble env host c (path (MessageInput c)) keydown e
                = [Call_onSendMessage])
  /\ (trim (currentMessage (props c)) = [] ->
      is_disabled (SendButton c) = true /\
      forall k e,
        ~ In Call_onSendMessage
             (bubble env host c (path (SendButton c)) k e)).
Proof.
  intros path. subst path.
  destruct (controls_disabled c) as [Din [Dmic Dsend]].
  split; [intros control; apply input_control_is_path|].
  assert (Hoff : forall control k e,
             is_disabled control = true ->
             ~ In Call_onSendMessage
                  (bubble env host c
                     (input_control_path toLowerCase Date_toString c control)
                     k e)).
  { intros control k e Hd. rewrite bubble_from_control.
    rewrite (@fire_disabled c control k e Hd). cbn [app].
    destruct k; [|intros []..].
    intros H. apply document_click_closes in H. destruct H as [H _].
    discriminate. }
  split; [|split].
  - intros T. rewrite T in *. cbn in Dmic, Dsend.
    rewrite orb_true_r in Dmic.
    split; [|split; [exact Din | split; [exact Dsend|]]].
    + intros control k e [<-|[<-|[<-|[]]]]; apply Hoff; assumption.
    + intros e. unfold run_handler. rewrite T, andb_false_r. reflexivity.
  - intros T e K. rewrite bubble_from_control.
    unfold fire. rewrite Din, T. unfold MessageInput.
    cbn [handlers_of attrs_of flat_map app].
    unfold run_handler. rewrite T, K. reflexivity.
  - intros E. rewrite E in Dsend. cbn in Dsend. rewrite orb_true_r in Dsend.
    split; [exact Dsend|]. intros k e. apply Hoff. exact Dsend.
Qed.

End EventFacts.

(* ================================================================== *)
(** ** Where the rename state lives *)

Section RenameFacts.

Variable toLowerCase : jsstring -> jsstring.
Variable Date_toString : Date -> jsstring.
Variable env : jsstring -> jsstring -> option Exn.

Let Page := ChatPage toLowerCase Date_toString.

Lemma ChatRow_rename (c : Ctx) (chat : Chat) :
  select (has_ref renameInputRef) (ChatRow c chat) = rename_field_of c chat.
Proof.
  unfold ChatRow, rename_field_of, select.
  destruct (null_eqb (renamingChatId (props c)) (chat_id chat)); reflexivity.
Qed.

Lemma ChatPage_rename_fields (c : Ctx) :
  select (has_ref renameInputRef) (Page c) =
  flat_map (rename_field_of c) (filteredChats toLowerCase (props c)).
Proof.
  unfold Page, ChatPage. rewrite select_node. cbn [children_of flat_map].
  rewrite (select_clean (n := Header c)) by clean_tac.
  unfold Body. rewrite (select_node _ (El _ _ _ _)).
  cbn [children_of flat_map].
  rewrite (select_clean (n := MainArea toLowerCase Date_toString c))
    by clean_tac.
  rewrite (select_clean (n := if isMobile c && sidebarOpen c then _ else _))
    by clean_tac.
  unfold Sidebar. rewrite (select_node _ (El "aside" _ _ _)).
  cbn [children_of flat_map].
  rewrite (select_clean (n := if isMobile c then El _ _ _ [El "h2" _ _ _; _]
                               else _)) by clean_tac.
  rewrite (select_clean (n := if negb (isMobile c) then _ else _))
    by clean_tac.
  rewrite (select_clean (n := if isMobile c then El "div" "px-4 py-2" _ _
                               else _)) by clean_tac.
  rewrite (select_clean (n := ChatsTab c)) by clean_tac.
  rewrite (select_clean (n := El "div" _ _ [El "div" "flex-1 relative" _ _; _]))
    by clean_tac.
  unfold ChatList. rewrite (select_node _ (El "div" _ _ (map _ _))).
  cbn [children_of].
  rewrite flat_map_select_map with (g := rename_field_of c)
    by apply ChatRow_rename.
  destruct (isMobile c); cbn; rewrite ?app_nil_r; reflexivity.
Qed.


Lemma setSidebarOpen_not_in_commit (prev : option Ctx) (c : Ctx) (b : bool) :
  ~ In (Call_setSidebarOpen b)
       (commit_effects toLowerCase Date_toString prev c).
Proof.
  unfold commit_effects. intros H. apply in_app_or in H. destruct H as [H|H].
  - destruct prev as [c0|]; [|exact H].
    apply in_flat_map in H. destruct H as [i [_ H]].
    unfold effect_cleanup in H.
    destruct i; try exact H.
    destruct (isMobile c0 && sidebarOpen c0); cbn in H;
      intuition discriminate.
  - apply in_flat_map in H. destruct H as [i [_ H]].
    revert H. unfold effect_body, effects, perform, ret, bind.
    destruct i;
      repeat match goal with
        | |- context [if ?x then _ else _] => destruct x
        end; cbn; intuition discriminate.
Qed.


End RenameFacts.

(* ================================================================== *)
(** ** Effects after a render *)

Section EffectFacts.

Variable toLowerCase : jsstring -> jsstring.
Variable Date_toString : Date -> jsstring.

Let Page := ChatPage toLowerCase Date_toString.
Let commit := commit_effects toLowerCase Date_toString.
Let body := effect_body toLowerCase Date_toString.

(** The text field is always on the page, so [inputRef.current] is set. *)
Lemma inputRef_current (c : Ctx) :
  ref_current toLowerCase Date_toString inputRef c = true.
Proof.
  unfold ref_current. apply existsb_exists. exists (MessageInput c).
  split; [|reflexivity].
  unfold ChatPage.
  eapply in_nodes_child; [cbn [children_of]; right; left; reflexivity|].
  unfold Body.
  eapply in_nodes_child;
    [cbn [children_of]; right; right; left; reflexivity|].
  unfold MainArea.
  eapply in_nodes_child;
    [cbn [children_of]; right; right; left; reflexivity|].
  unfold InputBar.
  eapply in_nodes_child; [cbn [children_of]; left; reflexivity|].
  unfold InputControls.
  eapply in_nodes_child; [cbn [children_of]; left; reflexivity|].
  apply in_nodes_self.
Qed.

Lemma in_all_effects (i : EffectId) : In i all_effects.
Proof. destruct i; cbn; auto 10. Qed.

(** A scheduled effect contributes its body to the commit, in place. *)
Lemma commit_runs (prev : option Ctx) (cur : Ctx) (i : EffectId) :
  scheduled prev cur i = true ->
  exists l1 l2, commit prev cur = l1 ++ effects (body i cur) ++ l2.
Proof.
  intros H. unfold commit, commit_effects.
  assert (Hin : In i (filter (scheduled prev cur) all_effects)).
  { apply filter_In. split; [apply in_all_effects | exact H]. }
  apply in_split in Hin. destruct Hin as [a [b ->]].
  rewrite !flat_map_app. cbn [flat_map].
  set (before := match prev with
                 | Some c0 => _
                 | None => []
                 end).
  exists (before
          ++ flat_map (fun j => effects
                         (effect_body toLowerCase Date_toString j cur)) a),
         (flat_map (fun j => effects
                      (effect_body toLowerCase Date_toString j cur)) b).
  rewrite <- app_assoc. reflexivity.
Qed.

Lemma no_onMessageChange_while_typing (prev : option Ctx) (cur : Ctx)
      (m : jsstring) :
  isAssistantTyping (props cur) = true ->
  ~ In (Call_onMessageChange m) (commit prev cur).
Proof.
  intros T H. unfold commit, commit_effects in H.
  apply in_app_or in H. destruct H as [H|H].
  - destruct prev as [c0|]; [|exact H].
    apply in_flat_map in H. destruct H as [i [_ H]].
    unfold effect_cleanup in H.
    destruct i; try exact H.
    destruct (isMobile c0 && sidebarOpen c0); cbn in H;
      intuition discriminate.
  - apply in_flat_map in H. destruct H as [i [_ H]].
    revert H. unfold effect_body, effects, perform, ret, bind.
    rewrite T, ?andb_false_r.
    destruct i;
      repeat match goal with
        | |- context [if ?x then _ else _] => destruct x
        end; cbn; intuition discriminate.
Qed.

(** C6.  After a render in which recording is in progress and the
    assistant is not typing, a change of the transcript since the previous
    render (or the first render) makes the commit call [onMessageChange]
    with the new transcript.  After the render in which recording has
    stopped, with a non-empty transcript and the assistant not typing, the
    commit calls [onMessageChange] with the transcript and then focuses the
    text field.  While the assistant is typing no effect calls
    [onMessageChange]. *)
Theorem transcript_effects (cur : Ctx) :
  let t := transcript (speech cur) in
  (isRecording (speech cur) = true ->
   isAssistantTyping (props cur) = false ->
   forall prev,
     match prev with
     | Some c0 => transcript (speech c0) <> t
     | None => True
     end ->
     In (Call_onMessageChange t) (commit prev cur))
  /\ (isRecording (speech cur) = false -> t <> [] ->
      isAssistantTyping (props cur) = false ->
      forall c0,
        isRecording (speech c0) = true ->
        exists l1 l2,
          commit (Some c0) cur =
          l1 ++ [Call_onMessageChange t; Focus inputRef] ++ l2)
  /\ (isAssistantTyping (props cur) = true ->
      forall prev m, ~ In (Call_onMessageChange m) (commit prev cur)).
Proof.
  intros t. subst t. split; [|split].
  - intros R T prev Hchange.
    assert (S : scheduled prev cur effect_transcript = true).
    { destruct prev as [c0|]; [|reflexivity]. cbn.
      apply str_eqb_neq in Hchange. rewrite Hchange. reflexivity. }
    destruct (commit_runs _ _ _ S) as [l1 [l2 E]]. rewrite E.
    apply in_or_app. right. apply in_or_app. left.
    unfold body, effect_body. rewrite R, T. cbn. auto.
  - intros R Ht T c0 R0.
    assert (S : scheduled (Some c0) cur effect_recordingEnded = true).
    { cbn. rewrite R0, R. reflexivity. }
    destruct (commit_runs _ _ _ S) as [l1 [l2 E]]. rewrite E.
    exists l1, l2. do 2 f_equal.
    unfold body, effect_body. rewrite R, T, inputRef_current.
    apply truthy_nonempty in Ht. rewrite Ht. reflexivity.
  - intros T prev m. apply no_onMessageChange_while_typing. exact T.
Qed.

End EffectFacts.

(* ================================================================== *)
(** * Concrete runs *)

(** Links computed for sample field values, the last one for a type outside
    the three of the props interface. *)
Example getHref_samples :
  getHref (lit "email") (lit "  sales@electroasia.th ")
    = lit "mailto:sales@electroasia.th"
  /\ getHref (lit "email") (lit "no address") = lit "#"
  /\ getHref (lit "phone") (lit "+86 (755) 12-34 ext.") = lit "tel:+86(755)12-34"
  /\ getHref (lit "phone") (lit "n/a") = lit "#"
  /\ getHref (lit "website") (lit "www.pacificcomp.tw")
     = lit "https://www.pacificcomp.tw"
  /\ getHref (lit "website") (lit "http://example.com")
     = lit "http://example.com"
  /\ getHref (lit "website") (lit "localhost") = lit "#"
  /\ getHref (lit "fax") (lit "www.pacificcomp.tw") = lit "#".
Proof. vm_compute. repeat split. Qed.

(** Clicks in a browser whose [window.open] never throws, and in one where
    it always does. *)
Example handleClick_samples :
  handleClick (fun _ _ => None) (lit "website") (lit "www.pacificcomp.tw")
    = ([WindowOpen (lit "https://www.pacificcomp.tw") (lit "_blank")],
       Normal tt)
  /\ handleClick (fun _ _ => Some (lit "blocked")) (lit "phone") (lit "555")
     = ([WindowOpen (lit "tel:555") (lit "_blank");
         ConsoleError (lit "Error opening contact link:") (lit "blocked")],
        Normal tt)
  /\ handleClick (fun _ _ => Some (lit "blocked")) (lit "email") (lit "nobody")
     = ([], Normal tt).
Proof. vm_compute. repeat split. Qed.

(** The claim C1 as the specification words it ([mailto:], [tel:] or
    [https:] only) fails: a website value that already starts with
    [http://] is opened as it is. *)
Lemma handleClick_opens_plain_http :
  ~ (forall (env : jsstring -> jsstring -> option Exn) (t : ContactType)
            (value href target : jsstring),
        In (WindowOpen href target)
           (effects (handleClick env (type_name t) value)) ->
        (exists r, href = lit "mailto:" ++ r) \/
        (exists r, href = lit "tel:" ++ r) \/
        (exists r, href = lit "https:" ++ r)).
Proof.
  intros H.
  assert (Hin : In (WindowOpen (lit "http://example.com") (lit "_blank"))
                   (effects (handleClick (fun _ _ => None) (type_name website)
                                         (lit "http://example.com")))).
  { vm_compute. left. reflexivity. }
  apply H in Hin.
  destruct Hin as [[r E]|[[r E]|[r E]]]; vm_compute in E; discriminate.
Qed.


(** The claim C5 as the specification words it (a click on a chat row
    selects the chat) fails for a click that lands on the title of the
    row: the handler of the title stops the click and starts a rename, and
    [onChatSelect] is not called. *)
Lemma chat_title_click_does_not_select :
  ~ (forall (host : Host) (c : Ctx) (chat : Chat) (idxs : list nat)
            (e : DomEvent),
        In chat (filteredChats ascii_toLowerCase (props c)) ->
        In (Call_onChatSelect (chat_id chat))
           (bubble (fun _ _ => None) host c
                   (within_row_path ascii_toLowerCase sample_Date_toString
                                    c chat idxs)
                   click e)).
Proof.
  intros H.
  assert (Hin : In {| chat_id := lit "c1"; chat_title := lit "Electronics";
                      chat_messages := sample_messages |}
                   (filteredChats ascii_toLowerCase (props sample_ctx))).
  { vm_compute. left. reflexivity. }
  apply (H sample_host sample_ctx _ [0; 0; 0; 0]
           {| key := []; target_value := [] |}) in Hin.
  vm_compute in Hin.
  repeat (destruct Hin as [Hin|Hin]; [discriminate|]). exact Hin.
Qed.

Example sample_page_cards :
  map textContent
      (select (has_tag "CardTitle")
              (ChatPage ascii_toLowerCase sample_Date_toString sample_ctx))
    = [lit "TechSource"; lit "Pacific"]
  /\ map textContent
         (select (has_tag "p")
                 (SupplierSection ascii_toLowerCase
                                  (nth 1 sample_messages
                                       (nth 0 sample_messages
                                            (nth 0 sample_messages
                                                 {| message_id := [];
                                                    message_type := [];
                                                    message_content := [];
                                                    message_timestamp := None;
                                                    message_suppliers := None |})))))
     = [lit "Found 2 suppliers matching your criteria"].
Proof. vm_compute. split; reflexivity. Qed.

Example sample_sidebar_search :
  let c := sample_ctx_with (sample_props_with (lit "   ") (lit "ELEC") false)
                           false (sample_speech_with false []) in
  map chat_title (filteredChats ascii_toLowerCase (props c))
    = [lit "Electronics"]
  /\ textContent (ChatsTab c) = lit "CHATS 2"
  /\ is_disabled (SendButton c) = true
  /\ fire (fun _ _ => None) c (MessageInput c) keydown
          {| key := lit "Enter"; target_value := lit "   " |}
     = [Call_onSendMessage].
Proof. vm_compute. repeat split. Qed.

(** *** The theorems at concrete inputs *)

(** C9 at a website value with a scheme, one with a dot only, one with
    neither. *)
Lemma getHref_cases_witness :
  getHref (lit "website") (lit " https://a.io ") = lit "https://a.io"
  /\ getHref (lit "website") (lit "a.io") = lit "https://a.io"
  /\ getHref (lit "website") (lit "intranet") = lit "#".
Proof.
  split; [|split].
  - apply (getHref_cases (lit " https://a.io ")).
    right. exists (lit "a.io"). reflexivity.
  - apply (getHref_cases (lit "a.io")).
    + intros [[t E]|[t E]]; vm_compute in E; discriminate.
    + vm_compute. auto 10.
  - apply (getHref_cases (lit "intranet")).
    + intros [[t E]|[t E]]; vm_compute in E; discriminate.
    + vm_compute. intuition discriminate.
Defined.

(** C3 at the sample answer, which carries two suppliers. *)
Lemma supplier_section_per_message_witness :
  map textContent
      (select (has_tag "p")
              (SupplierSection ascii_toLowerCase
                 {| message_id := lit "m2"; message_type := lit "assistant";
                    message_content := lit "Here they are";
                    message_timestamp := None;
                    message_suppliers := Some sample_suppliers |}))
  = [lit "Found " ++ Number_toString 2
     ++ lit " suppliers matching your criteria"].
Proof.
  destruct (supplier_section_per_message ascii_toLowerCase
              sample_Date_toString sample_ctx
              {| message_id := lit "m2"; message_type := lit "assistant";
                 message_content := lit "Here they are";
                 message_timestamp := None;
                 message_suppliers := Some sample_suppliers |}) as [H _].
  apply (H sample_suppliers).
  - reflexivity.
  - discriminate.
Defined.

(** C5 at the first sample chat, on a mobile view, for a click on the
    message count of the row. *)
Lemma chat_row_click_selects_witness :
  let c := sample_ctx_with sample_props true (sample_speech_with false []) in
  let chat := {| chat_id := lit "c1"; chat_title := lit "Electronics";
                 chat_messages := sample_messages |} in
  let path := within_row_path ascii_toLowerCase sample_Date_toString c chat
                              [0; 1] in
  is_path path
  /\ In (Call_setSidebarOpen false)
        (bubble (fun _ _ => None) sample_host c path click
                {| key := []; target_value := [] |}).
Proof.
  intros c chat path.
  pose proof (chat_row_click_selects ascii_toLowerCase sample_Date_toString
                (fun _ _ => None) sample_host c chat [0; 1]
                {| key := []; target_value := [] |} sample_store) as H.
  cbv zeta in H. destruct H as [Hpath [_ [Hsel _]]].
  split.
  - apply Hpath. vm_compute. left. reflexivity.
  - destruct (Hsel eq_refl) as [_ [_ [Hset _]]]. apply Hset. reflexivity.
Defined.

(** C6: the transcript grows from [he] to [hello] while recording; then
    recording stops. *)
Lemma transcript_effects_witness :
  let heard (s : string) (r : bool) := sample_ctx_with sample_props false
                                   (sample_speech_with r (lit s)) in
  In (Call_onMessageChange (lit "hello"))
     (commit_effects ascii_toLowerCase sample_Date_toString
                     (Some (heard "he"%string true)) (heard "hello"%string true))
  /\ exists l1 l2,
       commit_effects ascii_toLowerCase sample_Date_toString
                      (Some (heard "hello"%string true)) (heard "hello"%string false)
       = l1 ++ [Call_onMessageChange (lit "hello"); Focus inputRef] ++ l2.
Proof.
  intros heard. split.
  - apply (transcript_effects ascii_toLowerCase sample_Date_toString
             (heard "hello"%string true)); try reflexivity.
    vm_compute. discriminate.
  - apply (transcript_effects ascii_toLowerCase sample_Date_toString
             (heard "hello"%string false)); try reflexivity.
    vm_compute. discriminate.
Defined.

(** C10: Enter on a blank message when the assistant is idle; any key when
    it is typing. *)
Lemma send_only_when_not_typing_witness :
  let idle := sample_ctx_with (sample_props_with (lit "  ") [] false) false
                              (sample_speech_with false []) in
  let busy := sample_ctx_with (sample_props_with (lit "hi") [] true) false
                              (sample_speech_with false []) in
  let enter := {| key := lit "Enter"; target_value := [] |} in
  bubble (fun _ _ => None) sample_host idle
         (input_control_path ascii_toLowerCase sample_Date_toString idle
                             (MessageInput idle)) keydown enter
    = [Call_onSendMessage]
  /\ is_disabled (SendButton idle) = true
  /\ ~ In Call_onSendMessage
          (bubble (fun _ _ => None) sample_host busy
                  (input_control_path ascii_toLowerCase sample_Date_toString
                                      busy (MessageInput busy)) keydown enter).
Proof.
  intros idle busy enter.
  pose proof (send_only_when_not_typing ascii_toLowerCase sample_Date_toString
                (fun _ _ => None) sample_host idle) as Hidle.
  pose proof (send_only_when_not_typing ascii_toLowerCase sample_Date_toString
                (fun _ _ => None) sample_host busy) as Hbusy.
  cbv zeta in Hidle, Hbusy.
  destruct Hidle as [_ [_ [Henter Hblank]]].
  destruct Hbusy as [_ [Htyping _]].
  split; [|split].
  - apply Henter; reflexivity.
  - apply Hblank. reflexivity.
  - destruct (Htyping eq_refl) as [Hnone _]. apply Hnone. left. reflexivity.
Defined.

(* ================================================================== *)
(** * Further properties *)

(** ** More on the string methods *)

Section MoreStringFacts.

Lemma trimStart_blank (s : jsstring) : is_blank s = true -> trimStart s = [].
Proof.
  unfold is_blank. induction s as [|c s IH]; cbn; [reflexivity|].
  intros H. apply andb_true_iff in H. destruct H as [Hc Hs].
  rewrite Hc. apply IH. exact Hs.
Qed.

Lemma trim_blank (s : jsstring) : is_blank s = true -> trim s = [].
Proof. intros H. unfold trim. rewrite (trimStart_blank _ H). reflexivity. Qed.

Lemma trimStart_fixed (s : jsstring) :
  match s with [] => True | c :: _ => isWhiteSpace c = false end ->
  trimStart s = s.
Proof. destruct s as [|c s]; cbn; [reflexivity|]. intros ->. reflexivity. Qed.

(** A string with no white space at either end is its own trimmed form. *)
Lemma trim_fixed (s : jsstring) :
  (forall c t, s = c :: t -> isWhiteSpace c = false) ->
  (forall c t, s = t ++ [c] -> isWhiteSpace c = false) ->
  trim s = s.
Proof.
  intros Hfirst Hlast. unfold trim, trimEnd.
  rewrite (trimStart_fixed s).
  2:{ destruct s as [|c t]; [exact I | exact (Hfirst c t eq_refl)]. }
  rewrite (trimStart_fixed (rev s)); [apply rev_involutive|].
  destruct (rev s) as [|c t] eqn:E; [exact I|].
  apply (Hlast c (rev t)). rewrite <- (rev_involutive s), E. reflexivity.
Qed.

Lemma trim_idempotent (s : jsstring) : trim (trim s) = trim s.
Proof.
  destruct (trim_spec s) as [l [r [_ [_ [_ [Hfirst Hlast]]]]]].
  apply trim_fixed; assumption.
Qed.

Lemma split_aux_join (sep : char16) (cur s : jsstring) :
  join_with sep (split_aux sep cur s) = rev cur ++ s.
Proof.
  revert cur. induction s as [|c s IH]; intros cur; cbn [split_aux].
  - cbn. rewrite app_nil_r. reflexivity.
  - destruct (N.eqb_spec c sep) as [->|Hne].
    + specialize (IH []). cbn [rev app] in IH.
      destruct (split_aux sep [] s) as [|p rest] eqn:E.
      * destruct s; cbn in E; [discriminate|].
        destruct (_ =? _)%N; discriminate.
      * cbn [join_with]. cbn [join_with] in IH.
        destruct rest; rewrite <- IH; reflexivity.
    + rewrite IH. cbn [rev]. rewrite <- app_assoc. reflexivity.
Qed.

Lemma split_aux_length (sep : char16) (cur s : jsstring) :
  length (split_aux sep cur s) = S (count_occ N.eq_dec s sep).
Proof.
  revert cur. induction s as [|c s IH]; intros cur; cbn [split_aux count_occ];
    [reflexivity|].
  destruct (N.eqb_spec c sep) as [->|Hne].
  - destruct (N.eq_dec sep sep); [|contradiction]. cbn. rewrite IH.
    reflexivity.
  - destruct (N.eq_dec c sep); [contradiction|]. apply IH.
Qed.

Lemma split_aux_no_sep (sep : char16) (cur s : jsstring) :
  ~ In sep cur -> Forall (fun p => ~ In sep p) (split_aux sep cur s).
Proof.
  revert cur. induction s as [|c s IH]; intros cur Hcur; cbn [split_aux].
  - constructor; [|constructor]. rewrite <- in_rev. exact Hcur.
  - destruct (N.eqb_spec c sep) as [->|Hne].
    + constructor; [rewrite <- in_rev; exact Hcur|]. apply IH. intros [].
    + apply IH. intros [E|H]; [congruence | exact (Hcur H)].
Qed.

Lemma split_aux_app_word (sep : char16) (cur w s : jsstring) :
  ~ In sep w ->
  split_aux sep cur (w ++ s) = split_aux sep (rev w ++ cur) s.
Proof.
  revert cur. induction w as [|x w IH]; intros cur Hw; [reflexivity|].
  cbn [app split_aux].
  destruct (N.eqb_spec x sep) as [->|Hne]; [exfalso; apply Hw; left; reflexivity|].
  rewrite IH by (intros H; apply Hw; right; exact H).
  cbn [rev]. rewrite <- app_assoc. reflexivity.
Qed.

(** Splitting what was joined gives the words back, when no word contains
    the separator. *)
Lemma split_join_with (sep : char16) (words : list jsstring) :
  words <> [] -> Forall (fun w => ~ In sep w) words ->
  split (join_with sep words) sep = words.
Proof.
  unfold split. intros Hne Hall.
  induction Hall as [|w rest Hw Hrest IH]; [congruence|].
  destruct rest as [|w' rest'].
  - cbn [join_with]. rewrite <- (app_nil_r w) at 1.
    rewrite split_aux_app_word by exact Hw.
    cbn. rewrite app_nil_r, rev_involutive. reflexivity.
  - cbn [join_with]. rewrite split_aux_app_word by exact Hw.
    cbn [split_aux]. rewrite N.eqb_refl, app_nil_r, rev_involutive.
    f_equal. apply IH. discriminate.
Qed.

End MoreStringFacts.

(* ================================================================== *)
(** ** ContactButton, further *)

Section MoreContactButtonFacts.

Variable env : jsstring -> jsstring -> option Exn.

Lemma getHref_nonempty (type value : jsstring) : getHref type value <> [].
Proof.
  destruct (getHref_shape type value) as [E|[[r E]|[[r E]|[[r E]|[r E]]]]];
    rewrite E; discriminate.
Qed.

Lemma handleClick_unfolded (type value : jsstring) :
  handleClick env type value =
  (if str_eqb (getHref type value) (lit "#") then []
   else WindowOpen (getHref type value) (lit "_blank")
        :: match env (getHref type value) (lit "_blank") with
           | Some e => [ConsoleError (lit "Error opening contact link:") e]
           | None => []
           end,
   Normal tt).
Proof.
  unfold handleClick, try_catch, window_open, console_error, perform, ret.
  pose proof (getHref_nonempty type value) as Hne.
  apply truthy_nonempty in Hne. rewrite Hne. cbn [andb].
  destruct (str_eqb (getHref type value) (lit "#")); cbn [negb];
    [reflexivity|].
  destruct (env (getHref type value) (lit "_blank")); reflexivity.
Qed.

(** X1.  What a click on a contact button does, in full: nothing when the
    link is [#]; otherwise one [window.open] of the link in a new tab,
    followed by one [console.error] carrying the exception when
    [window.open] throws.  The link is never the empty string, so the
    truthiness test of the handler decides nothing. *)
Theorem handleClick_in_full (type value : jsstring) :
  let href := getHref type value in
  href <> []
  /\ handleClick env type value =
     (if str_eqb href (lit "#") then []
      else WindowOpen href (lit "_blank")
           :: match env href (lit "_blank") with
              | Some e => [ConsoleError (lit "Error opening contact link:") e]
              | None => []
              end,
      Normal tt).
Proof.
  intros href. subst href. split; [apply getHref_nonempty|].
  apply handleClick_unfolded.
Qed.

(** X2.  A contact value that is empty or all white space gives the link
    [#] for every type, and a click then does nothing at all. *)
Theorem blank_value_opens_nothing (type value : jsstring) :
  is_blank value = true ->
  getHref type value = lit "#"
  /\ handleClick env type value = ([], Normal tt).
Proof.
  intros B.
  assert (E : getHref type value = lit "#").
  { unfold getHref. rewrite (trim_blank _ B).
    destruct (str_eqb type (lit "email")); [reflexivity|].
    destruct (str_eqb type (lit "phone")); [reflexivity|].
    destruct (str_eqb type (lit "website")); reflexivity. }
  split; [exact E|].
  rewrite handleClick_unfolded, E. reflexivity.
Qed.

Lemma phone_char_not_white (c : char16) :
  phone_char c = true -> isWhiteSpace c = false.
Proof.
  unfold phone_char. intros H. apply existsb_exists in H.
  destruct H as [d [Hd E]]. apply N.eqb_eq in E. subst d.
  vm_compute in Hd.
  repeat (destruct Hd as [<-|Hd]; [reflexivity|]). destruct Hd.
Qed.

Lemma filter_filter {A} (f : A -> bool) (l : list A) :
  filter f (filter f l) = filter f l.
Proof.
  induction l as [|x l IH]; cbn; [reflexivity|].
  destruct (f x) eqn:E; cbn; rewrite ?E, IH; reflexivity.
Qed.

Lemma last_of_app (a v t : jsstring) (c : char16) :
  v <> [] -> a ++ v = t ++ [c] -> exists t', v = t' ++ [c].
Proof.
  intros Hv E. destruct (exists_last Hv) as [t' [c' ->]].
  rewrite app_assoc in E. apply app_inj_tail in E. destruct E as [_ ->].
  exists t'. reflexivity.
Qed.

(** X3.  The phone and website links are normal forms: computing the link
    of a link returns it unchanged.  (Not so for email, where [mailto:]
    would be prefixed again.) *)
Theorem phone_and_website_links_are_stable (value : jsstring) :
  getHref (lit "phone") (getHref (lit "phone") value)
    = getHref (lit "phone") value
  /\ getHref (lit "website") (getHref (lit "website") value)
     = getHref (lit "website") value.
Proof.
  destruct (trim_spec value) as [l [r [_ [_ [_ [Hfirst Hlast]]]]]].
  split.
  - rewrite (getHref_phone value), replace_phone_regex_keeps.
    destruct (filter phone_char (trim value)) as [|x k] eqn:K;
      [reflexivity|].
    cbn [truthy]. rewrite getHref_phone, replace_phone_regex_keeps.
    assert (T : trim (lit "tel:" ++ x :: k) = lit "tel:" ++ x :: k).
    { apply trim_fixed.
      - intros c t [= <- _]. reflexivity.
      - intros c t E.
        destruct (@last_of_app (lit "tel:") (x :: k) t c) as [t' E'];
          [discriminate | exact E |].
        apply phone_char_not_white.
        assert (Hin : In c (filter phone_char (trim value))).
        { rewrite K, E'. apply in_or_app. right. left. reflexivity. }
        apply filter_In in Hin. apply Hin. }
    rewrite T, filter_app, <- K, filter_filter, K. reflexivity.
  - rewrite (getHref_website value).
    destruct (startsWith (trim value) (lit "http://")
              || startsWith (trim value) (lit "https://")) eqn:S.
    { rewrite getHref_website, trim_idempotent, S. reflexivity. }
    destruct (includes (trim value) (lit ".")) eqn:D; [|reflexivity].
    assert (Hv : trim value <> []).
    { intros E. rewrite E in D. discriminate. }
    assert (T : trim (lit "https://" ++ trim value)
                = lit "https://" ++ trim value).
    { apply trim_fixed.
      - intros c t [= <- _]. reflexivity.
      - intros c t E.
        destruct (@last_of_app (lit "https://") (trim value) t c)
          as [t' E']; [exact Hv | exact E |].
        exact (Hlast c t' E'). }
    rewrite getHref_website, T.
    assert (P : startsWith (lit "https://" ++ trim value) (lit "https://")
                = true).
    { apply startsWith_spec. exists (trim value). reflexivity. }
    rewrite P, orb_true_r. reflexivity.
Qed.

End MoreContactButtonFacts.

(** X2 at a value of two spaces and a tab. *)
Lemma blank_value_opens_nothing_witness :
  getHref (lit "email") [32; 32; 9]%N = lit "#"
  /\ handleClick (fun _ _ => None) (lit "email") [32; 32; 9]%N
     = ([], Normal tt).
Proof.
  apply (blank_value_opens_nothing (fun _ _ => None) (lit "email")
                                   [32; 32; 9]%N).
  reflexivity.
Defined.

(* ================================================================== *)
(** ** Supplier cards, further *)

Section MoreCardFacts.

Variable toLowerCase : jsstring -> jsstring.

Let Card := SupplierCard toLowerCase.

Lemma ContactButton_select (type value : jsstring) :
  select (has_tag "Button") (ContactButton type value)
  = [ContactButton type value].
Proof.
  apply select_root_only; [reflexivity|].
  unfold ContactButton. cbn [children_of]. clean_tac.
Qed.

Lemma SupplierCard_buttons (supplier : Supplier) :
  select (has_tag "Button") (Card supplier) =
  map (fun f => ContactButton (toLowerCase (field_label f)) (field_value f))
      (filter is_contact_field (supplier_fields supplier)).
Proof.
  unfold Card, SupplierCard. rewrite select_node. cbn [children_of flat_map].
  rewrite (select_clean (n := El "CardHeader" _ _ _)) by clean_tac.
  rewrite (select_node _ (El "CardContent" _ _ _)).
  cbn [children_of app flat_map].
  rewrite (select_clean (n := match find_field "Price Range" _ with
                              | Some _ => _ | None => _ end)) by clean_tac.
  rewrite !(select_clean (n := timed_row _ _)) by clean_tac.
  rewrite flat_map_select_clean by clean_tac.
  rewrite (select_node _ (El "div" _ _ (mapi _ _))). cbn [children_of].
  unfold mapi.
  rewrite flat_map_select_mapi_from
    with (g := fun f => [ContactButton (toLowerCase (field_label f))
                                       (field_value f)]).
  2:{ intros f j. rewrite select_node. cbn [children_of flat_map].
      rewrite (select_clean (n := El "span" _ _ _)) by clean_tac.
      rewrite (select_node _ (El "div" _ _ _)). cbn [children_of flat_map].
      rewrite (select_clean (n := El "span" _ _ _)) by clean_tac.
      rewrite ContactButton_select. reflexivity. }
  rewrite flat_map_singleton. cbn. rewrite ?app_nil_r. reflexivity.
Qed.

Lemma contact_label (f : SupplierField) :
  is_contact_field f = true ->
  field_label f = lit "Email" \/ field_label f = lit "Phone"
  \/ field_label f = lit "Website".
Proof.
  unfold is_contact_field. rewrite !orb_true_iff, !str_eqb_eq. tauto.
Qed.

(** X4.  A card has one contact button per field labelled [Email], [Phone]
    or [Website], in field order, and no other button.  When
    [toLowerCase] lower-cases these three labels, the type of every button
    is one of [email], [phone], [website], so the [default] branches of
    [getIcon], [getHref] and [getTitle] are never reached from a card, and
    a click on the button runs [handleClick] for that type and the field's
    value. *)
Theorem card_contact_buttons (supplier : Supplier)
        (env : jsstring -> jsstring -> option Exn) (c : Ctx) (e : DomEvent) :
  toLowerCase (lit "Email") = lit "email" ->
  toLowerCase (lit "Phone") = lit "phone" ->
  toLowerCase (lit "Website") = lit "website" ->
  select (has_tag "Button") (Card supplier) =
    map (fun f => ContactButton (toLowerCase (field_label f)) (field_value f))
        (filter is_contact_field (supplier_fields supplier))
  /\ Forall (fun b => exists t value,
                 b = ContactButton (type_name t) value /\
                 fire env c b click e
                 = effects (handleClick env (type_name t) value))
            (select (has_tag "Button") (Card supplier)).
Proof.
  intros He Hp Hw. split; [apply SupplierCard_buttons|].
  rewrite SupplierCard_buttons. apply Forall_forall. intros b Hb.
  apply in_map_iff in Hb. destruct Hb as [f [<- Hf]].
  apply filter_In in Hf. destruct Hf as [_ Hf].
  assert (Hfire : forall type value,
             fire env c (ContactButton type value) click e
             = effects (handleClick env type value)).
  { intros type value. unfold fire, ContactButton. cbn.
    apply app_nil_r. }
  destruct (contact_label f Hf) as [L|[L|L]]; rewrite L.
  - exists email, (field_value f). rewrite He. split; [reflexivity|].
    apply Hfire.
  - exists phone, (field_value f). rewrite Hp. split; [reflexivity|].
    apply Hfire.
  - exists website, (field_value f). rewrite Hw. split; [reflexivity|].
    apply Hfire.
Qed.

Lemma find_skip {A} (p : A -> bool) (l1 l2 : list A) (x : A) :
  p x = false -> find p (l1 ++ x :: l2) = find p (l1 ++ l2).
Proof.
  intros H. induction l1 as [|y l1 IH]; cbn; [rewrite H; reflexivity|].
  destruct (p y); [reflexivity | exact IH].
Qed.

Lemma find_found {A} (p : A -> bool) (l1 l2 l2' : list A) :
  find p l1 <> None -> find p (l1 ++ l2) = find p (l1 ++ l2').
Proof.
  induction l1 as [|y l1 IH]; cbn; [congruence|].
  destruct (p y); [reflexivity | exact IH].
Qed.

Lemma filter_skip {A} (p : A -> bool) (l1 l2 : list A) (x : A) :
  p x = false -> filter p (l1 ++ x :: l2) = filter p (l1 ++ l2).
Proof. intros H. rewrite !filter_app. cbn. rewrite H. reflexivity. Qed.

(** X5.  A card shows each of the labels [Location], [Rating],
    [Price Range], [Lead Time] and [Response Time] once, from the first
    field that carries it: a further field with such a label, anywhere
    after the first, changes nothing in the card. *)
Theorem repeated_header_field_is_ignored
        (id name : jsstring) (before after : list SupplierField)
        (f : SupplierField) (label : string) :
  In label header_labels ->
  field_label f = lit label ->
  find_field label before <> None ->
  Card {| supplier_id := id; supplier_name := name;
          supplier_fields := before ++ f :: after |}
  = Card {| supplier_id := id; supplier_name := name;
            supplier_fields := before ++ after |}.
Proof.
  intros Hin L Hfound.
  assert (Hfind : forall n, In n header_labels ->
             find_field n (before ++ f :: after)
             = find_field n (before ++ after)).
  { intros n Hn. unfold find_field.
    destruct (str_eqb (field_label f) (lit n)) eqn:E.
    - apply str_eqb_eq in E. rewrite L in E.
      assert (label = n) as <-.
      { cbn in Hin, Hn.
        repeat (destruct Hin as [<-|Hin]; [|]);
          try (repeat (destruct Hn as [<-|Hn]; [|]);
               try reflexivity; try (vm_compute in E; discriminate);
               try contradiction);
          contradiction. }
      apply find_found. exact Hfound.
    - apply find_skip. exact E. }
  assert (Hc : is_contact_field f = false).
  { unfold is_contact_field. rewrite L. cbn in Hin.
    repeat (destruct Hin as [<-|Hin]; [reflexivity|]). destruct Hin. }
  assert (Ho : is_other_field f = false).
  { unfold is_other_field. rewrite L. cbn in Hin.
    repeat (destruct Hin as [<-|Hin]; [reflexivity|]). destruct Hin. }
  unfold Card, SupplierCard, timed_row. cbn [supplier_fields supplier_id
                                            supplier_name].
  rewrite !(filter_skip _ _ _ _ Hc), !(filter_skip _ _ _ _ Ho).
  rewrite !(Hfind "Location"%string), !(Hfind "Rating"%string),
    !(Hfind "Price Range"%string), !(Hfind "Lead Time"%string),
    !(Hfind "Response Time"%string) by (cbn; auto 10).
  reflexivity.
Qed.

End MoreCardFacts.

(** X4 and X5 at concrete fields, with the ASCII [toLowerCase]. *)
Lemma card_contact_buttons_witness :
  map attrs_of
      (select (has_tag "Button")
              (SupplierCard ascii_toLowerCase
                 {| supplier_id := lit "s2"; supplier_name := lit "Pacific";
                    supplier_fields :=
                      [{| field_label := lit "Email";
                          field_value := lit "a@b.tw";
                          field_type := text |}] |}))
  = map attrs_of [ContactButton (lit "email") (lit "a@b.tw")].
Proof.
  destruct (card_contact_buttons ascii_toLowerCase
              {| supplier_id := lit "s2"; supplier_name := lit "Pacific";
                 supplier_fields :=
                   [{| field_label := lit "Email";
                       field_value := lit "a@b.tw";
                       field_type := text |}] |}
              (fun _ _ => None) sample_ctx
              {| key := []; target_value := [] |}
              eq_refl eq_refl eq_refl) as [H _].
  rewrite H. reflexivity.
Defined.

Lemma repeated_header_field_is_ignored_witness :
  let shenzhen := {| field_label := lit "Location";
                     field_value := lit "Shenzhen";
                     field_type := location |} in
  let taipei := {| field_label := lit "Location";
                   field_value := lit "Taipei";
                   field_type := location |} in
  SupplierCard ascii_toLowerCase
    {| supplier_id := lit "s1"; supplier_name := lit "TechSource";
       supplier_fields := [shenzhen] ++ taipei :: [] |}
  = SupplierCard ascii_toLowerCase
      {| supplier_id := lit "s1"; supplier_name := lit "TechSource";
         supplier_fields := [shenzhen] ++ [] |}.
Proof.
  intros shenzhen taipei.
  apply (@repeated_header_field_is_ignored ascii_toLowerCase (lit "s1")
           (lit "TechSource") [shenzhen] [] taipei "Location"%string).
  - left. reflexivity.
  - reflexivity.
  - discriminate.
Defined.

(* ================================================================== *)
(** ** Field values, initials and titles *)

Section MoreRenderFacts.

Variable toLowerCase : jsstring -> jsstring.
Variable Date_toString : Date -> jsstring.

Let Page := ChatPage toLowerCase Date_toString.

Lemma map_flat_map_select_mapi_from {A B} (P : Node -> bool) (h : Node -> B)
      (f : A -> nat -> Node) (g : A -> list B) (l : list A) (i : nat) :
  (forall x j, map h (select P (f x j)) = g x) ->
  map h (flat_map (select P) (mapi_from i f l)) = flat_map g l.
Proof.
  intros H. revert i. induction l as [|x l IH]; intros i; cbn;
    [reflexivity|].
  rewrite map_app, H, IH. reflexivity.
Qed.

Lemma badge_texts (value : jsstring) (f : SupplierField) :
  field_type f = badge -> field_value f = value ->
  str_eqb value (lit "N/A") = false ->
  map textContent (select (has_tag "Badge") (renderFieldValue f))
  = map trim (split value 44%N).
Proof.
  intros T V NA. unfold renderFieldValue. rewrite T, V, NA.
  rewrite select_node. cbn [children_of]. unfold mapi.
  change (if has_tag "Badge" (El "div" "flex flex-wrap gap-1" [] _)
          then _ else _) with (@nil Node).
  cbn [app].
  rewrite map_flat_map_select_mapi_from with (g := fun item => [trim item]).
  - apply flat_map_singleton.
  - intros item j. rewrite select_root_only; [|reflexivity|].
    + cbn. rewrite app_nil_r. reflexivity.
    + cbn [children_of]. clean_tac.
Qed.

(** X6.  A badge field other than [N/A] shows one badge per
    comma-separated piece of its value, each piece trimmed: one more badge
    than the value has commas (so an empty value gives one empty badge),
    and the pieces joined by commas are the value.  A badge or rating field
    whose value is exactly [N/A] shows the plain text [N/A], with no badge
    and no star. *)
Theorem field_badges_and_not_available (f : SupplierField) :
  (field_type f = badge -> field_value f <> lit "N/A" ->
   map textContent (select (has_tag "Badge") (renderFieldValue f))
     = map trim (split (field_value f) 44%N)
   /\ length (select (has_tag "Badge") (renderFieldValue f))
      = S (count_occ N.eq_dec (field_value f) 44%N)
   /\ join_with 44%N (split (field_value f) 44%N) = field_value f)
  /\ (field_type f = badge \/ field_type f = rating ->
      field_value f = lit "N/A" ->
      renderFieldValue f = El "span" "text-sm text-zinc-400" []
                              [Text (lit "N/A")]).
Proof.
  split.
  - intros T NA. apply str_eqb_neq in NA.
    pose proof (badge_texts f T eq_refl NA) as H.
    split; [exact H|]. split.
    + rewrite <- (length_map textContent), H, length_map.
      apply split_aux_length.
    + apply (split_aux_join 44%N [] (field_value f)).
  - intros [T|T] E; unfold renderFieldValue; rewrite T, E; reflexivity.
Qed.

Lemma split_aux_all_sep (sep : char16) (s : jsstring) :
  Forall (fun ch => ch = sep) s ->
  Forall (fun p => p = []) (split_aux sep [] s).
Proof.
  induction 1 as [|ch s -> _ IH]; cbn [split_aux].
  - constructor; [reflexivity | constructor].
  - rewrite N.eqb_refl. constructor; [reflexivity | exact IH].
Qed.

(** X7.  The avatar initials are never empty.  A name that is empty or all
    spaces gives [U]; a name made of non-empty words separated by single
    spaces gives the first code unit of each word, in order. *)
Theorem initials_of_name (u : UserType) :
  initials u <> []
  /\ (Forall (fun ch => ch = 32%N) (user_name u) -> initials u = lit "U")
  /\ (forall words,
         words <> [] ->
         Forall (fun w => w <> [] /\ ~ In 32%N w) words ->
         user_name u = join_with 32%N words ->
         initials u = first_letters words).
Proof.
  unfold initials, or_else, join. split; [|split].
  - destruct (truthy _) eqn:T; [|discriminate].
    apply truthy_nonempty in T. exact T.
  - intros H. apply (split_aux_all_sep) in H. fold (split (user_name u) 32%N) in H.
    assert (E : List.concat
                  (map (fun n : jsstring =>
                          match n with c :: _ => [c] | [] => [] end)
                       (split (user_name u) 32%N)) = []).
    { induction H as [|p ps -> _ IH]; cbn; [reflexivity | exact IH]. }
    rewrite E. reflexivity.
  - intros words Hne Hw E. rewrite E.
    rewrite split_join_with; [|exact Hne|].
    2:{ eapply Forall_impl; [|exact Hw]. cbn. tauto. }
    assert (M : map (fun n : jsstring =>
                       match n with c :: _ => [c] | [] => [] end) words
                = map (firstn 1) words).
    { apply map_ext. intros [|c t]; reflexivity. }
    rewrite M. fold (first_letters words).
    destruct words as [|w ws]; [congruence|].
    inversion Hw as [|? ? [Hw1 _] _]; subst.
    destruct w as [|c t]; [congruence|]. reflexivity.
Qed.

Lemma find_none_iff {A} (p : A -> bool) (l : list A) :
  find p l = None <-> forall x, In x l -> p x = false.
Proof.
  induction l as [|y l IH]; cbn; [tauto|].
  destruct (p y) eqn:E.
  - split; [discriminate|]. intros H. specialize (H y (or_introl eq_refl)).
    congruence.
  - rewrite IH. split.
    + intros H x [<-|Hx]; auto.
    + intros H x Hx. apply H. right. exact Hx.
Qed.

Lemma find_first {A} (p : A -> bool) (l1 l2 : list A) (x : A) :
  (forall y, In y l1 -> p y = false) -> p x = true ->
  find p (l1 ++ x :: l2) = Some x.
Proof.
  intros H Hx. induction l1 as [|y l1 IH]; cbn; [rewrite Hx; reflexivity|].
  rewrite (H y (or_introl eq_refl)). apply IH.
  intros z Hz. apply H. right. exact Hz.
Qed.

Lemma Header_headings (c : Ctx) :
  select (has_tag "h1") (Header c) =
  if isMobile c && null_truthy (activeChat (props c))
  then [El "h1" "text-sm md:text-xl font-semibold truncate max-w-32" []
           [Text (null_or_else (activeChatTitle (props c)) (lit "Chat"))]]
  else [].
Proof.
  unfold Header. rewrite select_node. cbn [children_of flat_map].
  rewrite (select_clean (n := El "div" "flex items-center space-x-3" _ _))
    by clean_tac.
  rewrite (select_node _ (El "div" _ _ _)). cbn [children_of flat_map].
  rewrite (select_clean (n := UserAvatarDropdown _)) by clean_tac.
  destruct (isMobile c && null_truthy (activeChat (props c))); reflexivity.
Qed.

Lemma MainArea_headings (c : Ctx) :
  select (has_tag "h1") (MainArea toLowerCase Date_toString c) =
  if isMobile c then []
  else [El "h1" "text-xl font-semibold" []
           [Text (null_or_else (activeChatTitle (props c))
                               (lit "Select a chat"))]].
Proof.
  unfold MainArea. rewrite select_node. cbn [children_of flat_map].
  rewrite (select_clean (n := MessagesArea _ _ _)) by clean_tac.
  rewrite (select_clean (n := InputBar _)) by clean_tac.
  destruct (isMobile c); reflexivity.
Qed.

(** X8.  The page has at most one heading: on a desktop view the title bar,
    on a mobile view the header title, the latter only when [activeChat] is
    a non-empty id.  Its text is the title of the first chat whose id is
    [activeChat], when there is one with a non-empty title, and the
    fallback ([Select a chat], resp. [Chat]) when [activeChat] is null, when
    no chat has that id, or when that title is empty; it is never empty. *)
Theorem page_heading (c : Ctx) :
  let p := props c in
  let title d := null_or_else (activeChatTitle p) (lit d) in
  map textContent (select (has_tag "h1") (Page c)) =
    (if isMobile c
     then if null_truthy (activeChat p) then [title "Chat"%string] else []
     else [title "Select a chat"%string])
  /\ (forall d, lit d <> [] -> title d <> [])
  /\ (forall d, (forall a chat, activeChat p = Some a -> In chat (chats p) ->
                                chat_id chat <> a) ->
                title d = lit d)
  /\ (forall d a before chat after,
         activeChat p = Some a ->
         chats p = before ++ chat :: after ->
         (forall x, In x before -> chat_id x <> a) ->
         chat_id chat = a ->
         title d = if truthy (chat_title chat) then chat_title chat else lit d).
Proof.
  intros p title. subst p title. split; [|split; [|split]].
  - unfold Page, ChatPage. rewrite select_node. cbn [children_of flat_map].
    rewrite Header_headings. unfold Body.
    rewrite (select_node _ (El _ _ _ _)). cbn [children_of flat_map].
    rewrite (select_clean (n := Sidebar _ _)) by clean_tac.
    rewrite (select_clean (n := if isMobile c && sidebarOpen c then _ else _))
      by clean_tac.
    rewrite MainArea_headings.
    destruct (isMobile c); cbn [andb]; [|cbn; rewrite app_nil_r; reflexivity].
    destruct (null_truthy (activeChat (props c))); cbn;
      rewrite ?app_nil_r; reflexivity.
  - intros d Hd. unfold null_or_else, or_else.
    destruct (activeChatTitle (props c)) as [t|]; [|exact Hd].
    destruct (truthy t) eqn:T; [|exact Hd].
    apply truthy_nonempty. exact T.
  - intros d H. unfold activeChatTitle.
    assert (E : find (fun c0 => null_eqb (activeChat (props c)) (chat_id c0))
                     (chats (props c)) = None).
    { apply find_none_iff. intros x Hx. unfold null_eqb.
      destruct (activeChat (props c)) as [a|] eqn:A; [|reflexivity].
      apply str_eqb_neq. intros E. exact (H a x eq_refl Hx (eq_sym E)). }
    rewrite E. reflexivity.
  - intros d a before chat after A E Hbefore Hid.
    unfold activeChatTitle. rewrite E, A.
    rewrite find_first.
    + reflexivity.
    + intros y Hy. cbn. apply str_eqb_neq. intros E'.
      exact (Hbefore y Hy (eq_sym E')).
    + cbn. apply str_eqb_eq. symmetry. exact Hid.
Qed.

End MoreRenderFacts.

(* ================================================================== *)
(** ** The messages area, the refs and the effects, further *)

Section MoreEffectFacts.

Variable toLowerCase : jsstring -> jsstring.
Variable Date_toString : Date -> jsstring.

Let Page := ChatPage toLowerCase Date_toString.
Let Area := MessagesArea toLowerCase Date_toString.
Let commit := commit_effects toLowerCase Date_toString.
Let body := effect_body toLowerCase Date_toString.

Lemma existsb_filter {A} (P : A -> bool) (l : list A) :
  existsb P l = match filter P l with [] => false | _ :: _ => true end.
Proof.
  induction l as [|x l IH]; cbn; [reflexivity|].
  destruct (P x); [reflexivity | exact IH].
Qed.

(** Reduces a selection over the page to the selection over the messages
    area, for a test that nothing outside the area satisfies. *)
Ltac into_messages_area c :=
  unfold ChatPage; rewrite select_node; cbn [children_of flat_map];
  rewrite (select_clean (n := Header c)) by clean_tac;
  unfold Body; rewrite (select_node _ (El _ _ _ _));
  cbn [children_of flat_map];
  rewrite (select_clean (n := Sidebar _ c)) by clean_tac;
  rewrite (select_clean (n := if isMobile c && sidebarOpen c then _ else _))
    by clean_tac;
  unfold MainArea; rewrite (select_node _ (El "main" _ _ _));
  cbn [children_of flat_map];
  rewrite (select_clean (n := if negb (isMobile c) then _ else _))
    by clean_tac;
  rewrite (select_clean (n := InputBar c)) by clean_tac;
  unfold MessagesArea; rewrite (select_node _ (El "div" _ _ _));
  cbn [children_of flat_map].

Lemma typing_indicator_shown (c : Ctx) :
  select (has_class "space-x-1 px-2 py-1") (Page c) =
  if isAssistantTyping (props c) && negb (length (messages (props c)) =? 0)
  then [TypingIndicator] else [].
Proof.
  unfold Page. into_messages_area c.
  destruct (messages (props c)) as [|m l] eqn:E.
  { rewrite andb_false_r. reflexivity. }
  change (length (m :: l) =? 0) with false. cbv iota.
  rewrite select_node. cbn [children_of]. rewrite flat_map_app.
  rewrite flat_map_select_clean by clean_tac.
  destruct (isAssistantTyping (props c)); reflexivity.
Qed.

Lemma scroll_anchor_present (c : Ctx) :
  select (has_ref messagesEndRef) (Page c) =
  if length (messages (props c)) =? 0 then []
  else [El "div" "" [ref messagesEndRef] []].
Proof.
  unfold Page. into_messages_area c.
  destruct (messages (props c)) as [|m l] eqn:E; [reflexivity|].
  change (length (m :: l) =? 0) with false. cbv iota.
  rewrite select_node. cbn [children_of]. rewrite flat_map_app.
  rewrite flat_map_select_clean by clean_tac.
  destruct (isAssistantTyping (props c)); reflexivity.
Qed.

(** X9.  With no messages the area shows the text [No messages yet.] and
    nothing else: no typing indicator, even while the assistant is typing,
    and no scroll anchor, so the scroll effect does nothing.  With messages,
    the typing indicator is on the page exactly while the assistant is
    typing, the anchor is there, and the scroll effect scrolls it into
    view. *)
Theorem messages_area_edges (c : Ctx) :
  let none := length (messages (props c)) =? 0 in
  select (has_class "space-x-1 px-2 py-1") (Page c) =
    (if isAssistantTyping (props c) && negb none
     then [TypingIndicator] else [])
  /\ select (has_ref messagesEndRef) (Page c) =
     (if none then [] else [El "div" "" [ref messagesEndRef] []])
  /\ (none = true ->
      map textContent (children_of (Area c)) = [lit "No messages yet."])
  /\ effects (body effect_scroll c) =
     (if none then [] else [ScrollIntoView messagesEndRef]).
Proof.
  intros none. subst none.
  split; [apply typing_indicator_shown|].
  split; [apply scroll_anchor_present|]. split.
  - intros H. unfold Area, MessagesArea. cbn [children_of map].
    rewrite H. reflexivity.
  - unfold body, effect_body, ref_current. rewrite existsb_filter.
    fold (select (has_ref messagesEndRef)
                 (ChatPage toLowerCase Date_toString c)).
    fold (Page c). rewrite scroll_anchor_present.
    destruct (length (messages (props c)) =? 0); reflexivity.
Qed.

Lemma rename_fields_listed (c : Ctx) :
  match flat_map (rename_field_of c) (filteredChats toLowerCase (props c)) with
  | [] => false
  | _ :: _ => true
  end = renaming_is_listed toLowerCase (props c).
Proof.
  unfold renaming_is_listed, rename_field_of.
  induction (filteredChats toLowerCase (props c)) as [|chat l IH]; cbn;
    [reflexivity|].
  destruct (null_eqb (renamingChatId (props c)) (chat_id chat)); cbn;
    [reflexivity | exact IH].
Qed.

(** X10.  The rename field is on the page exactly when a chat that passes
    the search filter has the id [renamingChatId]; the focus effect focuses
    it then, and only when that id is a non-empty string.  In particular a
    chat that is being renamed but is hidden by the search shows no rename
    field and gets no focus. *)
Theorem rename_focus_needs_listed_chat (c : Ctx) :
  let p := props c in
  ref_current toLowerCase Date_toString renameInputRef c
    = renaming_is_listed toLowerCase p
  /\ effects (body effect_renameFocus c) =
     (if null_truthy (renamingChatId p) && renaming_is_listed toLowerCase p
      then [Focus renameInputRef] else [])
  /\ ((forall chat, In chat (chats p) ->
                    null_eqb (renamingChatId p) (chat_id chat) = true ->
                    includes (toLowerCase (chat_title chat))
                             (toLowerCase (search p)) = false) ->
      select (has_ref renameInputRef) (Page c) = []
      /\ effects (body effect_renameFocus c) = []).
Proof.
  intros p. subst p.
  assert (R : ref_current toLowerCase Date_toString renameInputRef c
              = renaming_is_listed toLowerCase (props c)).
  { unfold ref_current. rewrite existsb_filter.
    fold (select (has_ref renameInputRef)
                 (ChatPage toLowerCase Date_toString c)).
    rewrite ChatPage_rename_fields. apply rename_fields_listed. }
  assert (B : effects (body effect_renameFocus c) =
              if null_truthy (renamingChatId (props c))
                 && renaming_is_listed toLowerCase (props c)
              then [Focus renameInputRef] else []).
  { unfold body, effect_body. rewrite R.
    destruct (null_truthy _ && renaming_is_listed _ _); reflexivity. }
  split; [exact R|]. split; [exact B|].
  intros H.
  assert (L : renaming_is_listed toLowerCase (props c) = false).
  { unfold renaming_is_listed.
    destruct (existsb _ _) eqn:E; [|reflexivity].
    apply existsb_exists in E. destruct E as [chat [Hin Hid]].
    apply filter_In in Hin. destruct Hin as [Hin Hinc].
    rewrite (H chat Hin Hid) in Hinc. discriminate. }
  split.
  - unfold Page. rewrite ChatPage_rename_fields.
    pose proof (rename_fields_listed c) as F. rewrite L in F.
    destruct (flat_map _ _); [reflexivity | discriminate].
  - rewrite B, L, andb_false_r. reflexivity.
Qed.

Lemma commit_filter (P : Effect -> bool) (prev : option Ctx) (cur : Ctx) :
  filter P (commit prev cur) =
  match prev with
  | Some c0 =>
      flat_map (fun i => if scheduled prev cur i
                         then filter P (effect_cleanup i c0) else [])
               all_effects
  | None => []
  end
  ++ flat_map (fun i => if scheduled prev cur i
                        then filter P (effects (body i cur)) else [])
              all_effects.
Proof.
  assert (G : forall (g : EffectId -> list Effect) l,
             filter P (flat_map g (filter (scheduled prev cur) l)) =
             flat_map (fun i => if scheduled prev cur i
                                then filter P (g i) else []) l).
  { intros g l. induction l as [|i l IH]; cbn; [reflexivity|].
    destruct (scheduled prev cur i); cbn; [|exact IH].
    rewrite filter_app, IH. reflexivity. }
  unfold commit, commit_effects. rewrite filter_app, G.
  destruct prev as [c0|]; [rewrite G|]; reflexivity.
Qed.

Lemma cleanup_filter (P : Effect -> bool) (i : EffectId) (c0 : Ctx) :
  P RemoveDocumentClickListener = false -> filter P (effect_cleanup i c0) = [].
Proof.
  intros H. unfold effect_cleanup. destruct i; try reflexivity.
  destruct (isMobile c0 && sidebarOpen c0); cbn; rewrite ?H; reflexivity.
Qed.

Lemma cleanups_filter (P : Effect -> bool) (prev : option Ctx) (cur c0 : Ctx) :
  P RemoveDocumentClickListener = false ->
  flat_map (fun i => if scheduled prev cur i
                     then filter P (effect_cleanup i c0) else [])
           all_effects = [].
Proof.
  intros H. induction all_effects as [|i l IH]; cbn; [reflexivity|].
  rewrite IH, (cleanup_filter P i c0 H).
  destruct (scheduled prev cur i); reflexivity.
Qed.

(** The two transcript effects list the same four dependencies, so they
    always run together. *)
Lemma transcript_effects_run_together (prev : option Ctx) (cur : Ctx) :
  scheduled prev cur effect_recordingEnded
  = scheduled prev cur effect_transcript.
Proof.
  destruct prev as [c0|]; [|reflexivity].
  cbn [scheduled deps same_deps Object_is]. f_equal.
  destruct (str_eqb _ _), (Bool.eqb (isRecording _) _), (Bool.eqb _ _),
    (N.eqb _ _); reflexivity.
Qed.

Lemma scheduled_transcript_iff (c0 cur : Ctx) :
  scheduled (Some c0) cur effect_transcript = false <->
  transcript (speech c0) = transcript (speech cur)
  /\ isRecording (speech c0) = isRecording (speech cur)
  /\ isAssistantTyping (props c0) = isAssistantTyping (props cur)
  /\ onMessageChange (props c0) = onMessageChange (props cur).
Proof.
  cbn [scheduled deps same_deps Object_is].
  rewrite negb_false_iff, !andb_true_iff, str_eqb_eq, !Bool.eqb_true_iff,
    N.eqb_eq. tauto.
Qed.

(** X11.  In one commit [onMessageChange] is called at most once, always
    with the current transcript, and exactly when one of its four
    dependencies (transcript, recording flag, typing flag, the callback
    itself) changed or the component just mounted, the assistant is not
    typing, and recording is on or the transcript is not empty.  So when
    the assistant stops typing while the hook still holds a transcript, the
    transcript is written to the input again.  No effect ever calls
    [onSendMessage]: dictated text is never sent by itself. *)
Theorem onMessageChange_calls_of_a_commit (prev : option Ctx) (cur : Ctx) :
  let t := transcript (speech cur) in
  let typing := isAssistantTyping (props cur) in
  filter is_onMessageChange (commit prev cur) =
    (if scheduled prev cur effect_transcript && negb typing
        && (isRecording (speech cur) || truthy t)
     then [Call_onMessageChange t] else [])
  /\ (scheduled prev cur effect_transcript = false <->
      exists c0, prev = Some c0
                 /\ transcript (speech c0) = t
                 /\ isRecording (speech c0) = isRecording (speech cur)
                 /\ isAssistantTyping (props c0) = typing
                 /\ onMessageChange (props c0) = onMessageChange (props cur))
  /\ (forall c0, prev = Some c0 ->
                 isAssistantTyping (props c0) = true -> typing = false ->
                 isRecording (speech cur) = false -> t <> [] ->
                 In (Call_onMessageChange t) (commit prev cur))
  /\ ~ In Call_onSendMessage (commit prev cur).
Proof.
  intros t typing. subst t typing.
  assert (F : filter is_onMessageChange (commit prev cur) =
              if scheduled prev cur effect_transcript
                 && negb (isAssistantTyping (props cur))
                 && (isRecording (speech cur)
                     || truthy (transcript (speech cur)))
              then [Call_onMessageChange (transcript (speech cur))]
              else []).
  { rewrite commit_filter.
    assert (C : match prev with
                | Some c0 =>
                    flat_map (fun i => if scheduled prev cur i
                                       then filter is_onMessageChange
                                                   (effect_cleanup i c0)
                                       else []) all_effects
                | None => []
                end = []).
    { destruct prev; [apply cleanups_filter|]; reflexivity. }
    rewrite C. cbn [all_effects flat_map app].
    rewrite transcript_effects_run_together.
    unfold body, effect_body, effects, perform, ret, bind.
    destruct (scheduled prev cur effect_transcript);
      destruct (isRecording (speech cur));
      destruct (isAssistantTyping (props cur));
      destruct (truthy (transcript (speech cur)));
      cbn [andb orb negb];
      repeat match goal with
        | |- context [if ?b then _ else _] => destruct b
        end; reflexivity. }
  split; [exact F|]. split; [|split].
  - destruct prev as [c0|].
    + rewrite scheduled_transcript_iff. split.
      * intros H. exists c0. tauto.
      * intros [c1 [[= <-] H]]. exact H.
    + cbn. split; [discriminate | intros [c0 [E _]]; discriminate].
  - intros c0 -> T0 T R Ht.
    assert (S : scheduled (Some c0) cur effect_transcript = true).
    { destruct (scheduled (Some c0) cur effect_transcript) eqn:S;
        [reflexivity|].
      apply scheduled_transcript_iff in S. destruct S as [_ [_ [S _]]].
      congruence. }
    apply truthy_nonempty in Ht.
    rewrite S, T, R, Ht in F. cbn [andb orb negb] in F.
    assert (I : In (Call_onMessageChange (transcript (speech cur)))
                   (filter is_onMessageChange (commit (Some c0) cur))).
    { rewrite F. left. reflexivity. }
    apply filter_In in I. apply I.
  - intros H.
    assert (I : In Call_onSendMessage
                   (filter (fun x => match x with
                                     | Call_onSendMessage => true
                                     | _ => false
                                     end) (commit prev cur))).
    { apply filter_In. split; [exact H | reflexivity]. }
    rewrite commit_filter in I. apply in_app_or in I. destruct I as [I|I].
    + destruct prev as [c0|]; [|exact I].
      rewrite cleanups_filter in I; [exact I | reflexivity].
    + apply in_flat_map in I. destruct I as [i [_ I]].
      destruct (scheduled prev cur i); [|exact I].
      apply filter_In in I. destruct I as [I _]. revert I.
      unfold body, effect_body, effects, perform, ret, bind.
      destruct i;
        repeat match goal with
          | |- context [if ?b then _ else _] => destruct b
          end; cbn; intuition discriminate.
Qed.

(** X12.  In one commit [setTranscript] is called at most once, always
    with the empty string, and exactly when the current message, the
    recording flag or the setter changed (or on mount) while the current
    message is empty and recording is off.  So the commit after the message
    was cleared, for instance by sending it, resets the transcript. *)
Theorem setTranscript_calls_of_a_commit (prev : option Ctx) (cur : Ctx) :
  filter is_setTranscript (commit prev cur) =
    (if scheduled prev cur effect_clearTranscript
        && negb (truthy (currentMessage (props cur)))
        && negb (isRecording (speech cur))
     then [Call_setTranscript []] else [])
  /\ (forall c0, prev = Some c0 ->
                 currentMessage (props c0) <> [] ->
                 currentMessage (props cur) = [] ->
                 isRecording (speech cur) = false ->
                 In (Call_setTranscript []) (commit prev cur)).
Proof.
  assert (F : filter is_setTranscript (commit prev cur) =
              if scheduled prev cur effect_clearTranscript
                 && negb (truthy (currentMessage (props cur)))
                 && negb (isRecording (speech cur))
              then [Call_setTranscript []] else []).
  { rewrite commit_filter.
    assert (C : match prev with
                | Some c0 =>
                    flat_map (fun i => if scheduled prev cur i
                                       then filter is_setTranscript
                                                   (effect_cleanup i c0)
                                       else []) all_effects
                | None => []
                end = []).
    { destruct prev; [apply cleanups_filter|]; reflexivity. }
    rewrite C. cbn [all_effects flat_map app].
    unfold body, effect_body, effects, perform, ret, bind.
    destruct (scheduled prev cur effect_clearTranscript);
      destruct (truthy (currentMessage (props cur)));
      destruct (isRecording (speech cur));
      cbn [andb orb negb];
      repeat match goal with
        | |- context [if ?b then _ else _] => destruct b
        end; reflexivity. }
  split; [exact F|].
  intros c0 -> H0 H1 R.
  assert (S : scheduled (Some c0) cur effect_clearTranscript = true).
  { cbn [scheduled deps same_deps Object_is]. rewrite H1.
    destruct (currentMessage (props c0)); [congruence | reflexivity]. }
  rewrite S, H1, R in F. cbn [andb orb negb truthy] in F.
  assert (I : In (Call_setTranscript [])
                 (filter is_setTranscript (commit (Some c0) cur))).
  { rewrite F. left. reflexivity. }
  apply filter_In in I. apply I.
Qed.

Lemma bodies_remove_nothing (i : EffectId) (c : Ctx) :
  filter (fun x => match x with
                   | RemoveDocumentClickListener => true
                   | _ => false
                   end) (effects (body i c)) = [].
Proof.
  unfold body, effect_body, effects, perform, ret, bind.
  destruct i;
    repeat match goal with
      | |- context [if ?b then _ else _] => destruct b
      end; reflexivity.
Qed.

Lemma listeners_of_a_commit (prev : option Ctx) (cur : Ctx) :
  listeners_added (commit prev cur) =
    (if scheduled prev cur effect_outsideClick && wants_listener (Some cur)
     then 1 else 0)
  /\ listeners_removed (commit prev cur) =
     (if scheduled prev cur effect_outsideClick && wants_listener prev
      then 1 else 0).
Proof.
  unfold listeners_added, listeners_removed. rewrite !commit_filter. split.
  - assert (C : match prev with
                | Some c0 =>
                    flat_map (fun i => if scheduled prev cur i
                                       then filter
                                              (fun x => match x with
                                                        | AddDocumentClickListener => true
                                                        | _ => false
                                                        end)
                                              (effect_cleanup i c0)
                                       else []) all_effects
                | None => []
                end = []).
    { destruct prev; [apply cleanups_filter|]; reflexivity. }
    rewrite C. cbn [all_effects flat_map app wants_listener].
    unfold body, effect_body, effects, perform, ret, bind.
    destruct (scheduled prev cur effect_outsideClick);
      destruct (isMobile cur && sidebarOpen cur);
      cbn [andb];
      repeat match goal with
        | |- context [if ?b then _ else _] => destruct b
        end; reflexivity.
  - assert (B : flat_map (fun i => if scheduled prev cur i
                                   then filter
                                          (fun x => match x with
                                                    | RemoveDocumentClickListener => true
                                                    | _ => false
                                                    end)
                                          (effects (body i cur))
                                   else []) all_effects = []).
    { induction all_effects as [|i l IH]; cbn; [reflexivity|].
      rewrite IH, bodies_remove_nothing.
      destruct (scheduled prev cur i); reflexivity. }
    rewrite B, app_nil_r.
    destruct prev as [c0|]; [|rewrite andb_false_r; reflexivity].
    cbn [all_effects flat_map app wants_listener effect_cleanup].
    destruct (scheduled (Some c0) cur effect_outsideClick);
      destruct (isMobile c0 && sidebarOpen c0);
      cbn [andb];
      repeat match goal with
        | |- context [if ?b then _ else _] => destruct b
        end; reflexivity.
Qed.

Lemma unscheduled_listener (c0 cur : Ctx) :
  scheduled (Some c0) cur effect_outsideClick = false ->
  wants_listener (Some c0) = wants_listener (Some cur).
Proof.
  cbn [scheduled deps same_deps Object_is wants_listener].
  rewrite negb_false_iff, !andb_true_iff, !Bool.eqb_true_iff.
  intros [-> [-> _]]. reflexivity.
Qed.

Lemma listeners_step (prev : option Ctx) (cur : Ctx) :
  listeners_added (commit prev cur)
  + (if wants_listener prev then 1 else 0)
  = listeners_removed (commit prev cur)
    + (if wants_listener (Some cur) then 1 else 0).
Proof.
  destruct (listeners_of_a_commit prev cur) as [-> ->].
  destruct (scheduled prev cur effect_outsideClick) eqn:S.
  - cbn [andb]. destruct (wants_listener prev), (wants_listener (Some cur));
      reflexivity.
  - cbn [andb]. destruct prev as [c0|]; [|discriminate].
    rewrite (unscheduled_listener _ _ S). reflexivity.
Qed.

Lemma last_render_cons (prev : option Ctx) (c : Ctx) (rest : list Ctx) :
  last_render prev (c :: rest) = last_render (Some c) rest.
Proof.
  unfold last_render. cbn [rev].
  destruct (rev rest) as [|x l]; reflexivity.
Qed.

(** X13.  The document click listener is never registered twice and never
    leaked: over the commits of any sequence of renders, the registrations
    are as many as the removals, plus one exactly when the last render is a
    mobile view with the sidebar open (on top of the listener the render
    before the sequence had, if any). *)
Theorem document_listener_balance (prev : option Ctx) (renders : list Ctx) :
  let log := commit_trace toLowerCase Date_toString prev renders in
  listeners_added log + (if wants_listener prev then 1 else 0)
  = listeners_removed log
    + (if wants_listener (last_render prev renders) then 1 else 0).
Proof.
  cbv zeta. revert prev.
  induction renders as [|c rest IH]; intros prev; [reflexivity|].
  cbn [commit_trace]. rewrite last_render_cons.
  unfold listeners_added, listeners_removed in *.
  rewrite !filter_app, !length_app.
  pose proof (listeners_step prev c) as H.
  unfold listeners_added, listeners_removed, commit in H.
  specialize (IH (Some c)). lia.
Qed.

End MoreEffectFacts.

(* ================================================================== *)
(** ** Clicks, further *)

Section MoreEventFacts.

Variable toLowerCase : jsstring -> jsstring.
Variable Date_toString : Date -> jsstring.
Variable env : jsstring -> jsstring -> option Exn.
Variable host : Host.

(** X14.  On a mobile view with the sidebar open, every click whose
    propagation no handler stops, wherever it lands, leaves the sidebar
    closed: either a handler closed it, or the document listener is still
    there, runs last and clears the flag. *)
Theorem open_mobile_sidebar_closes_on_click
        (c : Ctx) (path : list Node) (e : DomEvent) (s : Store) :
  isMobile c = true -> sidebarOpen c = true ->
  existsb is_StopPropagation (bubble env host c path click e) = false ->
  st_sidebarOpen (performed (bubble env host c path click e) s) = false.
Proof.
  intros M O H. unfold bubble in *.
  set (l := handlers_run env c path click e) in *.
  rewrite existsb_app in H. apply orb_false_iff in H. destruct H as [Hl _].
  cbn [performed st_sidebarOpen]. rewrite apply_setSidebarOpen_app.
  unfold document_click, handleOutsideClick. rewrite M, O, Hl.
  cbn [negb andb].
  destruct (apply_setSidebarOpen_fixes l) as [K|[v K]]; rewrite !K.
  - destruct (root_is_document host), (flushes_in_event host); reflexivity.
  - destruct (root_is_document host), (flushes_in_event host), v;
      reflexivity.
Qed.

(** X15.  The microphone button does nothing when voice input is
    unsupported or the assistant is typing.  Otherwise one click calls
    [stopListening] when recording is on and [startListening] when it is
    off; whatever else the click reaches on its way up can only close the
    sidebar. *)
Theorem mic_button_click (c : Ctx) (e : DomEvent) :
  let own := fire env c (MicButton c) click e in
  own = (if negb (isSupported (speech c)) || isAssistantTyping (props c)
         then []
         else if isRecording (speech c) then [Call_stopListening]
              else [Call_startListening])
  /\ forall x,
       In x (bubble env host c
                    (input_control_path toLowerCase Date_toString c
                                        (MicButton c)) click e) ->
       In x own \/ x = Call_setSidebarOpen false.
Proof.
  intros own. subst own.
  assert (F : fire env c (MicButton c) click e =
              if negb (isSupported (speech c)) || isAssistantTyping (props c)
              then []
              else if isRecording (speech c) then [Call_stopListening]
                   else [Call_startListening]).
  { destruct (controls_disabled c) as [_ [D _]].
    unfold fire. rewrite D.
    destruct (negb (isSupported (speech c)) || isAssistantTyping (props c));
      [reflexivity|].
    unfold MicButton. cbn [handlers_of attrs_of flat_map app].
    destruct (isRecording (speech c)); reflexivity. }
  split; [exact F|].
  intros x. rewrite bubble_from_control. intros H.
  apply in_app_or in H. destruct H as [H|H]; [left; exact H|].
  right. apply document_click_closes in H. exact (proj1 H).
Qed.

(** What the document listener does after handlers that stopped the click
    and left the sidebar alone: nothing where React listens below the
    document; where it listens on the document, the listener of an open
    mobile sidebar still runs. *)
Lemma document_click_after_stop (c : Ctx) (l : list Effect) :
  existsb is_StopPropagation l = true ->
  (forall b, apply_setSidebarOpen l b = b) ->
  document_click host c l =
  if root_is_document host && isMobile c && sidebarOpen c
  then [Call_setSidebarOpen false] else [].
Proof.
  intros S K. unfold document_click, handleOutsideClick. rewrite S, K.
  destruct (root_is_document host), (flushes_in_event host), (isMobile c),
    (sidebarOpen c); reflexivity.
Qed.

(** X16.  Inside the row of a chat that is not being renamed, a click on
    the title or on the pencil calls [onStartRename] for the chat and goes
    no further up: the chat is not selected, whereas a click on the message
    count goes on to the row and selects the chat.  Inside the row of the
    chat being renamed, a click in the rename field calls nothing of the
    parent's; a key, a change and a blur there call [onRenameKeyDown],
    [onRenameChange] and [onRenameSave] with the chat's id and nothing
    else.  A stopped click is still heard by the document listener of an
    open mobile sidebar where React itself listens on the document, and
    then closes the sidebar. *)
Theorem clicks_inside_a_chat_row (c : Ctx) (chat : Chat) (e : DomEvent) :
  let from idxs k :=
    bubble env host c
           (within_row_path toLowerCase Date_toString c chat idxs) k e in
  let id := chat_id chat in
  let overheard :=
    if root_is_document host && isMobile c && sidebarOpen c
    then [Call_setSidebarOpen false] else [] in
  (In chat (filteredChats toLowerCase (props c)) ->
   forall idxs,
     is_path (within_row_path toLowerCase Date_toString c chat idxs))
  /\ (null_eqb (renamingChatId (props c)) id = false ->
      from [0; 0; 0; 0] click
      = [StopPropagation; Call_onStartRename chat] ++ overheard
      /\ from [0; 0; 0; 1] click
         = [StopPropagation; Call_onStartRename chat] ++ overheard
      /\ from [0; 1] click =
         bubble env host c (chat_row_path toLowerCase Date_toString c chat)
                click e
      /\ In (Call_onChatSelect id) (from [0; 1] click))
  /\ (null_eqb (renamingChatId (props c)) id = true ->
      from [0; 0; 0] click = [StopPropagation] ++ overheard
      /\ from [0; 0; 0] keydown = [Call_onRenameKeyDown e id]
      /\ from [0; 0; 0] change = [Call_onRenameChange (target_value e)]
      /\ from [0; 0; 0] blur = [Call_onRenameSave id]).
Proof.
  intros from id overheard. subst from id overheard.
  assert (Hcount : handlers_run env c
                     (within_row_path toLowerCase Date_toString c chat [0; 1])
                     click e
                   = handlers_run env c
                       (chat_row_path toLowerCase Date_toString c chat)
                       click e).
  { unfold within_row_path, chat_row_path, ChatRow at 1.
    cbn [path_down children_of nth_error rev app tl].
    rewrite !(handlers_run_skip env) by reflexivity. reflexivity. }
  split; [|split; intros R].
  - intros Hin idxs. unfold within_row_path. apply path_down_is_path.
    apply (row_is_path _ _ _ _ Hin).
  - assert (T : forall i, i = 0 \/ i = 1 ->
                  handlers_run env c
                    (within_row_path toLowerCase Date_toString c chat
                                     [0; 0; 0; i]) click e
                  = [StopPropagation; Call_onStartRename chat]).
    { intros i [->| ->]; unfold within_row_path, ChatRow; rewrite R;
        reflexivity. }
    split; [|split; [|split]].
    + unfold bubble. rewrite (T 0) by (left; reflexivity).
      rewrite document_click_after_stop; reflexivity.
    + unfold bubble. rewrite (T 1) by (right; reflexivity).
      rewrite document_click_after_stop; reflexivity.
    + unfold bubble. rewrite Hcount. reflexivity.
    + unfold bubble. rewrite Hcount, handlers_run_from_row.
      left. reflexivity.
  - assert (T : forall k,
                  handlers_run env c
                    (within_row_path toLowerCase Date_toString c chat
                                     [0; 0; 0]) k e
                  = match k with
                    | click => [StopPropagation]
                    | change => [Call_onRenameChange (target_value e)]
                    | keydown => [Call_onRenameKeyDown e (chat_id chat)]
                    | blur => [Call_onRenameSave (chat_id chat)]
                    end).
    { intros k. unfold within_row_path, ChatRow. rewrite R.
      destruct k; reflexivity. }
    unfold bubble. rewrite !T.
    split; [|split; [|split]]; try reflexivity.
    rewrite document_click_after_stop; reflexivity.
Qed.

End MoreEventFacts.

(** X14 at a mobile view with the sidebar open and a click on the [CHATS]
    tab. *)
Lemma open_mobile_sidebar_closes_on_click_witness :
  let c := {| props := sample_props; isMobile := true; sidebarOpen := true;
              speech := sample_speech_with false [];
              messages_identity := 30%N |} in
  st_sidebarOpen
    (performed
       (bubble (fun _ _ => None) sample_host c
               [ChatsTab c; Sidebar ascii_toLowerCase c;
                Body ascii_toLowerCase sample_Date_toString c;
                ChatPage ascii_toLowerCase sample_Date_toString c]
               click {| key := []; target_value := [] |})
       sample_store) = false.
Proof.
  intros c.
  apply (open_mobile_sidebar_closes_on_click (fun _ _ => None) sample_host c);
    reflexivity.
Defined.

(* ================================================================== *)
(** ** Keys of the message rows *)

Section MessageKeyFacts.

Variable toLowerCase : jsstring -> jsstring.
Variable Date_toString : Date -> jsstring.

Let key_of := message_key Date_toString.

Lemma lit_cons (a : ascii) (s : string) :
  lit (String a s) = N_of_ascii a :: lit s.
Proof. reflexivity. Qed.

Lemma lit_injective (s1 s2 : string) : lit s1 = lit s2 -> s1 = s2.
Proof.
  revert s2. induction s1 as [|a s1 IH]; intros [|b s2]; try discriminate;
    [reflexivity|].
  rewrite !lit_cons. intros [= E1 E2].
  apply (f_equal ascii_of_N) in E1. rewrite !ascii_N_embedding in E1.
  subst b. f_equal. apply IH. exact E2.
Qed.

Lemma to_uint_not_Nil (n : nat) : Nat.to_uint n <> Decimal.Nil.
Proof.
  intros E. pose proof (DecimalNat.Unsigned.of_to n) as H.
  rewrite E in H. cbn in H. subst n. discriminate.
Qed.

Lemma Number_toString_injective (i j : nat) :
  Number_toString i = Number_toString j -> i = j.
Proof.
  unfold Number_toString. intros E. apply lit_injective in E.
  apply (f_equal NilZero.uint_of_string) in E.
  rewrite !NilZero.usu in E by apply to_uint_not_Nil.
  injection E as E. apply DecimalNat.Unsigned.to_uint_inj. exact E.
Qed.

Lemma digits_of_uint (d : Decimal.uint) :
  Forall (fun ch => isDigit ch = true) (lit (NilEmpty.string_of_uint d)).
Proof.
  induction d; cbn [NilEmpty.string_of_uint]; rewrite ?lit_cons;
    constructor; try reflexivity; assumption.
Qed.

(** The decimal form of a number has digits only. *)
Lemma Number_toString_digits (n : nat) :
  Forall (fun ch => isDigit ch = true) (Number_toString n).
Proof.
  unfold Number_toString, NilZero.string_of_uint.
  destruct (Nat.to_uint n);
    try apply digits_of_uint.
  repeat constructor.
Qed.

Lemma no_underscore (n : nat) : ~ In 95%N (Number_toString n).
Proof.
  intros H. pose proof (Number_toString_digits n) as D.
  rewrite Forall_forall in D. specialize (D _ H). discriminate.
Qed.

Lemma after_last_separator (sep : char16) (a1 a2 d1 d2 : jsstring) :
  ~ In sep d1 -> ~ In sep d2 ->
  a1 ++ sep :: d1 = a2 ++ sep :: d2 -> d1 = d2.
Proof.
  intros H1 H2. revert a2.
  induction a1 as [|x a1 IH]; intros [|y a2] E; cbn in E.
  - injection E as E. exact E.
  - injection E as <- E. exfalso. apply H1. rewrite E.
    apply in_or_app. right. left. reflexivity.
  - injection E as -> E. exfalso. apply H2. rewrite <- E.
    apply in_or_app. right. left. reflexivity.
  - injection E as _ E. exact (IH a2 E).
Qed.

Lemma key_index (m1 m2 : Message) (i j : nat) :
  key_of m1 i = key_of m2 j -> i = j.
Proof.
  unfold key_of, message_key. intros E.
  apply Number_toString_injective.
  change (lit "_") with [95%N] in E.
  rewrite !app_assoc in E. rewrite <- !app_assoc in E.
  set (ts1 := null_or_else _ _) in E.
  set (ts2 := null_or_else (option_map Date_toString (message_timestamp m2)) _)
    in E.
  assert (E' : (message_id m1 ++ [95%N] ++ message_type m1 ++ [95%N] ++ ts1)
               ++ 95%N :: Number_toString i
               = (message_id m2 ++ [95%N] ++ message_type m2 ++ [95%N] ++ ts2)
                 ++ 95%N :: Number_toString j).
  { rewrite <- !app_assoc. exact E. }
  exact (@after_last_separator 95%N _ _ _ _ (no_underscore i)
           (no_underscore j) E').
Qed.

Lemma in_mapi_from_inv {A B} (f : A -> nat -> B) (l : list A) (i : nat)
      (y : B) :
  In y (mapi_from i f l) -> exists x j, i <= j /\ y = f x j.
Proof.
  revert i. induction l as [|x l IH]; intros i; cbn; [intros []|].
  intros [<-|H]; [exists x, i; split; [lia | reflexivity]|].
  destruct (IH _ H) as [x' [j [Hj ->]]]. exists x', j. split; [lia|].
  reflexivity.
Qed.

(** X17.  The keys of the message rows are pairwise distinct, whatever the
    messages are, even when several messages share their id, type and
    timestamp: a key ends in the position of its row, and equal keys force
    equal positions. *)
Theorem message_row_keys_are_distinct (c : Ctx) (l : list Message) :
  (forall m1 m2 i j, key_of m1 i = key_of m2 j -> i = j)
  /\ NoDup (mapi key_of l)
  /\ (forall m i,
         attrs_of (MessageRow toLowerCase Date_toString c m i)
         = [key_ (key_of m i)]).
Proof.
  split; [apply key_index|]. split; [|reflexivity].
  unfold mapi. generalize 0 as i.
  induction l as [|m l IH]; intros i; cbn; constructor; [|apply IH].
  intros H. apply in_mapi_from_inv in H.
  destruct H as [m' [j [Hj E]]]. apply key_index in E. lia.
Qed.

End MessageKeyFacts.

(* ================================================================== *)
(** ** Renders that change nothing the effects depend on *)

Section QuietCommitFacts.

Variable toLowerCase : jsstring -> jsstring.
Variable Date_toString : Date -> jsstring.

Let commit := commit_effects toLowerCase Date_toString.
Let commit_step := commit_phase toLowerCase Date_toString.

Lemma Object_is_refl (v : DepVal) : Object_is v v = true.
Proof.
  destruct v; cbn; [apply str_eqb_refl | apply Bool.eqb_reflx | reflexivity
                    | apply N.eqb_refl].
Qed.

Lemma same_deps_refl (l : list DepVal) : same_deps l l = true.
Proof.
  induction l as [|v l IH]; cbn; [reflexivity|].
  rewrite Object_is_refl, IH. reflexivity.
Qed.

Lemma quiet_commit (c0 c : Ctx) :
  (forall i, deps i c0 = deps i c) -> commit (Some c0) c = [].
Proof.
  intros H. unfold commit, commit_effects.
  assert (E : filter (scheduled (Some c0) c) all_effects = []).
  { induction all_effects as [|i l IH]; cbn [filter]; [reflexivity|].
    unfold scheduled at 1. rewrite H, same_deps_refl. exact IH. }
  rewrite E. reflexivity.
Qed.

Lemma setter_free_log (l : list Effect) (b : bool) :
  (forall x v, In x l -> x <> Call_setSidebarOpen v) ->
  apply_setSidebarOpen l b = b.
Proof.
  induction l as [|x l IH]; intros H; [reflexivity|].
  destruct x; cbn;
    try (apply IH; intros y' v' Hy; apply H; right; exact Hy).
  exfalso. exact (H _ _ (or_introl eq_refl) eq_refl).
Qed.

(** A commit leaves the component's own state as it is. *)
Lemma commit_keeps_ctx (s : Store) : ctx_of (commit_step s) = ctx_of s.
Proof.
  unfold commit_step, commit_phase, performed, ctx_of.
  cbn [st_props st_messages_identity st_isMobile st_speech st_sidebarOpen].
  rewrite setter_free_log; [reflexivity|].
  intros x v Hx ->.
  exact (setSidebarOpen_not_in_commit toLowerCase Date_toString _ _ v Hx).
Qed.

(** X18.  A render whose dependencies are those of the previous render
    commits nothing: no effect runs again.  So committing the same render
    twice adds nothing to the log, and a render that differs from the
    previous one only in the search text, the chats, the user or the rename
    text (none of which is a dependency) runs no effect either. *)
Theorem unchanged_dependencies_commit_nothing (c0 c : Ctx) (s : Store) :
  ((forall i, deps i c0 = deps i c) -> commit (Some c0) c = [])
  /\ commit (Some c) c = []
  /\ commit_step (commit_step s) = commit_step s
  /\ (currentMessage (props c0) = currentMessage (props c) ->
      isAssistantTyping (props c0) = isAssistantTyping (props c) ->
      activeChat (props c0) = activeChat (props c) ->
      renamingChatId (props c0) = renamingChatId (props c) ->
      onMessageChange (props c0) = onMessageChange (props c) ->
      speech c0 = speech c -> isMobile c0 = isMobile c ->
      sidebarOpen c0 = sidebarOpen c ->
      messages_identity c0 = messages_identity c ->
      commit (Some c0) c = []).
Proof.
  split; [apply quiet_commit|]. split; [apply quiet_commit; reflexivity|].
  split.
  - unfold commit_step. set (s1 := commit_phase toLowerCase Date_toString s).
    pose proof (commit_keeps_ctx s) as K. unfold commit_step in K.
    fold s1 in K.
    unfold commit_phase at 1. rewrite K.
    change (st_committed s1) with (Some (ctx_of s)).
    fold commit. rewrite (quiet_commit (ctx_of s) (ctx_of s)) by reflexivity.
    unfold performed. cbn [apply_setSidebarOpen]. rewrite app_nil_r.
    reflexivity.
  - intros H1 H2 H3 H4 H5 H6 H7 H8 H9. apply quiet_commit.
    intros i. destruct i; cbn [deps];
      rewrite ?H1, ?H2, ?H3, ?H4, ?H5, ?H6, ?H7, ?H8, ?H9; reflexivity.
Qed.

End QuietCommitFacts.

(* ================================================================== *)
(** ** Creating a chat *)

Section NewChatFacts.

Variable toLowerCase : jsstring -> jsstring.
Variable Date_toString : Date -> jsstring.
Variable env : jsstring -> jsstring -> option Exn.

Let Page := ChatPage toLowerCase Date_toString.

Lemma new_chat_buttons (c : Ctx) :
  select offers_new_chat (Page c) =
  [if isMobile c
   then El "Button"
           "w-full bg-zinc-800 text-white rounded-lg flex items-center justify-center space-x-2"
           [onClick mobileNewChat]
           [El "Plus" "w-4 h-4" [] [];
            El "span" "" [] [Text (lit "New Chat")]]
   else El "Button"
           "bg-zinc-800 rounded-full p-0 w-8 h-8 flex items-center justify-center text-white"
           [prop "size" "icon"; onClick createNewChat]
           [El "Plus" "w-4 h-4 text-white" [] []]].
Proof.
  unfold offers_new_chat, Page, ChatPage.
  rewrite select_node. cbn [children_of flat_map].
  rewrite (select_clean (n := Header c)) by clean_tac.
  unfold Body. rewrite (select_node _ (El _ _ _ _)).
  cbn [children_of flat_map].
  rewrite (select_clean (n := MainArea toLowerCase Date_toString c))
    by clean_tac.
  rewrite (select_clean (n := if isMobile c && sidebarOpen c then _ else _))
    by clean_tac.
  unfold Sidebar. rewrite (select_node _ (El "aside" _ _ _)).
  cbn [children_of flat_map].
  rewrite (select_clean (n := ChatsTab c)) by clean_tac.
  rewrite (select_clean (n := El "div" _ _ [El "div" "flex-1 relative" _ _; _]))
    by clean_tac.
  rewrite (select_clean (n := ChatList toLowerCase c)) by clean_tac.
  destruct (isMobile c); reflexivity.
Qed.

(** X19.  The page offers exactly one control that creates a chat: the
    round plus button on a desktop view, the [New Chat] button on a mobile
    view.  A click on it calls [onCreateNewChat] once; on a mobile view it
    then closes the sidebar. *)
Theorem one_new_chat_button (c : Ctx) (e : DomEvent) :
  length (select offers_new_chat (Page c)) = 1
  /\ map (fun b => fire env c b click e) (select offers_new_chat (Page c)) =
     [if isMobile c then [Call_onCreateNewChat; Call_setSidebarOpen false]
      else [Call_onCreateNewChat]].
Proof.
  rewrite new_chat_buttons. split; [reflexivity|].
  destruct (isMobile c); reflexivity.
Qed.

End NewChatFacts.

(* ================================================================== *)
(** ** The further theorems at concrete inputs *)

(** X6 at a badge field with three pieces. *)
Lemma field_badges_and_not_available_witness :
  map textContent
      (select (has_tag "Badge")
              (renderFieldValue
                 {| field_label := lit "Certifications";
                    field_value := lit "ISO 9001, CE ,RoHS";
                    field_type := badge |}))
  = [lit "ISO 9001"; lit "CE"; lit "RoHS"].
Proof.
  destruct (field_badges_and_not_available
              {| field_label := lit "Certifications";
                 field_value := lit "ISO 9001, CE ,RoHS";
                 field_type := badge |}) as [H _].
  destruct (H eq_refl) as [E _]; [discriminate|].
  rewrite E. reflexivity.
Defined.

(** X7 at the sample user. *)
Lemma initials_of_name_witness : initials sample_user = lit "AL".
Proof.
  destruct (initials_of_name sample_user) as [_ [_ H]].
  rewrite (H [lit "Ada"; lit "Lovelace"]).
  - reflexivity.
  - discriminate.
  - repeat constructor; try discriminate; vm_compute; intuition discriminate.
  - reflexivity.
Defined.

(** X10 at a rename of the first sample chat while the search text matches
    no title. *)
Lemma rename_focus_needs_listed_chat_witness :
  let c := with_props sample_ctx
             (with_rename (sample_props_with [] (lit "zzz") false)
                          (Some (lit "c1")) (lit "New title")) in
  effects (effect_body ascii_toLowerCase sample_Date_toString
                       effect_renameFocus c) = [].
Proof.
  intros c.
  destruct (rename_focus_needs_listed_chat ascii_toLowerCase
              sample_Date_toString c) as [_ [_ H]].
  apply H. intros chat Hin Hid. cbn in Hin.
  destruct Hin as [<-|[<-|[]]]; [reflexivity | discriminate].
Defined.

(** X11 and X12: the assistant stops typing while the hook still holds
    [hello]; the message is cleared after a send. *)
Lemma onMessageChange_calls_of_a_commit_witness :
  let busy := sample_ctx_with (sample_props_with [] [] true) false
                              (sample_speech_with false (lit "hello")) in
  let idle := sample_ctx_with (sample_props_with [] [] false) false
                              (sample_speech_with false (lit "hello")) in
  In (Call_onMessageChange (lit "hello"))
     (commit_effects ascii_toLowerCase sample_Date_toString (Some busy) idle).
Proof.
  intros busy idle.
  destruct (onMessageChange_calls_of_a_commit ascii_toLowerCase
              sample_Date_toString (Some busy) idle) as [_ [_ [H _]]].
  apply (H busy); try reflexivity. discriminate.
Defined.

Lemma setTranscript_calls_of_a_commit_witness :
  let typed := sample_ctx_with (sample_props_with (lit "hi") [] false) false
                               (sample_speech_with false (lit "hi")) in
  let sent := sample_ctx_with (sample_props_with [] [] true) false
                              (sample_speech_with false (lit "hi")) in
  In (Call_setTranscript [])
     (commit_effects ascii_toLowerCase sample_Date_toString (Some typed) sent).
Proof.
  intros typed sent.
  destruct (setTranscript_calls_of_a_commit ascii_toLowerCase
              sample_Date_toString (Some typed) sent) as [_ H].
  apply (H typed); try reflexivity. discriminate.
Defined.

(** X16 at the first sample chat, on a mobile view with the sidebar open
    and React listening on the document. *)
Lemma clicks_inside_a_chat_row_witness :
  let chat := {| chat_id := lit "c1"; chat_title := lit "Electronics";
                 chat_messages := sample_messages |} in
  let c := {| props := sample_props; isMobile := true; sidebarOpen := true;
              speech := sample_speech_with false [];
              messages_identity := 30%N |} in
  bubble (fun _ _ => None) sample_host c
         (within_row_path ascii_toLowerCase sample_Date_toString c
                          chat [0; 0; 0; 0])
         click {| key := []; target_value := [] |}
  = [StopPropagation; Call_onStartRename chat; Call_setSidebarOpen false].
Proof.
  intros chat c.
  destruct (clicks_inside_a_chat_row ascii_toLowerCase sample_Date_toString
              (fun _ _ => None) sample_host c chat
              {| key := []; target_value := [] |}) as [_ [H _]].
  apply H. reflexivity.
Defined.

(** X18: only the search text differs between two renders. *)
Lemma unchanged_dependencies_commit_nothing_witness :
  commit_effects ascii_toLowerCase sample_Date_toString
    (Some (sample_ctx_with (sample_props_with [] (lit "e") false) false
                           (sample_speech_with false [])))
    (sample_ctx_with (sample_props_with [] (lit "el") false) false
                     (sample_speech_with false []))
  = [].
Proof.
  destruct (unchanged_dependencies_commit_nothing ascii_toLowerCase
              sample_Date_toString
              (sample_ctx_with (sample_props_with [] (lit "e") false) false
                               (sample_speech_with false []))
              (sample_ctx_with (sample_props_with [] (lit "el") false) false
                               (sample_speech_with false []))
              sample_store) as [_ [_ [_ H]]].
  apply H; reflexivity.
Defined.
